(** * RecruitmentBuddy: the scoring pipeline and questionnaire flow of [app.py]

    A shallow embedding of the request handlers and helper functions of
    [src/app.py], with the properties of its specification stated and proved
    (or refuted) over it.

    Conventions of the embedding.
    - A Python number ([int], [float], and [bool] read as 0/1) is given by
      its exact rational value [Q].  The functions that compute with the
      scores are embedded twice: with exact rational arithmetic, for the
      properties that do not depend on rounding, and with IEEE binary64
      arithmetic (module [B64], round to nearest even, as Python's [float]
      and NumPy's [float64] compute), for the properties that do: the
      letters of the type code, the order of the ranked list and the
      percentages shown.  The second embedding carries the suffix [64].
      Python's JSON parser also yields [nan] and the infinities; they are
      not values of [pyval], and [out_of_range64] gives the range test of
      validation on them.
    - A handler returns the session object as the view leaves it.  The
      session the next request reads is the one the cookie carries;
      [questionnaire_next_request] gives it for the questionnaire flow.
    - A JSON body is a [pyval]; a Python [dict] is an association list with
      at most one binding per key in insertion order.
    - A raised exception is the left injection of [result].
    - The database is a record of tables (lists of rows in rowid order); a
      connection carries the committed tables and the tables as the open
      transaction sees them. *)

From Stdlib Require Import ZArith QArith Qabs Qround Qminmax.
From Stdlib Require Import List String Ascii Bool Lia Lqa.
From Stdlib Require Import Permutation Sorted.
From Stdlib Require Floats.SpecFloat.
Import ListNotations.

Local Open Scope string_scope.
Local Open Scope Z_scope.
Local Open Scope Q_scope.

(* ================================================================== *)
(** * Python values, dictionaries and exceptions *)
(* ================================================================== *)

#[warnings="-register-all"]
Inductive pyval : Type :=
| PNone
| PBool (b : bool)
| PInt (z : Z)
| PFloat (q : Q)
| PStr (s : string)
| PList (l : list pyval)
| PDict (d : list (string * pyval)).

Module Dict.

Definition dict (V : Type) : Type := list (string * V).

(** [d.get(k)] as an option. *)
Fixpoint dget {V : Type} (k : string) (d : dict V) : option V :=
  match d with
  | [] => None
  | (k', v) :: d' => if String.eqb k k' then Some v else dget k d'
  end.

(** [d[k] = v]: overwrite in place, or append a new key. *)
Fixpoint dset {V : Type} (k : string) (v : V) (d : dict V) : dict V :=
  match d with
  | [] => [(k, v)]
  | (k', v') :: d' =>
      if String.eqb k k' then (k, v) :: d' else (k', v') :: dset k v d'
  end.

(** [k in d]. *)
Definition dmem {V : Type} (k : string) (d : dict V) : bool :=
  match dget k d with Some _ => true | None => false end.

End Dict.
Import Dict.

Inductive exn : Type :=
| ValueError (msg : string)
| TypeError
| KeyError (key : string)
| AttributeError
| OverflowError.

Definition result (A : Type) : Type := (exn + A)%type.

Definition ok {A : Type} (a : A) : result A := inr a.
Definition raise {A : Type} (e : exn) : result A := inl e.

Definition bind {A B : Type} (m : result A) (k : A -> result B) : result B :=
  match m with
  | inl e => inl e
  | inr a => k a
  end.

Notation "x <- m ;; k" := (bind m (fun x => k))
  (at level 61, m at next level, right associativity).

(** [str(e)] for the exceptions the handlers report. *)
Definition exn_str (e : exn) : string :=
  match e with
  | ValueError msg => msg
  | TypeError => "TypeError"
  | KeyError key => key
  | AttributeError => "AttributeError"
  | OverflowError => "OverflowError"
  end.

(** Truth value of an object, as [if x:] and [not x] test it. *)
Definition py_truthy (v : pyval) : bool :=
  match v with
  | PNone => false
  | PBool b => b
  | PInt z => negb (Z.eqb z 0)
  | PFloat q => negb (Qeq_bool q 0)
  | PStr s => negb (String.eqb s "")
  | PList l => match l with [] => false | _ => true end
  | PDict d => match d with [] => false | _ => true end
  end.

(** [isinstance(v, (int, float))]; [bool] is a subclass of [int]. *)
Definition is_int_or_float (v : pyval) : bool :=
  match v with
  | PBool _ | PInt _ | PFloat _ => true
  | _ => false
  end.

(** The numeric value of a number; [True] is 1 and [False] is 0. *)
Definition num_value (v : pyval) : option Q :=
  match v with
  | PBool b => Some (if b then 1 else 0)
  | PInt z => Some (inject_Z z)
  | PFloat q => Some q
  | _ => None
  end.

Definition Qlt_bool (x y : Q) : bool := negb (Qle_bool y x).

(** [item in container] for a string [item]. *)
Definition py_contains (container : pyval) (item : string) : result bool :=
  match container with
  | PDict d => ok (dmem item d)
  | PList l =>
      ok (existsb (fun v => match v with
                            | PStr s => String.eqb s item
                            | _ => false
                            end) l)
  | PStr s => ok (match String.index 0 item s with
                  | Some _ => true
                  | None => false
                  end)
  | _ => raise TypeError
  end.

(** [container[key]] for a string [key]. *)
Definition py_getitem (container : pyval) (key : string) : result pyval :=
  match container with
  | PDict d => match dget key d with
               | Some v => ok v
               | None => raise (KeyError key)
               end
  | _ => raise TypeError
  end.

(** [container.get(key, default)]. *)
Definition py_get (container : pyval) (key : string) (default : pyval)
  : result pyval :=
  match container with
  | PDict d => match dget key d with
               | Some v => ok v
               | None => ok default
               end
  | _ => raise AttributeError
  end.

(** [v == n] for an integer literal [n]. *)
Definition py_eq_int (v : pyval) (n : Z) : bool :=
  match num_value v with
  | Some q => Qeq_bool q (inject_Z n)
  | None => false
  end.

(* ================================================================== *)
(** * The four subscale scores *)
(* ================================================================== *)

(** The [scores] dictionary once its four entries are known to be numbers. *)
Record RawScores : Type := mkScores {
  analytical_score : Q;
  creative_score : Q;
  social_score : Q;
  technical_score : Q
}.

Definition in_range (q : Q) : Prop := 0 <= q /\ q <= 10.

Definition scores_in_range (s : RawScores) : Prop :=
  in_range (analytical_score s) /\ in_range (creative_score s) /\
  in_range (social_score s) /\ in_range (technical_score s).

Definition required_fields : list string :=
  ["analytical_score"; "creative_score"; "social_score"; "technical_score"].

(** Arithmetic on an entry raises [TypeError] unless it is a number. *)
Definition as_number (v : pyval) : result Q :=
  match num_value v with
  | Some q => ok q
  | None => raise TypeError
  end.

(** The four entries as [get_personality_type] reads them, in its order. *)
Definition read_scores (scores : pyval) : result RawScores :=
  s <- (v <- py_getitem scores "social_score" ;; as_number v) ;;
  c <- (v <- py_getitem scores "creative_score" ;; as_number v) ;;
  a <- (v <- py_getitem scores "analytical_score" ;; as_number v) ;;
  t <- (v <- py_getitem scores "technical_score" ;; as_number v) ;;
  ok (mkScores a c s t).

(* ================================================================== *)
(** * [validate_questionnaire_input] *)
(* ================================================================== *)

(** [all(field in scores for field in fields)], left to right, stopping
    at the first absent field. *)
Fixpoint all_fields_in (scores : pyval) (fields : list string) : result bool :=
  match fields with
  | [] => ok true
  | f :: fs =>
      b <- py_contains scores f ;;
      if b then all_fields_in scores fs else ok false
  end.

Definition invalid_score_msg (field : string) : string :=
  "Invalid score for " ++ field ++ ". Must be number between 0 and 10".

(** [not isinstance(score, (int, float)) or score < 0 or score > 10]. *)
Definition score_rejected (score : pyval) : bool :=
  negb (is_int_or_float score)
  || match num_value score with
     | Some q => Qlt_bool q 0 || Qlt_bool 10 q
     | None => false
     end.

Fixpoint check_scores (scores : pyval) (fields : list string) : result unit :=
  match fields with
  | [] => ok tt
  | f :: fs =>
      score <- py_getitem scores f ;;
      if score_rejected score
      then raise (ValueError (invalid_score_msg f))
      else check_scores scores fs
  end.

Definition validate_questionnaire_input (data : pyval) : result bool :=
  has_scores <- py_contains data "scores" ;;
  if negb has_scores
  then raise (ValueError "Missing 'scores' field in questionnaire data")
  else
    scores <- py_getitem data "scores" ;;
    present <- all_fields_in scores required_fields ;;
    if negb present
    then raise (ValueError "Missing required fields in scores data")
    else
      _ <- check_scores scores required_fields ;;
      ok true.

(* ================================================================== *)
(** * [get_personality_type] *)
(* ================================================================== *)

Record dimension_scores : Type := mkDims {
  ei : Q;
  sn : Q;
  tf : Q;
  jp : Q
}.

Record personality : Type := mkPersonality {
  code : string;
  scores : dimension_scores
}.

Definition get_personality_type (s : RawScores)
  : personality * dimension_scores :=
  let ei_score := social_score s / 10 in
  let sn_score := creative_score s / 10 in
  let tf_score := (analytical_score s + technical_score s) / 20 in
  let jp_score := (technical_score s + creative_score s) / 20 in
  let type_code := "" in
  let type_code := type_code ++ (if Qle_bool (1#2) ei_score then "E" else "I") in
  let type_code := type_code ++ (if Qle_bool (1#2) sn_score then "N" else "S") in
  let type_code := type_code ++ (if Qle_bool (1#2) tf_score then "T" else "F") in
  let type_code := type_code ++ (if Qle_bool (1#2) jp_score then "P" else "J") in
  let dims := mkDims ei_score sn_score tf_score jp_score in
  (mkPersonality type_code dims, dims).

(* ================================================================== *)
(** * [sklearn.preprocessing.MinMaxScaler] with its default range (0, 1) *)
(* ================================================================== *)

(** The scaler works feature by feature: a matrix has one row per sample
    and one column per feature, and the minimum and maximum are taken down
    each column. *)
Module MinMaxScaler.

Definition row : Type := list Q.
Definition matrix : Type := list row.

Fixpoint zip_with (f : Q -> Q -> Q) (xs ys : row) : row :=
  match xs, ys with
  | x :: xs', y :: ys' => f x y :: zip_with f xs' ys'
  | _, _ => []
  end.

(** [np.min(X, axis=0)] and [np.max(X, axis=0)]. *)
Definition col_fold (f : Q -> Q -> Q) (X : matrix) : row :=
  match X with
  | [] => []
  | r :: rs => fold_left (zip_with f) rs r
  end.

Definition data_min (X : matrix) : row := col_fold Qmin X.
Definition data_max (X : matrix) : row := col_fold Qmax X.

Definition data_range (X : matrix) : row :=
  zip_with Qminus (data_max X) (data_min X).

(** A feature whose range is zero is scaled by 1 instead. *)
Definition handle_zeros_in_scale (scale : row) : row :=
  map (fun s => if Qeq_bool s 0 then 1 else s) scale.

Definition feature_range : Q * Q := (0, 1).

Definition scale_ (X : matrix) : row :=
  map (fun r => (snd feature_range - fst feature_range) / r)
      (handle_zeros_in_scale (data_range X)).

Definition min_ (X : matrix) : row :=
  zip_with (fun m s => fst feature_range - m * s) (data_min X) (scale_ X).

(** [X *= scale_; X += min_], row by row. *)
Definition transform (sc mn : row) (X : matrix) : matrix :=
  map (fun r => zip_with Qplus (zip_with Qmult r sc) mn) X.

Definition fit_transform (X : matrix) : matrix :=
  transform (scale_ X) (min_ X) X.

End MinMaxScaler.

(** The normalization step of [calculate_major_matches]: the scaler is
    fitted on the one-row matrix [[a, c, s, t]] and row 0 of the result
    is kept. *)
Definition score_values (s : RawScores) : MinMaxScaler.matrix :=
  [[analytical_score s; creative_score s; social_score s; technical_score s]].

Definition normalized_scores (s : RawScores) : list Q :=
  nth 0 (MinMaxScaler.fit_transform (score_values s)) [].

(** [v[i]] for an index the vector has. *)
Definition at_index (v : list Q) (i : nat) : Q := nth i v 0.

(** The normalizer as the specification words it: min-max across the four
    values of the one vector, and the constant 1/2 when they are all equal. *)
Definition spec_normalize (s : RawScores) : list Q :=
  let xs := [analytical_score s; creative_score s;
             social_score s; technical_score s] in
  let lo := Qmin (Qmin (analytical_score s) (creative_score s))
                 (Qmin (social_score s) (technical_score s)) in
  let hi := Qmax (Qmax (analytical_score s) (creative_score s))
                 (Qmax (social_score s) (technical_score s)) in
  if Qeq_bool lo hi
  then [1#2; 1#2; 1#2; 1#2]
  else map (fun x => (x - lo) / (hi - lo)) xs.

(* ================================================================== *)
(** * The database *)
(* ================================================================== *)

(** [schema.sql] is not among the sources: each table carries the columns
    that the queries of [app.py] name.  The catalogue row has both
    [career_opportunities]/[required_skills] (read by
    [calculate_major_matches]) and [careers]/[skills] (read by
    [recommendations]). *)

Record personality_type_row : Type := mkPType {
  pt_id : Z;
  pt_code : string;
  pt_name : string;
  pt_description : string
}.

Module Major.
Record t : Type := mk {
  id : Z;
  name : string;
  description : string;
  career_opportunities : string;
  required_skills : string;
  careers : string;
  skills : string;
  analytical_weight : Q;
  creative_weight : Q;
  social_weight : Q;
  technical_weight : Q
}.
End Major.

Record major_personality_match : Type := mkAffinity {
  mpm_major_id : Z;
  mpm_personality_type_id : Z;
  match_strength : Q
}.

Record questionnaire_response : Type := mkResponse {
  qr_id : Z;
  qr_scores : RawScores;
  qr_personality_type_id : Z;
  raw_responses : pyval
}.

Record major_recommendation : Type := mkRecommendation {
  rec_response_id : Z;
  rec_major_id : Z;
  rec_match_score : Q;
  rec_analytical_match : Q;
  rec_creative_match : Q;
  rec_social_match : Q;
  rec_technical_match : Q;
  rec_personality_match : Q
}.

Record database : Type := mkDb {
  personality_types : list personality_type_row;
  majors : list Major.t;
  major_personality_matches : list major_personality_match;
  questionnaire_responses : list questionnaire_response;
  major_recommendations : list major_recommendation
}.

(** A connection: what is committed, and what the open transaction sees.
    Closing the connection at the end of the request keeps [committed]. *)
Record connection : Type := mkConn {
  committed : database;
  working : database
}.

Definition connect (d : database) : connection := mkConn d d.

(** [cursor.lastrowid] after an insert into a table whose rowids are [ids]:
    one more than the largest rowid in use. *)
Definition next_rowid (ids : list Z) : Z :=
  (1 + fold_right Z.max 0 ids)%Z.

(** Handler code over a connection: it may raise, and it threads the
    connection either way. *)
Definition M (A : Type) : Type := connection -> result A * connection.

Definition ret {A : Type} (a : A) : M A := fun c => (ok a, c).

Definition bindM {A B : Type} (m : M A) (k : A -> M B) : M B :=
  fun c => match m c with
           | (inl e, c') => (inl e, c')
           | (inr a, c') => k a c'
           end.

Definition lift {A : Type} (r : result A) : M A := fun c => (r, c).

Notation "x <-- m ;; k" := (bindM m (fun x => k))
  (at level 61, m at next level, right associativity).

Definition commit : M unit :=
  fun c => (ok tt, mkConn (working c) (working c)).

(* ================================================================== *)
(** * [get_personality_type_id] *)
(* ================================================================== *)

Definition select_type_by_code (d : database) (type_code : string)
  : option personality_type_row :=
  find (fun r => String.eqb (pt_code r) type_code) (personality_types d).

Definition insert_personality_type (type_code nm descr : string) : M Z :=
  fun c =>
    let w := working c in
    let new_id := next_rowid (map pt_id (personality_types w)) in
    let w' := mkDb (personality_types w ++ [mkPType new_id type_code nm descr])
                   (majors w) (major_personality_matches w)
                   (questionnaire_responses w) (major_recommendations w) in
    (ok new_id, mkConn (committed c) w').

Definition get_personality_type_id (type_code : string) : M Z :=
  fun c =>
    match select_type_by_code (working c) type_code with
    | Some row => (ok (pt_id row), c)
    | None =>
        (lastrowid <-- insert_personality_type type_code
                         ("Type " ++ type_code)
                         "Personality type description" ;;
         _ <-- commit ;;
         ret lastrowid) c
    end.

(* ================================================================== *)
(** * [calculate_major_matches] *)
(* ================================================================== *)

Module Match.
Record t : Type := mk {
  major_id : Z;
  name : string;
  description : string;
  career_opportunities : string;
  required_skills : string;
  match_score : Q;
  analytical_match : Q;
  creative_match : Q;
  social_match : Q;
  technical_match : Q;
  personality_match : Q
}.
End Match.

(** [list.sort(key=..., reverse=True)]: the stable sort into non-increasing
    key order.  An element is inserted before the first element whose key
    does not exceed its own, so that among equal keys the original order
    is kept. *)
Fixpoint insert_desc {A : Type} (key : A -> Q) (x : A) (l : list A) : list A :=
  match l with
  | [] => [x]
  | y :: l' =>
      if Qle_bool (key y) (key x) then x :: y :: l'
      else y :: insert_desc key x l'
  end.

Definition sort_desc {A : Type} (key : A -> Q) (l : list A) : list A :=
  fold_right (insert_desc key) [] l.

(** [if personality_type_id:] *)
Definition type_id_given (personality_type_id : option Z) : option Z :=
  match personality_type_id with
  | Some t => if Z.eqb t 0 then None else Some t
  | None => None
  end.

Definition select_match_strength (d : database) (mid tid : Z)
  : option major_personality_match :=
  find (fun r => Z.eqb (mpm_major_id r) mid &&
                 Z.eqb (mpm_personality_type_id r) tid)
       (major_personality_matches d).

(** The body of the loop over the catalogue. *)
Definition major_match (d : database) (normalized : list Q)
           (personality_type_id : option Z) (major : Major.t) : Match.t :=
  let analytical_match :=
    1 - Qabs (at_index normalized 0 - Major.analytical_weight major) in
  let creative_match :=
    1 - Qabs (at_index normalized 1 - Major.creative_weight major) in
  let social_match :=
    1 - Qabs (at_index normalized 2 - Major.social_weight major) in
  let technical_match :=
    1 - Qabs (at_index normalized 3 - Major.technical_weight major) in
  let personality_match :=
    match type_id_given personality_type_id with
    | Some tid =>
        match select_match_strength d (Major.id major) tid with
        | Some row => match_strength row
        | None => 1 # 2
        end
    | None => 1 # 2
    end in
  let match_score :=
    (analytical_match + creative_match + social_match + technical_match)
      / 4 * (7 # 10)
    + personality_match * (3 # 10) in
  Match.mk (Major.id major) (Major.name major) (Major.description major)
           (Major.career_opportunities major) (Major.required_skills major)
           match_score analytical_match creative_match social_match
           technical_match personality_match.

Definition calculate_major_matches (d : database) (s : RawScores)
           (personality_type_id : option Z) : list Match.t :=
  let normalized := normalized_scores s in
  let matches := map (major_match d normalized personality_type_id) (majors d) in
  sort_desc Match.match_score matches.

(* ================================================================== *)
(** * Sessions and responses *)
(* ================================================================== *)

Module Session.
Record t : Type := mk {
  user_id : option Z;
  questionnaire_responses : option (dict pyval);
  scores : option pyval;
  flashes : list (string * string)
}.
End Session.

(** [flash(message, category)]. *)
Definition flash (message category : string) (sess : Session.t) : Session.t :=
  Session.mk (Session.user_id sess) (Session.questionnaire_responses sess)
             (Session.scores sess)
             (Session.flashes sess ++ [(category, message)]).

Inductive url : Type :=
| UrlIndex
| UrlLogin
| UrlQuestionnaire (step : option Z)
| UrlRecommendations.

Module Rendered.
Record t : Type := mk {
  name : string;
  description : string;
  careers : list string;
  skills : list string;
  match_percentage : Z;
  weights : Q * Q * Q * Q
}.
End Rendered.

Record question : Type := mkQuestion {
  text : string;
  field : string;
  progress : Z
}.

Inductive response : Type :=
| Jsonify (body : dict pyval) (status : Z)
| JsonifyRedirect (target : url)
| Redirect (target : url)
| RenderQuestionnaire (q : question) (step total_steps : Z)
| RenderRecommendations (top_majors : list Rendered.t) (user_scores : dict pyval)
| ServerError.

(** The HTTP status a response goes out with. *)
Definition status_of (r : response) : Z :=
  match r with
  | Jsonify _ st => st
  | JsonifyRedirect _ => 200
  | Redirect _ => 302
  | RenderQuestionnaire _ _ _ => 200
  | RenderRecommendations _ _ => 200
  | ServerError => 500
  end%Z.

(** What [login_required] does when ['user_id'] is not in the session. *)
Definition login_redirect (sess : Session.t) : response * Session.t :=
  (Redirect UrlLogin, flash "Please log in to access this page." "error" sess).

(* ================================================================== *)
(** * [submit_questionnaire] *)
(* ================================================================== *)

Definition insert_questionnaire_response (s : RawScores)
           (personality_type_id : Z) (raw : pyval) : M Z :=
  fun c =>
    let w := working c in
    let new_id := next_rowid (map qr_id (questionnaire_responses w)) in
    let w' := mkDb (personality_types w) (majors w)
                   (major_personality_matches w)
                   (questionnaire_responses w
                      ++ [mkResponse new_id s personality_type_id raw])
                   (major_recommendations w) in
    (ok new_id, mkConn (committed c) w').

Definition insert_major_recommendation (response_id : Z) (m : Match.t)
  : M unit :=
  fun c =>
    let w := working c in
    let w' := mkDb (personality_types w) (majors w)
                   (major_personality_matches w)
                   (questionnaire_responses w)
                   (major_recommendations w
                      ++ [mkRecommendation response_id (Match.major_id m)
                            (Match.match_score m) (Match.analytical_match m)
                            (Match.creative_match m) (Match.social_match m)
                            (Match.technical_match m)
                            (Match.personality_match m)]) in
    (ok tt, mkConn (committed c) w').

Fixpoint for_each {A : Type} (f : A -> M unit) (l : list A) : M unit :=
  match l with
  | [] => ret tt
  | x :: l' => _ <-- f x ;; for_each f l'
  end.

(** The [try] block of the handler. *)
Definition submit_try (data : pyval) : M (Z * pyval) :=
  _ <-- lift (validate_questionnaire_input data) ;;
  scores <-- lift (py_getitem data "scores") ;;
  s <-- lift (read_scores scores) ;;
  let primary_type := fst (get_personality_type s) in
  personality_type_id <-- get_personality_type_id (code primary_type) ;;
  raw <-- lift (py_get data "responses" (PDict [])) ;;
  response_id <-- insert_questionnaire_response s personality_type_id raw ;;
  matches <-- (fun c => (ok (calculate_major_matches (working c) s
                               (Some personality_type_id)), c)) ;;
  _ <-- for_each (insert_major_recommendation response_id) matches ;;
  _ <-- commit ;;
  ret (response_id, scores).

(** The handler, from the database as the request finds it to the database
    as the request leaves it. *)
Definition submit_questionnaire (d : database) (sess : Session.t)
           (data : pyval) : response * Session.t * database :=
  match Session.user_id sess with
  | None => (login_redirect sess, d)
  | Some _ =>
      match submit_try data (connect d) with
      | (inr (response_id, scores), c) =>
          (Jsonify [("status", PStr "success");
                    ("response_id", PInt response_id)] 200,
           Session.mk (Session.user_id sess)
                      (Session.questionnaire_responses sess)
                      (Some scores) (Session.flashes sess),
           committed c)
      | (inl (ValueError msg), c) =>
          (Jsonify [("status", PStr "error"); ("message", PStr msg)] 500,
           sess, committed c)
      | (inl _, c) =>
          (Jsonify [("status", PStr "error");
                    ("message", PStr "Internal server error")] 500,
           sess, committed c)
      end
  end.

(* ================================================================== *)
(** * [questionnaire] and [questionnaire_next] *)
(* ================================================================== *)

Definition questions (step : Z) : option question :=
  if Z.eqb step 1 then
    Some (mkQuestion
            "How much do you enjoy analytical thinking and problem-solving?"
            "analytical" 25)
  else if Z.eqb step 2 then
    Some (mkQuestion
            "How much do you enjoy creative and artistic activities?"
            "creative" 50)
  else if Z.eqb step 3 then
    Some (mkQuestion
            "How much do you enjoy working with and helping others?"
            "social" 75)
  else if Z.eqb step 4 then
    Some (mkQuestion
            "How comfortable are you with technical and hands-on work?"
            "technical" 100)
  else None.

(** [request.args.get('step', 1, type=int)] is [None] when the query has
    no usable [step]. *)
Definition questionnaire (sess : Session.t) (step_arg : option Z)
  : response * Session.t :=
  match Session.user_id sess with
  | None => login_redirect sess
  | Some _ =>
      let step := match step_arg with Some n => n | None => 1%Z end in
      match questions step with
      | None => (Redirect (UrlQuestionnaire None), sess)
      | Some q => (RenderQuestionnaire q step 4, sess)
      end
  end.

Definition user_id_truthy (sess : Session.t) : bool :=
  match Session.user_id sess with
  | Some uid => negb (Z.eqb uid 0)
  | None => false
  end.

(** [session.get('questionnaire_responses')] as a truth value. *)
Definition responses_truthy (sess : Session.t) : bool :=
  match Session.questionnaire_responses sess with
  | Some (_ :: _) => true
  | _ => false
  end.

(** [session['questionnaire_responses'][field] = value]. *)
Definition store_response (field : string) (value : pyval) (sess : Session.t)
  : Session.t :=
  let acc := match Session.questionnaire_responses sess with
             | Some d => d
             | None => []
             end in
  Session.mk (Session.user_id sess) (Some (dset field value acc))
             (Session.scores sess) (Session.flashes sess).

Definition questionnaire_next (sess : Session.t) (data : pyval)
  : response * Session.t :=
  match Session.user_id sess with
  | None => login_redirect sess
  | Some _ =>
      if negb (user_id_truthy sess) then (JsonifyRedirect UrlLogin, sess)
      else
        match py_get data "step" PNone with
        | inl _ => (ServerError, sess)
        | inr step =>
            let sess :=
              if negb (responses_truthy sess)
              then Session.mk (Session.user_id sess) (Some [])
                              (Session.scores sess) (Session.flashes sess)
              else sess in
            let answer f :=
              match py_get data f PNone with
              | inr v => v
              | inl _ => PNone
              end in
            if py_eq_int step 1 then
              (JsonifyRedirect (UrlQuestionnaire (Some 2%Z)),
               store_response "analytical" (answer "analytical") sess)
            else if py_eq_int step 2 then
              (JsonifyRedirect (UrlQuestionnaire (Some 3%Z)),
               store_response "creative" (answer "creative") sess)
            else if py_eq_int step 3 then
              (JsonifyRedirect (UrlQuestionnaire (Some 4%Z)),
               store_response "social" (answer "social") sess)
            else if py_eq_int step 4 then
              (JsonifyRedirect UrlRecommendations,
               store_response "technical" (answer "technical") sess)
            else (ServerError, sess)
        end
  end.

(** [questionnaire_next] above gives the session object as the view leaves
    it.  What the next request reads is the cookie, and Flask writes the
    cookie at the end of a request only when a key of the session object
    itself was assigned ([session.modified]; the session is not permanent).
    [flash] and [session['questionnaire_responses'] = {}] assign a key;
    [session['questionnaire_responses'][field] = value] reads the key and
    changes the dictionary it holds, which the session does not notice. *)
Definition questionnaire_next_modified (sess : Session.t) (data : pyval)
  : bool :=
  match Session.user_id sess with
  | None => true
  | Some _ =>
      if negb (user_id_truthy sess) then false
      else
        match py_get data "step" PNone with
        | inl _ => false
        | inr _ => negb (responses_truthy sess)
        end
  end.

(** The session of the cookie after a request that started from [before]
    and left the session object as [after]. *)
Definition saved_session (modified : bool) (before after : Session.t)
  : Session.t :=
  if modified then after else before.

(** One POST to [/questionnaire/next]: the response, and the session the
    next request starts from. *)
Definition questionnaire_next_request (sess : Session.t) (data : pyval)
  : response * Session.t :=
  let '(resp, after) := questionnaire_next sess data in
  (resp, saved_session (questionnaire_next_modified sess data) sess after).

(** The states of the flow, and how requests and redirects name them. *)
Inductive flow_state : Type := Step1 | Step2 | Step3 | Step4 | Complete.

Definition step_number (st : flow_state) : option Z :=
  match st with
  | Step1 => Some 1 | Step2 => Some 2 | Step3 => Some 3 | Step4 => Some 4
  | Complete => None
  end%Z.

Definition state_of_url (u : url) : option flow_state :=
  match u with
  | UrlQuestionnaire None => Some Step1
  | UrlQuestionnaire (Some n) =>
      if Z.eqb n 1 then Some Step1
      else if Z.eqb n 2 then Some Step2
      else if Z.eqb n 3 then Some Step3
      else if Z.eqb n 4 then Some Step4
      else Some Step1
  | UrlRecommendations => Some Complete
  | _ => None
  end.

Definition successor (st : flow_state) : option flow_state :=
  match st with
  | Step1 => Some Step2
  | Step2 => Some Step3
  | Step3 => Some Step4
  | Step4 => Some Complete
  | Complete => None
  end.

Definition rank (st : flow_state) : nat :=
  match st with
  | Step1 => 1 | Step2 => 2 | Step3 => 3 | Step4 => 4 | Complete => 5
  end%nat.

Definition field_of (st : flow_state) : option string :=
  match st with
  | Step1 => Some "analytical"
  | Step2 => Some "creative"
  | Step3 => Some "social"
  | Step4 => Some "technical"
  | Complete => None
  end.

(** One transition of the flow: the state the response to an answer for
    [st] sends the client to, with the session as the handler leaves it. *)
Definition flow_step (sess : Session.t) (data : pyval)
  : option flow_state * Session.t :=
  match questionnaire_next sess data with
  | (JsonifyRedirect u, sess') => (state_of_url u, sess')
  | (_, sess') => (None, sess')
  end.

(* ================================================================== *)
(** * [recommendations] *)
(* ================================================================== *)

(** [round(x)] of a float: to the nearest integer, a tie to the even one. *)
Definition py_round (x : Q) : Z :=
  let f := Qfloor x in
  let r := x - inject_Z f in
  if Qlt_bool r (1 # 2) then f
  else if Qlt_bool (1 # 2) r then (f + 1)%Z
  else if Z.even f then f else (f + 1)%Z.

(** [s.split(',')]. *)
Fixpoint split_comma (s : string) : list string :=
  match s with
  | EmptyString => [""]
  | String c s' =>
      if Ascii.eqb c ","%char then "" :: split_comma s'
      else match split_comma s' with
           | [] => [String c ""]
           | w :: ws => String c w :: ws
           end
  end.

(** The percentage of a major before rounding, from the four session
    scores as numbers. *)
Definition match_percentage_of (a c s t : Q) (major : Major.t) : Q :=
  let analytical_match :=
    100 - Qabs (a - Major.analytical_weight major * 10) in
  let creative_match :=
    100 - Qabs (c - Major.creative_weight major * 10) in
  let social_match :=
    100 - Qabs (s - Major.social_weight major * 10) in
  let technical_match :=
    100 - Qabs (t - Major.technical_weight major * 10) in
  (analytical_match + creative_match + social_match + technical_match) / 4.

(** The dictionary appended to [majors] for one catalogue entry. *)
Definition rendered_entry (a c s t : Q) (major : Major.t) : Rendered.t :=
  let match_percentage := match_percentage_of a c s t major in
  Rendered.mk (Major.name major) (Major.description major)
              (split_comma (Major.careers major))
              (split_comma (Major.skills major))
              (py_round match_percentage)
              (Major.analytical_weight major,
               Major.creative_weight major,
               Major.social_weight major,
               Major.technical_weight major).

Section Recommendations.

(** The finite value [float(s)] parses from a string, [None] when there
    is none. *)
Variable float_of_str : string -> option Q.

(** [float(v)]. *)
Definition py_float (v : pyval) : result Q :=
  match v with
  | PBool _ | PInt _ | PFloat _ => as_number v
  | PStr s => match float_of_str s with
              | Some q => ok q
              | None => raise (ValueError "could not convert string to float")
              end
  | _ => raise TypeError
  end.

(** [float(user_scores[key])]. *)
Definition user_score (user_scores : dict pyval) (key : string) : result Q :=
  v <- py_getitem (PDict user_scores) key ;; py_float v.

(** The body of the loop over the catalogue. *)
Definition render_major (user_scores : dict pyval) (major : Major.t)
  : result Rendered.t :=
  a <- user_score user_scores "analytical" ;;
  c <- user_score user_scores "creative" ;;
  s <- user_score user_scores "social" ;;
  t <- user_score user_scores "technical" ;;
  ok (rendered_entry a c s t major).

Fixpoint render_majors (user_scores : dict pyval) (majors_data : list Major.t)
  : result (list Rendered.t) :=
  match majors_data with
  | [] => ok []
  | major :: rest =>
      r <- render_major user_scores major ;;
      rs <- render_majors user_scores rest ;;
      ok (r :: rs)
  end.

Definition percentage_key (r : Rendered.t) : Q :=
  inject_Z (Rendered.match_percentage r).

Definition recommendations (d : database) (sess : Session.t)
  : response * Session.t :=
  match Session.user_id sess with
  | None => login_redirect sess
  | Some _ =>
      if negb (user_id_truthy sess) then (Redirect UrlLogin, sess)
      else if negb (responses_truthy sess)
      then (Redirect (UrlQuestionnaire None), sess)
      else
        let user_scores :=
          match Session.questionnaire_responses sess with
          | Some us => us
          | None => []
          end in
        match render_majors user_scores (majors d) with
        | inl _ => (ServerError, sess)
        | inr majors =>
            let majors := sort_desc percentage_key majors in
            let top_majors := firstn 3 majors in
            (RenderRecommendations top_majors user_scores, sess)
        end
  end.

(** The session-display path as the specification words it: the majors
    are ordered by the average of the four dimension values itself. *)
Definition spec_recommendation_order (a c s t : Q) (majors_data : list Major.t)
  : list Major.t :=
  firstn 3 (sort_desc (match_percentage_of a c s t) majors_data).

End Recommendations.

(* ================================================================== *)
(** * Binary64 arithmetic *)
(* ================================================================== *)

(** Python's [float] and NumPy's [float64]: IEEE 754 binary64 with
    rounding to nearest, ties to even, computed by the operations of the
    standard specification of floating-point numbers. *)
Module B64.

Import SpecFloat.

Definition float : Type := spec_float.

Definition prec : Z := 53%Z.
Definition emax : Z := 1024%Z.

Definition nan : float := S754_nan.
Definition zero : float := S754_zero false.

(** [float(z)] for an integer: the nearest double. *)
Definition of_Z (z : Z) : float := binary_normalize prec emax z 0 false.

(** The double nearest to a rational: the value of a numeric literal, of a
    parsed JSON number and of a stored [REAL]. *)
Definition of_Q (q : Q) : float :=
  match Qnum q with
  | Z0 => zero
  | Zpos n =>
      let '(mz, ez, lz) :=
        SFdiv_core_binary prec emax (Zpos n) 0 (Zpos (Qden q)) 0 in
      binary_round_aux prec emax false mz ez lz
  | Zneg n =>
      let '(mz, ez, lz) :=
        SFdiv_core_binary prec emax (Zpos n) 0 (Zpos (Qden q)) 0 in
      binary_round_aux prec emax true mz ez lz
  end.

(** The exact value of a finite double. *)
Definition to_Q (x : float) : option Q :=
  match x with
  | S754_zero _ => Some 0
  | S754_finite s m e =>
      let n := if s then Zneg m else Zpos m in
      Some (match e with
            | Z0 => inject_Z n
            | Zpos k => inject_Z (n * Z.pow_pos 2 k)
            | Zneg k => n # Pos.pow 2 k
            end)
  | S754_infinity _ => None
  | S754_nan => None
  end.

Definition add : float -> float -> float := SFadd prec emax.
Definition sub : float -> float -> float := SFsub prec emax.
Definition mul : float -> float -> float := SFmul prec emax.
Definition div : float -> float -> float := SFdiv prec emax.
Definition abs : float -> float := SFabs.

(** [x < y], [x <= y] and [x == y]; each is false when an operand is nan. *)
Definition ltb : float -> float -> bool := SFltb.
Definition leb : float -> float -> bool := SFleb.
Definition eqb : float -> float -> bool := SFeqb.

Definition is_nan (x : float) : bool :=
  match x with
  | S754_nan => true
  | _ => false
  end.

(** The place of a double that is not nan in the order of the reals: sign
    class first, then exponent, then mantissa. *)
Definition rank (x : float) : Z * Z * Z :=
  match x with
  | S754_nan => (0, 0, 0)
  | S754_zero _ => (0, 0, 0)
  | S754_infinity true => (-2, 0, 0)
  | S754_infinity false => (2, 0, 0)
  | S754_finite true m e => (-1, - e, Zneg m)
  | S754_finite false m e => (1, e, Zpos m)
  end%Z.

Definition lex_compare (a b : Z * Z * Z) : comparison :=
  match a, b with
  | (a1, a2, a3), (b1, b2, b3) =>
      match Z.compare a1 b1 with
      | Eq => match Z.compare a2 b2 with
              | Eq => Z.compare a3 b3
              | c => c
              end
      | c => c
      end
  end.

End B64.

(** [round(x)] of a float: nan and the infinities cannot be rounded. *)
Definition py_round64 (x : B64.float) : result Z :=
  match B64.to_Q x with
  | Some q => ok (py_round q)
  | None =>
      if B64.is_nan x
      then raise (ValueError "cannot convert float NaN to integer")
      else raise OverflowError
  end.

(** [list.sort(key=..., reverse=True)] for float keys that are numbers.
    The sort compares keys with [<] only: an element is moved behind the
    following elements it is less than, and stays before the first one it
    is not less than.  With a nan among the keys [<] is no order, and the
    list that the sort then leaves depends on the comparisons it happens
    to make; the properties of the ranked list are stated for keys that
    are numbers. *)
Fixpoint insert_desc64 {A : Type} (key : A -> B64.float) (x : A) (l : list A)
  : list A :=
  match l with
  | [] => [x]
  | y :: l' =>
      if B64.ltb (key x) (key y) then y :: insert_desc64 key x l'
      else x :: y :: l'
  end.

Definition sort_desc64 {A : Type} (key : A -> B64.float) (l : list A)
  : list A :=
  fold_right (insert_desc64 key) [] l.

(** The range test of validation on a double: [score < 0 or score > 10]. *)
Definition out_of_range64 (score : B64.float) : bool :=
  B64.ltb score (B64.of_Z 0) || B64.ltb (B64.of_Z 10) score.

(* ================================================================== *)
(** * [get_personality_type] in binary64 *)
(* ================================================================== *)

Record dimension_scores64 : Type := mkDims64 {
  ei64 : B64.float;
  sn64 : B64.float;
  tf64 : B64.float;
  jp64 : B64.float
}.

Record personality64 : Type := mkPersonality64 {
  code64 : string;
  scores64 : dimension_scores64
}.

(** The scores are numbers of magnitude below 2^53, where the sum of two
    [int]s and the sum of their doubles agree. *)
Definition get_personality_type64 (s : RawScores)
  : personality64 * dimension_scores64 :=
  let ei_score := B64.div (B64.of_Q (social_score s)) (B64.of_Z 10) in
  let sn_score := B64.div (B64.of_Q (creative_score s)) (B64.of_Z 10) in
  let tf_score :=
    B64.div (B64.add (B64.of_Q (analytical_score s))
                     (B64.of_Q (technical_score s)))
            (B64.of_Z 20) in
  let jp_score :=
    B64.div (B64.add (B64.of_Q (technical_score s))
                     (B64.of_Q (creative_score s)))
            (B64.of_Z 20) in
  let half := B64.of_Q (1 # 2) in
  let type_code := "" in
  let type_code := type_code ++ (if B64.leb half ei_score then "E" else "I") in
  let type_code := type_code ++ (if B64.leb half sn_score then "N" else "S") in
  let type_code := type_code ++ (if B64.leb half tf_score then "T" else "F") in
  let type_code := type_code ++ (if B64.leb half jp_score then "P" else "J") in
  let dims := mkDims64 ei_score sn_score tf_score jp_score in
  (mkPersonality64 type_code dims, dims).

(* ================================================================== *)
(** * [calculate_major_matches] in binary64 *)
(* ================================================================== *)

(** The scaler on the one-row matrix, as NumPy computes it: the minimum and
    the maximum of each feature are the value itself, the range [x - x] is
    replaced by 1 when it is zero, [scale_] is [(1 - 0) / range], [min_] is
    [0 - x * scale_], and the result is [x * scale_ + min_]. *)
Definition scale_feature64 (x : B64.float) : B64.float :=
  let data_min := x in
  let data_max := x in
  let data_range := B64.sub data_max data_min in
  let data_range :=
    if B64.eqb data_range B64.zero then B64.of_Z 1 else data_range in
  let scale_ := B64.div (B64.sub (B64.of_Z 1) (B64.of_Z 0)) data_range in
  let min_ := B64.sub (B64.of_Z 0) (B64.mul data_min scale_) in
  B64.add (B64.mul x scale_) min_.

Definition normalized_scores64 (s : RawScores) : list B64.float :=
  map (fun x => scale_feature64 (B64.of_Q x))
      [analytical_score s; creative_score s; social_score s; technical_score s].

Definition at_index64 (v : list B64.float) (i : nat) : B64.float :=
  nth i v B64.nan.

Module Match64.
Record t : Type := mk {
  major_id : Z;
  name : string;
  description : string;
  career_opportunities : string;
  required_skills : string;
  match_score : B64.float;
  analytical_match : B64.float;
  creative_match : B64.float;
  social_match : B64.float;
  technical_match : B64.float;
  personality_match : B64.float
}.
End Match64.

(** [1 - abs(x - w)]. *)
Definition dimension_match64 (x : B64.float) (w : Q) : B64.float :=
  B64.sub (B64.of_Z 1) (B64.abs (B64.sub x (B64.of_Q w))).

Definition major_match64 (d : database) (normalized : list B64.float)
           (personality_type_id : option Z) (major : Major.t) : Match64.t :=
  let analytical_match :=
    dimension_match64 (at_index64 normalized 0)
                      (Major.analytical_weight major) in
  let creative_match :=
    dimension_match64 (at_index64 normalized 1) (Major.creative_weight major) in
  let social_match :=
    dimension_match64 (at_index64 normalized 2) (Major.social_weight major) in
  let technical_match :=
    dimension_match64 (at_index64 normalized 3)
                      (Major.technical_weight major) in
  let personality_match :=
    match type_id_given personality_type_id with
    | Some tid =>
        match select_match_strength d (Major.id major) tid with
        | Some row => B64.of_Q (match_strength row)
        | None => B64.of_Q (1 # 2)
        end
    | None => B64.of_Q (1 # 2)
    end in
  let match_score :=
    B64.add
      (B64.mul
         (B64.div
            (B64.add (B64.add (B64.add analytical_match creative_match)
                              social_match)
                     technical_match)
            (B64.of_Z 4))
         (B64.of_Q (7 # 10)))
      (B64.mul personality_match (B64.of_Q (3 # 10))) in
  Match64.mk (Major.id major) (Major.name major) (Major.description major)
             (Major.career_opportunities major) (Major.required_skills major)
             match_score analytical_match creative_match social_match
             technical_match personality_match.

Definition calculate_major_matches64 (d : database) (s : RawScores)
           (personality_type_id : option Z) : list Match64.t :=
  let normalized := normalized_scores64 s in
  let matches :=
    map (major_match64 d normalized personality_type_id) (majors d) in
  sort_desc64 Match64.match_score matches.

(* ================================================================== *)
(** * [recommendations] in binary64 *)
(* ================================================================== *)

(** [100 - abs(u - w * 10)]. *)
Definition dimension_percentage64 (u : B64.float) (w : Q) : B64.float :=
  B64.sub (B64.of_Z 100)
          (B64.abs (B64.sub u (B64.mul (B64.of_Q w) (B64.of_Z 10)))).

(** [match_percentage] before [round]. *)
Definition match_percentage64 (a c s t : B64.float) (major : Major.t)
  : B64.float :=
  let analytical_match :=
    dimension_percentage64 a (Major.analytical_weight major) in
  let creative_match :=
    dimension_percentage64 c (Major.creative_weight major) in
  let social_match := dimension_percentage64 s (Major.social_weight major) in
  let technical_match :=
    dimension_percentage64 t (Major.technical_weight major) in
  B64.div
    (B64.add (B64.add (B64.add analytical_match creative_match) social_match)
             technical_match)
    (B64.of_Z 4).

(** The dictionary appended to [majors] for one catalogue entry; [round]
    raises when the average is nan or infinite. *)
Definition rendered_entry64 (a c s t : B64.float) (major : Major.t)
  : result Rendered.t :=
  percentage <- py_round64 (match_percentage64 a c s t major) ;;
  ok (Rendered.mk (Major.name major) (Major.description major)
                  (split_comma (Major.careers major))
                  (split_comma (Major.skills major))
                  percentage
                  (Major.analytical_weight major,
                   Major.creative_weight major,
                   Major.social_weight major,
                   Major.technical_weight major)).

Section Recommendations64.

(** The double [float(s)] parses from a string, [None] when it raises. *)
Variable float_of_str64 : string -> option B64.float.

(** [float(v)]. *)
Definition py_float64 (v : pyval) : result B64.float :=
  match v with
  | PBool b => ok (B64.of_Z (if b then 1 else 0))
  | PInt z => ok (B64.of_Z z)
  | PFloat q => ok (B64.of_Q q)
  | PStr s => match float_of_str64 s with
              | Some x => ok x
              | None => raise (ValueError "could not convert string to float")
              end
  | _ => raise TypeError
  end.

Definition user_score64 (user_scores : dict pyval) (key : string)
  : result B64.float :=
  v <- py_getitem (PDict user_scores) key ;; py_float64 v.

Definition render_major64 (user_scores : dict pyval) (major : Major.t)
  : result Rendered.t :=
  a <- user_score64 user_scores "analytical" ;;
  c <- user_score64 user_scores "creative" ;;
  s <- user_score64 user_scores "social" ;;
  t <- user_score64 user_scores "technical" ;;
  rendered_entry64 a c s t major.

Fixpoint render_majors64 (user_scores : dict pyval)
         (majors_data : list Major.t) : result (list Rendered.t) :=
  match majors_data with
  | [] => ok []
  | major :: rest =>
      r <- render_major64 user_scores major ;;
      rs <- render_majors64 user_scores rest ;;
      ok (r :: rs)
  end.

Definition recommendations64 (d : database) (sess : Session.t)
  : response * Session.t :=
  match Session.user_id sess with
  | None => login_redirect sess
  | Some _ =>
      if negb (user_id_truthy sess) then (Redirect UrlLogin, sess)
      else if negb (responses_truthy sess)
      then (Redirect (UrlQuestionnaire None), sess)
      else
        let user_scores :=
          match Session.questionnaire_responses sess with
          | Some us => us
          | None => []
          end in
        match render_majors64 user_scores (majors d) with
        | inl _ => (ServerError, sess)
        | inr majors =>
            let majors := sort_desc percentage_key majors in
            let top_majors := firstn 3 majors in
            (RenderRecommendations top_majors user_scores, sess)
        end
  end.

End Recommendations64.

(** The session-display path as the specification words it: the majors
    ordered by the average of the four dimension values itself. *)
Definition spec_recommendation_order64 (a c s t : B64.float)
           (majors_data : list Major.t) : list Major.t :=
  firstn 3 (sort_desc64 (match_percentage64 a c s t) majors_data).

(* ================================================================== *)
(** * Accounts: [login], [signup] and [logout] *)
(* ================================================================== *)

(** The [users] table is a table of the same database file.  No other
    handler reads or writes it, and the handlers below take it and return
    it beside the session. *)
Module User.
Record t : Type := mk {
  id : Z;
  first_name : string;
  last_name : string;
  email : string;
  password : string
}.
End User.

Inductive http_method : Type := GET | POST.

(** [BadRequest] is what [request.form[key]] answers for an absent key;
    [AccountError] an exception that reaches the framework. *)
Inductive auth_response : Type :=
| AuthRedirect (target : url)
| RenderLogin (error : option string)
| RenderSignup (error : option string)
| BadRequest
| AccountError.

(** The session after [session.clear()]. *)
Definition session_clear : Session.t := Session.mk None None None [].

(** [session['user_id'] = uid]. *)
Definition set_user_id (uid : Z) (sess : Session.t) : Session.t :=
  Session.mk (Some uid) (Session.questionnaire_responses sess)
             (Session.scores sess) (Session.flashes sess).

Definition select_user_by_email (users : list User.t) (email : string)
  : option User.t :=
  find (fun u => String.eqb (User.email u) email) users.

Section Accounts.

(** The password functions of [werkzeug.security] and [str.strip].  The
    queries on the [users] table always answer: the branch of [login] that
    catches a database exception is not modelled. *)
Variable generate_password_hash : string -> string.
Variable check_password_hash : string -> string -> bool.
Variable strip : string -> string.

Definition login (users : list User.t) (sess : Session.t)
           (method : http_method) (form : dict string)
  : auth_response * Session.t :=
  match Session.user_id sess with
  | Some _ => (AuthRedirect (UrlQuestionnaire None), sess)
  | None =>
      match method with
      | GET => (RenderLogin None, sess)
      | POST =>
          match dget "email" form with
          | None => (BadRequest, sess)
          | Some raw_email =>
              let email := strip raw_email in
              match dget "password" form with
              | None => (BadRequest, sess)
              | Some password =>
                  let failed error :=
                    (RenderLogin (Some error), flash error "error" sess) in
                  match select_user_by_email users email with
                  | Some user =>
                      if check_password_hash (User.password user) password
                      then
                        (AuthRedirect (UrlQuestionnaire None),
                         flash "Successfully logged in!" "success"
                               (set_user_id (User.id user) session_clear))
                      else failed "Incorrect password."
                  | None => failed "Invalid email address."
                  end
              end
          end
      end
  end.

(** The chain of [if]/[elif] tests of [signup]. *)
Definition signup_error (users : list User.t)
           (first_name last_name email password confirm_password : string)
  : option string :=
  if String.eqb first_name "" then Some "First name is required."
  else if String.eqb last_name "" then Some "Last name is required."
  else if String.eqb email "" then Some "Email is required."
  else if String.eqb password "" then Some "Password is required."
  else if negb (String.eqb password confirm_password)
  then Some "Passwords do not match."
  else match select_user_by_email users email with
       | Some _ => Some ("Email " ++ email ++ " is already registered.")
       | None => None
       end.

Definition signup (users : list User.t) (sess : Session.t)
           (method : http_method) (form : dict string)
  : auth_response * Session.t * list User.t :=
  match method with
  | GET => (RenderSignup None, sess, users)
  | POST =>
      match dget "first_name" form, dget "last_name" form,
            dget "email" form, dget "password" form,
            dget "confirm_password" form with
      | Some first_name, Some last_name, Some email, Some password,
        Some confirm_password =>
          match signup_error users first_name last_name email password
                             confirm_password with
          | None =>
              let new_id := next_rowid (map User.id users) in
              let users' :=
                (users ++ [User.mk new_id first_name last_name email
                                   (generate_password_hash password)])%list in
              match select_user_by_email users' email with
              | Some user =>
                  (AuthRedirect UrlIndex,
                   flash "Account created successfully! Welcome to RecruitmentBuddy!"
                         "success"
                         (set_user_id (User.id user) session_clear),
                   users')
              | None => (AccountError, sess, users')
              end
          | Some error =>
              (RenderSignup (Some error), flash error "error" sess, users)
          end
      | _, _, _, _, _ => (BadRequest, sess, users)
      end
  end.

End Accounts.

Definition logout (sess : Session.t) : auth_response * Session.t :=
  (AuthRedirect UrlIndex, session_clear).

(* ================================================================== *)
(** * Auxiliary predicates and sample data *)
(* ================================================================== *)

(** [x] may stand before [y] in a list sorted by descending key. *)
Definition desc {A : Type} (key : A -> Q) (x y : A) : Prop := key y <= key x.

Definition sample_major : Major.t :=
  Major.mk 1 "Computer Science" "Computing" "Engineer,Analyst" "Logic,Math"
           "Engineer,Analyst" "Logic,Math" (9 # 10) (3 # 10) (2 # 10) (8 # 10).

Definition zero_major : Major.t :=
  Major.mk 2 "Undeclared" "No profile" "" "" "" "" 0 0 0 0.

Definition sample_db : database :=
  mkDb [mkPType 1 "ESTJ" "Type ESTJ" "Personality type description"]
       [sample_major; zero_major]
       [mkAffinity 1 1 (4 # 5)] [] [].

Definition rows_with_code (type_code : string) (d : database)
  : list personality_type_row :=
  filter (fun r => String.eqb (pt_code r) type_code) (personality_types d).

(** A submission that lacks the scores or one of the four score fields, or
    carries a number outside [0,10] in one of them. *)
Definition missing_or_out_of_range (data : pyval) : Prop :=
  exists d,
    data = PDict d /\
    (dget "scores" d = None \/
     exists sc,
       dget "scores" d = Some (PDict sc) /\
       ((exists f, In f required_fields /\ dget f sc = None) \/
        (exists f v q, In f required_fields /\ dget f sc = Some v /\
                       num_value v = Some q /\ (q < 0 \/ 10 < q)))).

(** The messages of the three [ValueError]s of validation. *)
Definition validation_message (msg : string) : Prop :=
  msg = "Missing 'scores' field in questionnaire data" \/
  msg = "Missing required fields in scores data" \/
  exists f, In f required_fields /\ msg = invalid_score_msg f.

Definition logged_in : Session.t := Session.mk (Some 7%Z) None None [].

Definition scores_dict (a c s t : pyval) : pyval :=
  PDict [("analytical_score", a); ("creative_score", c);
         ("social_score", s); ("technical_score", t)].

Definition submission (a c s t : pyval) : pyval :=
  PDict [("scores", scores_dict a c s t)].

Definition technical_eleven : pyval :=
  submission (PInt 5) (PInt 5) (PInt 5) (PInt 11).

Definition tie_db : database :=
  mkDb []
       [Major.mk 1 "M1" "" "" "" "" "" (1 # 2) (1 # 2) (1 # 2) (34 # 100);
        Major.mk 2 "M2" "" "" "" "" "" (1 # 2) (1 # 2) (1 # 2) (38 # 100);
        Major.mk 3 "M3" "" "" "" "" "" (1 # 2) (1 # 2) (1 # 2) (42 # 100);
        Major.mk 4 "M4" "" "" "" "" "" (1 # 2) (1 # 2) (1 # 2) (1 # 2)]
       [] [] [].

Definition all_fives : Session.t :=
  Session.mk (Some 7%Z)
             (Some [("analytical", PInt 5); ("creative", PInt 5);
                    ("social", PInt 5); ("technical", PInt 5)])
             None [].

Definition no_str_float (_ : string) : option Q := None.

Definition rendered_names (r : response) : list string :=
  match r with
  | RenderRecommendations top _ => map Rendered.name top
  | _ => []
  end.

Definition accumulator (sess : Session.t) : dict pyval :=
  match Session.questionnaire_responses sess with
  | Some d => d
  | None => []
  end.

(** A submission that validation accepts: a dictionary whose [scores] is a
    dictionary holding a number within [0,10] under each of the four
    fields. *)
Definition valid_submission (data : pyval) : Prop :=
  exists d sc,
    data = PDict d /\ dget "scores" d = Some (PDict sc) /\
    forall f, In f required_fields ->
              exists v q, dget f sc = Some v /\ num_value v = Some q /\
                          in_range q.

(** The row [submit_questionnaire] inserts for one match. *)
Definition recommendation_row (response_id : Z) (m : Match.t)
  : major_recommendation :=
  mkRecommendation response_id (Match.major_id m) (Match.match_score m)
                   (Match.analytical_match m) (Match.creative_match m)
                   (Match.social_match m) (Match.technical_match m)
                   (Match.personality_match m).

(** The number stored under a field of a scores dictionary. *)
Definition score_at (sc : dict pyval) (f : string) : option Q :=
  match dget f sc with
  | Some v => num_value v
  | None => None
  end.

Definition valid_sample : pyval :=
  submission (PInt 8) (PInt 3) (PInt 9) (PInt 6).

(** [l] continues [l0]: the rows of [l0], then further rows. *)
Definition extends {X : Type} (l l0 : list X) : Prop :=
  exists more, l = (l0 ++ more)%list.

(** The sixteen type codes. *)
Definition all_codes : list string :=
  ["ENTP"; "ENTJ"; "ENFP"; "ENFJ"; "ESTP"; "ESTJ"; "ESFP"; "ESFJ";
   "INTP"; "INTJ"; "INFP"; "INFJ"; "ISTP"; "ISTJ"; "ISFP"; "ISFJ"].

Definition unit_interval (q : Q) : Prop := 0 <= q /\ q <= 1.

(** The catalogue weights and the affinity strengths all lie in [0,1]. *)
Definition weights_in_unit (major : Major.t) : Prop :=
  unit_interval (Major.analytical_weight major) /\
  unit_interval (Major.creative_weight major) /\
  unit_interval (Major.social_weight major) /\
  unit_interval (Major.technical_weight major).

Definition reference_data_in_unit (d : database) : Prop :=
  Forall weights_in_unit (majors d) /\
  Forall (fun r => unit_interval (match_strength r))
         (major_personality_matches d).



(** The four keys of the session accumulator. *)
Definition answer_fields : list string :=
  ["analytical"; "creative"; "social"; "technical"].

(** A POST body whose [step] the handler does not recognise. *)
Definition step_unrecognised (step : pyval) : Prop :=
  py_eq_int step 1 = false /\ py_eq_int step 2 = false /\
  py_eq_int step 3 = false /\ py_eq_int step 4 = false.

(** The number of commas of a string. *)
Fixpoint count_commas (s : string) : nat :=
  match s with
  | EmptyString => 0%nat
  | String c s' =>
      if Ascii.eqb c ","%char then S (count_commas s') else count_commas s'
  end.


Definition one_answer : Session.t :=
  Session.mk (Some 7%Z) (Some [("analytical", PInt 5)]) None [].

(** Sample instances of the password functions and of [str.strip] (here
    for the space character only), and sample accounts and forms. *)
Definition sample_hash (password : string) : string := "hash:" ++ password.

Definition sample_check (pwhash password : string) : bool :=
  String.eqb pwhash (sample_hash password).

Fixpoint lstrip_spaces (s : string) : string :=
  match s with
  | String c s' => if Ascii.eqb c " "%char then lstrip_spaces s' else s
  | EmptyString => EmptyString
  end.

Fixpoint rstrip_spaces (s : string) : string :=
  match s with
  | String c s' =>
      match rstrip_spaces s' with
      | EmptyString => if Ascii.eqb c " "%char then EmptyString
                       else String c EmptyString
      | r => String c r
      end
  | EmptyString => EmptyString
  end.

Definition strip_spaces (s : string) : string :=
  rstrip_spaces (lstrip_spaces s).

Definition sample_users : list User.t :=
  [User.mk 1 "Ada" "Lovelace" "ada@example.org" (sample_hash "engine")].

Definition signup_form (first_name last_name email password confirm : string)
  : dict string :=
  [("first_name", first_name); ("last_name", last_name); ("email", email);
   ("password", password); ("confirm_password", confirm)].

Definition login_form (email password : string) : dict string :=
  [("email", email); ("password", password)].

(** The conditions under which [signup] creates an account. *)
Definition signup_acceptable (users : list User.t)
           (first_name last_name email password confirm_password : string)
  : Prop :=
  first_name <> "" /\ last_name <> "" /\ email <> "" /\ password <> "" /\
  password = confirm_password /\ ~ In email (map User.email users).

(** The account row, the session and the table a successful [signup]
    leaves. *)
Definition new_account (hash : string -> string) (users : list User.t)
           (first_name last_name email password : string) : User.t :=
  User.mk (next_rowid (map User.id users)) first_name last_name email
          (hash password).

Definition fresh_session (uid : Z) (message : string) : Session.t :=
  Session.mk (Some uid) None None [("success", message)].

(** A field of a scores dictionary holds a value validation lets through. *)
Definition field_accepted (sc : dict pyval) (f : string) : Prop :=
  exists v, dget f sc = Some v /\ score_rejected v = false.

Definition two_bad_scores : pyval :=
  submission (PInt 11) (PInt 5) (PStr "7") (PInt 12).

(** A body that validation refuses: not an object, without [scores], with
    a [scores] that is not an object, or with one of the four fields
    absent, not a number, or a number below 0 or above 10. *)
Definition rejected_body (data : pyval) : Prop :=
  (forall d, data <> PDict d) \/
  exists d,
    data = PDict d /\
    (dget "scores" d = None \/
     exists scv,
       dget "scores" d = Some scv /\
       ((forall sc, scv <> PDict sc) \/
        exists sc,
          scv = PDict sc /\
          exists f,
            In f required_fields /\
            (dget f sc = None \/
             exists v,
               dget f sc = Some v /\
               (is_int_or_float v = false \/
                exists q, num_value v = Some q /\ (q < 0 \/ 10 < q))))).

(** The order of triples that [B64.lex_compare] decides. *)
Definition lex_lt (a b : Z * Z * Z) : Prop :=
  match a, b with
  | (a1, a2, a3), (b1, b2, b3) =>
      (a1 < b1 \/ (a1 = b1 /\ (a2 < b2 \/ (a2 = b2 /\ a3 < b3))))%Z
  end.

(** [x] may stand before [y] in a list sorted by descending float key, and
    the key of [x] is a number. *)
Definition desc64 {A : Type} (key : A -> B64.float) (x y : A) : Prop :=
  B64.leb (key y) (key x) = true.

Definition has_number {A : Type} (key : A -> B64.float) (x : A) : Prop :=
  B64.is_nan (key x) = false.

(** The integers from 0 to 10. *)
Definition small_ints : list Z := [0; 1; 2; 3; 4; 5; 6; 7; 8; 9; 10]%Z.

Definition integer_scores (a c s t : Z) : RawScores :=
  mkScores (inject_Z a) (inject_Z c) (inject_Z s) (inject_Z t).

(** Two majors whose scores are both 0.78 in exact arithmetic, and a major
    whose weights are the scores (10, 0, 5, 10) divided by 10. *)
Definition near_tie_db : database :=
  mkDb []
       [Major.mk 1 "First" "" "" "" "" "" 0 (1 # 10) (1 # 10) (2 # 10);
        Major.mk 2 "Second" "" "" "" "" "" (1 # 10) (1 # 10) (2 # 10) 0]
       [] [] [].

Definition scaled_major : Major.t :=
  Major.mk 1 "Scaled" "" "" "" "" "" 1 0 (1 # 2) 1.

Definition scaled_db : database := mkDb [] [scaled_major] [] [] [].

(** Two majors whose average is close to a half-way value, and the parser
    of a session that holds no string answers. *)
Definition half_way_major : Major.t :=
  Major.mk 1 "Half" "" "" "" "" "" (48 # 100) (1 # 2) (61 # 100) (97 # 100).

Definition near_half_major : Major.t :=
  Major.mk 2 "Near" "" "" "" "" "" (89 # 100) (99 # 100) (86 # 100) (94 # 100).

Definition no_str_float64 (_ : string) : option B64.float := None.

(** The average of a major is a finite double. *)
Definition finite_average (a c s t : B64.float) (major : Major.t) : Prop :=
  B64.to_Q (match_percentage64 a c s t major) <> None.

(** The four answers of one run of the questionnaire, and the session after
    a sequence of POSTs: as the next request reads it, and as it would be
    if every request handed its session object on. *)
Definition step_body (n : Z) (field : string) (value : pyval) : pyval :=
  PDict [("step", PInt n); (field, value)].

Definition four_answers : list pyval :=
  [step_body 1 "analytical" (PInt 7); step_body 2 "creative" (PInt 5);
   step_body 3 "social" (PInt 6); step_body 4 "technical" (PInt 8)].

Definition after_requests (sess : Session.t) (bodies : list pyval)
  : Session.t :=
  fold_left (fun s body => snd (questionnaire_next_request s body)) bodies sess.

Definition after_views (sess : Session.t) (bodies : list pyval) : Session.t :=
  fold_left (fun s body => snd (questionnaire_next s body)) bodies sess.

(** A double that is zero or finite and of magnitude below [2 ^ k]. *)
Definition below_pow (k : Z) (x : B64.float) : Prop :=
  (-1074 <= k <= 970)%Z /\
  match x with
  | SpecFloat.S754_zero _ => True
  | SpecFloat.S754_finite _ m e => (SpecFloat.Zdigits2 (Zpos m) + e <= k)%Z
  | _ => False
  end.

(** An answer of the session that is a number within [0,10]. *)
Definition answer_in_range (v : pyval) : Prop :=
  exists q, num_value v = Some q /\ in_range q.

(* ================================================================== *)
(** * Properties *)
(* ================================================================== *)

(** ** Dictionaries *)

Lemma dget_dset_same {V : Type} (k : string) (v : V) (d : dict V) :
  dget k (dset k v d) = Some v.
Proof.
  induction d as [| [k' v'] d IH]; simpl.
  - now rewrite String.eqb_refl.
  - destruct (String.eqb k k') eqn:E; simpl.
    + now rewrite String.eqb_refl.
    + now rewrite E.
Qed.

Lemma dget_dset_other {V : Type} (k k0 : string) (v : V) (d : dict V) :
  k0 <> k -> dget k0 (dset k v d) = dget k0 d.
Proof.
  intros Hne. induction d as [| [k' v'] d IH]; simpl.
  - apply String.eqb_neq in Hne. now rewrite Hne.
  - destruct (String.eqb k k') eqn:E; simpl.
    + apply String.eqb_eq in E. subst k'.
      apply String.eqb_neq in Hne. now rewrite Hne.
    + now rewrite IH.
Qed.

(** ** The score normalizer *)

Example spec_normalize_example :
  Forall2 Qeq (spec_normalize (mkScores 8 3 9 6)) [5 # 6; 0; 1; 1 # 2].
Proof. vm_compute. repeat constructor. Qed.

(** Fitted on several samples the scaler does rescale each feature. *)
Example scaler_on_four_samples :
  Forall2 (Forall2 Qeq)
          (MinMaxScaler.fit_transform [[8]; [3]; [9]; [6]])
          [[5 # 6]; [0]; [1]; [1 # 2]].
Proof. vm_compute. repeat constructor. Qed.

Lemma Qeq_bool_minus_self (x : Q) : Qeq_bool (x - x) 0 = true.
Proof. apply Qeq_bool_iff. ring. Qed.

Lemma normalized_scores_unfold (s : RawScores) :
  normalized_scores s =
  map (fun x => x * ((1 - 0) / 1) + (0 - x * ((1 - 0) / 1)))
      [analytical_score s; creative_score s; social_score s; technical_score s].
Proof.
  destruct s as [a c so t].
  unfold normalized_scores, score_values, MinMaxScaler.fit_transform,
    MinMaxScaler.transform, MinMaxScaler.min_, MinMaxScaler.scale_,
    MinMaxScaler.handle_zeros_in_scale, MinMaxScaler.data_range,
    MinMaxScaler.data_min, MinMaxScaler.data_max, MinMaxScaler.col_fold,
    MinMaxScaler.feature_range.
  cbn [analytical_score creative_score social_score technical_score
       fold_left MinMaxScaler.zip_with map nth fst snd].
  rewrite !Qeq_bool_minus_self. reflexivity.
Qed.

(** Fitted on a single sample, the scaler sees a zero range in every
    feature: whatever the four scores are, each normalized value is 0. *)
Lemma normalized_scores_zero (s : RawScores) :
  Forall2 Qeq (normalized_scores s) [0; 0; 0; 0].
Proof.
  rewrite normalized_scores_unfold. cbn [map].
  repeat constructor; field.
Qed.


Lemma scale_denominators_nonzero (scale : MinMaxScaler.row) :
  Forall (fun r => ~ r == 0) (MinMaxScaler.handle_zeros_in_scale scale).
Proof.
  unfold MinMaxScaler.handle_zeros_in_scale.
  induction scale as [| x scale IH]; simpl; constructor; auto.
  destruct (Qeq_bool x 0) eqn:E.
  - intro H. discriminate H.
  - intro H. apply Qeq_bool_iff in H. congruence.
Qed.

(** C1, refuted as stated: on the all-equal vector (5,5,5,5) the code
    returns zeros where the claim says 1/2, and on (8,3,9,6) it returns
    zeros where min-max across the four values gives (5/6, 0, 1, 1/2). *)
Lemma normalizer_differs_from_min_max :
  scores_in_range (mkScores 5 5 5 5) /\
  ~ Forall2 Qeq (normalized_scores (mkScores 5 5 5 5))
                (spec_normalize (mkScores 5 5 5 5)) /\
  scores_in_range (mkScores 8 3 9 6) /\
  ~ Forall2 Qeq (normalized_scores (mkScores 8 3 9 6))
                (spec_normalize (mkScores 8 3 9 6)).
Proof.
  repeat split; try (simpl; unfold Qle; simpl; lia).
  - vm_compute. intro H. inversion H as [| ? ? ? ? H0 _]. discriminate H0.
  - vm_compute. intro H. inversion H as [| ? ? ? ? H0 _]. discriminate H0.
Qed.

(** C1, amended: for every score vector the normalization step divides
    by no zero, since each divisor of [scale_] is the range of its feature
    with a zero range replaced by 1, and it returns a vector of four
    values; when the four raw values are equal it returns the constant
    vector of zeros. *)
Theorem normalizer_equal_scores (s : RawScores) :
  Forall2 (fun sc r => ~ r == 0 /\ sc = (1 - 0) / r)
          (MinMaxScaler.scale_ (score_values s))
          (MinMaxScaler.handle_zeros_in_scale
             (MinMaxScaler.data_range (score_values s))) /\
  List.length (MinMaxScaler.scale_ (score_values s)) = 4%nat /\
  List.length (normalized_scores s) = 4%nat /\
  (analytical_score s == creative_score s ->
   creative_score s == social_score s ->
   social_score s == technical_score s ->
   Forall2 Qeq (normalized_scores s) [0; 0; 0; 0]).
Proof.
  split; [| split; [| split]].
  - unfold MinMaxScaler.scale_.
    pose proof (scale_denominators_nonzero
                  (MinMaxScaler.data_range (score_values s))) as H.
    induction H as [| r l Hr Hl IH]; cbn [map]; constructor; auto.
  - destruct s. reflexivity.
  - rewrite normalized_scores_unfold. reflexivity.
  - intros _ _ _. apply normalized_scores_zero.
Qed.

(** The scores (5, 5, 5, 5). *)
Lemma normalizer_equal_scores_witness :
  Forall2 Qeq (normalized_scores (mkScores 5 5 5 5)) [0; 0; 0; 0].
Proof.
  apply (normalizer_equal_scores (mkScores 5 5 5 5)); reflexivity.
Defined.

(** ** The personality classifier *)

Lemma Qle_bool_false_lt (x y : Q) : Qle_bool x y = false -> y < x.
Proof.
  intro H. apply Qnot_le_lt. intro Hle.
  apply Qle_bool_iff in Hle. congruence.
Qed.

Lemma high_letter (x : Q) (hi lo : string) (h l : ascii) :
  hi = String h "" -> lo = String l "" -> h <> l ->
  exists ch : ascii,
    (if Qle_bool (1 # 2) x then hi else lo) = String ch "" /\
    (ch = h <-> 1 # 2 <= x) /\ (ch = l <-> x < 1 # 2).
Proof.
  intros -> -> Hne.
  destruct (Qle_bool (1 # 2) x) eqn:E.
  - exists h. apply Qle_bool_iff in E. repeat split; auto.
    + intro; congruence.
    + intro Hlt. exfalso. apply (Qlt_not_le _ _ Hlt E).
  - exists l. apply Qle_bool_false_lt in E. repeat split; auto.
    + intro; congruence.
    + intro Hle. exfalso. apply (Qlt_not_le _ _ E Hle).
Qed.

(** ** The stable descending sort *)

Section SortDesc.

Context {A : Type}.
Variable key : A -> Q.

Lemma insert_desc_perm (x : A) (l : list A) :
  Permutation (insert_desc key x l) (x :: l).
Proof.
  induction l as [| y l IH]; simpl.
  - apply Permutation_refl.
  - destruct (Qle_bool (key y) (key x)).
    + apply Permutation_refl.
    + eapply perm_trans; [apply perm_skip, IH | apply perm_swap].
Qed.

Lemma sort_desc_perm (l : list A) : Permutation (sort_desc key l) l.
Proof.
  induction l as [| x l IH]; simpl.
  - apply perm_nil.
  - eapply perm_trans; [apply insert_desc_perm | apply perm_skip, IH].
Qed.

Lemma sort_desc_length (l : list A) :
  List.length (sort_desc key l) = List.length l.
Proof. apply Permutation_length, sort_desc_perm. Qed.


Lemma insert_desc_sorted (x : A) (l : list A) :
  StronglySorted (desc key) l -> StronglySorted (desc key) (insert_desc key x l).
Proof.
  induction l as [| y l IH]; intros Hs; simpl.
  - constructor; constructor.
  - inversion Hs as [| ? ? Hs' Hall]; subst.
    destruct (Qle_bool (key y) (key x)) eqn:E.
    + apply Qle_bool_iff in E.
      constructor; [assumption |].
      constructor; [exact E |].
      eapply Forall_impl; [| exact Hall].
      intros z Hz. unfold desc in *. eapply Qle_trans; eassumption.
    + apply Qle_bool_false_lt in E.
      constructor; [apply IH; assumption |].
      eapply Permutation_Forall;
        [apply Permutation_sym, insert_desc_perm |].
      constructor; [apply Qlt_le_weak; exact E | assumption].
Qed.

Lemma sort_desc_sorted (l : list A) : StronglySorted (desc key) (sort_desc key l).
Proof.
  induction l as [| x l IH]; simpl.
  - constructor.
  - apply insert_desc_sorted, IH.
Qed.

(** Stability: the elements of any one key keep their order. *)
Lemma insert_desc_filter (k : Q) (x : A) (l : list A) :
  filter (fun y => Qeq_bool (key y) k) (insert_desc key x l) =
  filter (fun y => Qeq_bool (key y) k) (x :: l).
Proof.
  induction l as [| y l IH]; [reflexivity |].
  cbn [insert_desc].
  destruct (Qle_bool (key y) (key x)) eqn:E; [reflexivity |].
  apply Qle_bool_false_lt in E.
  cbn [filter] in *. rewrite IH.
  destruct (Qeq_bool (key x) k) eqn:Ex; [| reflexivity].
  destruct (Qeq_bool (key y) k) eqn:Ey; [| reflexivity].
  apply Qeq_bool_iff in Ex, Ey. exfalso.
  rewrite Ex, Ey in E. exact (Qlt_irrefl _ E).
Qed.

Lemma sort_desc_stable (k : Q) (l : list A) :
  filter (fun y => Qeq_bool (key y) k) (sort_desc key l) =
  filter (fun y => Qeq_bool (key y) k) l.
Proof.
  induction l as [| x l IH]; [reflexivity |].
  cbn [sort_desc fold_right]. rewrite insert_desc_filter.
  cbn [filter]. fold (sort_desc key l). rewrite IH. reflexivity.
Qed.

End SortDesc.

(** ** The match engine *)





(** A type id of 0 is read as no type id at all. *)
Lemma zero_type_id_is_omitted (d : database) (normalized : list Q)
      (major : Major.t) :
  major_match d normalized (Some 0%Z) major =
  major_match d normalized None major.
Proof. reflexivity. Qed.

(** ** The type registry *)

Lemma select_type_after_insert (rows : list personality_type_row)
      (row : personality_type_row) (type_code : string) :
  find (fun r => String.eqb (pt_code r) type_code) rows = None ->
  pt_code row = type_code ->
  find (fun r => String.eqb (pt_code r) type_code) (rows ++ [row]) = Some row.
Proof.
  intros Hnone Hcode. induction rows as [| r rows IH]; simpl in *.
  - rewrite Hcode, String.eqb_refl. reflexivity.
  - destruct (String.eqb (pt_code r) type_code); [discriminate |].
    apply IH, Hnone.
Qed.

Lemma find_none_filter_nil {X : Type} (p : X -> bool) (l : list X) :
  find p l = None -> filter p l = [].
Proof.
  induction l as [| x l IH]; simpl; [reflexivity |].
  destruct (p x); [discriminate | exact IH].
Qed.

(** ** Validation and submission *)

Lemma all_fields_in_dict (sc : dict pyval) (fields : list string) :
  all_fields_in (PDict sc) fields = ok (forallb (fun f => dmem f sc) fields).
Proof.
  induction fields as [| f fs IH]; simpl; [reflexivity |].
  destruct (dmem f sc); simpl; [exact IH | reflexivity].
Qed.

Lemma check_scores_rejects (sc : dict pyval) (fields : list string) :
  forallb (fun f => dmem f sc) fields = true ->
  (exists f v, In f fields /\ dget f sc = Some v /\ score_rejected v = true) ->
  exists f, In f fields /\
            check_scores (PDict sc) fields = raise (ValueError (invalid_score_msg f)).
Proof.
  induction fields as [| f fs IH]; intros Hall (f0 & v & Hin & Hget & Hrej).
  - destruct Hin.
  - simpl in Hall. apply andb_true_iff in Hall. destruct Hall as [Hf Hfs].
    unfold dmem in Hf. simpl.
    destruct (dget f sc) as [vf |] eqn:Ef; [| discriminate]. simpl.
    destruct (score_rejected vf) eqn:Er.
    + exists f. split; [now left | reflexivity].
    + destruct Hin as [-> | Hin].
      * rewrite Ef in Hget. injection Hget as ->. congruence.
      * destruct (IH Hfs) as (f' & Hin' & Hc).
        { exists f0, v. auto. }
        exists f'. split; [now right | exact Hc].
Qed.

Lemma out_of_range_rejected (v : pyval) (q : Q) :
  num_value v = Some q -> q < 0 \/ 10 < q -> score_rejected v = true.
Proof.
  intros Hv Hq. unfold score_rejected. rewrite Hv.
  apply orb_true_iff. right.
  apply orb_true_iff. unfold Qlt_bool.
  destruct Hq as [Hq | Hq]; [left | right]; apply negb_true_iff;
    destruct (Qle_bool _ _) eqn:E; try reflexivity;
    apply Qle_bool_iff in E; exfalso; apply (Qlt_not_le _ _ Hq E).
Qed.

Lemma validation_rejects (data : pyval) :
  missing_or_out_of_range data ->
  exists msg, validate_questionnaire_input data = raise (ValueError msg) /\
              validation_message msg.
Proof.
  intros (d & -> & [Hnone | (sc & Hsc & Hbad)]);
    unfold validate_questionnaire_input, validation_message;
    cbn [py_contains py_getitem bind ok]; unfold dmem.
  { rewrite Hnone. cbn [negb]. eexists. split; [reflexivity | now left]. }
  rewrite Hsc.
  cbn [negb bind ok]. rewrite all_fields_in_dict. cbn [bind ok].
  destruct (forallb (fun f => dmem f sc) required_fields) eqn:Hall;
    cbn [negb].
  - destruct Hbad as [(f & Hin & Hnone) | (f & v & q & Hin & Hget & Hv & Hq)].
    + exfalso. rewrite forallb_forall in Hall.
      specialize (Hall f Hin). unfold dmem in Hall.
      rewrite Hnone in Hall. discriminate.
    + destruct (check_scores_rejects sc required_fields Hall)
        as (f' & Hin' & Hc).
      { exists f, v. repeat split; auto.
        eapply out_of_range_rejected; eassumption. }
      rewrite Hc. exists (invalid_score_msg f').
      split; [reflexivity |]. right. right. exists f'. auto.
  - exists "Missing required fields in scores data".
    split; [reflexivity | right; now left].
Qed.

(** Whatever exception validation raises, the handler answers with status
    500 and leaves the database as it found it. *)
Lemma submit_rejected_writes_nothing (d : database) (sess : Session.t)
      (data : pyval) (e : exn) :
  Session.user_id sess <> None ->
  validate_questionnaire_input data = raise e ->
  exists body,
    submit_questionnaire d sess data = (Jsonify body 500, sess, d) /\
    dget "status" body = Some (PStr "error") /\
    dget "message" body =
      Some (PStr (match e with
                  | ValueError msg => msg
                  | _ => "Internal server error"
                  end)).
Proof.
  intros Hlogged Hval. unfold submit_questionnaire.
  destruct (Session.user_id sess) as [uid |]; [| congruence].
  unfold submit_try, bindM, lift. rewrite Hval. unfold raise.
  destruct e; eexists; (split; [reflexivity | split; reflexivity]).
Qed.

(** C5, refuted as stated: a submission with [technical_score = 11] is
    answered with status 500, which is not a 4xx status. *)
Lemma rejection_status_not_4xx :
  missing_or_out_of_range technical_eleven /\
  status_of (fst (fst (submit_questionnaire sample_db logged_in technical_eleven)))
    = 500%Z /\
  ~ (400 <= status_of (fst (fst (submit_questionnaire sample_db logged_in
                                                      technical_eleven)))
     < 500)%Z.
Proof.
  split; [| split].
  - exists [("scores", scores_dict (PInt 5) (PInt 5) (PInt 5) (PInt 11))].
    split; [reflexivity |]. right. eexists. split; [reflexivity |].
    right. exists "technical_score", (PInt 11), 11.
    repeat split; simpl; auto. right. reflexivity.
  - reflexivity.
  - replace (status_of (fst (fst (submit_questionnaire sample_db logged_in
                                                       technical_eleven))))
      with 500%Z by reflexivity.
    lia.
Qed.

(** C5, amended: a submission that lacks one of the four score fields or
    carries a score outside [0,10] is rejected with the structured error
    [{status: "error", message: <validation message>}] sent with status
    500, and nothing is written: the database and the session are as the
    request found them. *)
Theorem invalid_submission_rejected (d : database) (sess : Session.t)
        (data : pyval) :
  Session.user_id sess <> None ->
  missing_or_out_of_range data ->
  exists msg body,
    validate_questionnaire_input data = raise (ValueError msg) /\
    validation_message msg /\
    submit_questionnaire d sess data = (Jsonify body 500, sess, d) /\
    dget "status" body = Some (PStr "error") /\
    dget "message" body = Some (PStr msg) /\
    questionnaire_responses (snd (submit_questionnaire d sess data)) =
      questionnaire_responses d /\
    major_recommendations (snd (submit_questionnaire d sess data)) =
      major_recommendations d.
Proof.
  intros Hlogged Hbad.
  destruct (validation_rejects data Hbad) as (msg & Hval & Hmsg).
  destruct (submit_rejected_writes_nothing d sess data _ Hlogged Hval)
    as (body & Hsub & Hst & Hm).
  exists msg, body. rewrite Hsub. cbn [snd]. auto 10.
Qed.

(** The submission with [technical_score = 11] against the sample
    database. *)
Lemma invalid_submission_rejected_witness :
  exists msg body,
    validate_questionnaire_input technical_eleven = raise (ValueError msg) /\
    validation_message msg /\
    submit_questionnaire sample_db logged_in technical_eleven
      = (Jsonify body 500, logged_in, sample_db) /\
    dget "status" body = Some (PStr "error") /\
    dget "message" body = Some (PStr msg) /\
    questionnaire_responses
      (snd (submit_questionnaire sample_db logged_in technical_eleven)) =
      questionnaire_responses sample_db /\
    major_recommendations
      (snd (submit_questionnaire sample_db logged_in technical_eleven)) =
      major_recommendations sample_db.
Proof.
  apply (invalid_submission_rejected sample_db logged_in technical_eleven).
  - discriminate.
  - exists [("scores", scores_dict (PInt 5) (PInt 5) (PInt 5) (PInt 11))].
    split; [reflexivity |]. right. eexists. split; [reflexivity |].
    right. exists "technical_score", (PInt 11), 11.
    repeat split; simpl; auto. right. reflexivity.
Defined.

Lemma bindM_ok {A B : Type} (m : M A) (k : A -> M B)
      (c : connection) (a : A) (c' : connection) :
  m c = (ok a, c') -> bindM m k c = k a c'.
Proof. intro H. unfold bindM. rewrite H. reflexivity. Qed.

Lemma get_personality_type_id_total (type_code : string) (c : connection) :
  exists tid c',
    get_personality_type_id type_code c = (ok tid, c') /\
    questionnaire_responses (working c') = questionnaire_responses (working c).
Proof.
  unfold get_personality_type_id.
  destruct (select_type_by_code (working c) type_code) as [row |].
  - exists (pt_id row), c. auto.
  - eexists. eexists. split; reflexivity.
Qed.

Lemma for_each_recommendation_ok (response_id : Z) (l : list Match.t)
      (c : connection) :
  exists c',
    for_each (insert_major_recommendation response_id) l c = (ok tt, c') /\
    questionnaire_responses (working c') = questionnaire_responses (working c).
Proof.
  revert c. induction l as [| m l IH]; intro c.
  - exists c. auto.
  - cbn [for_each]. unfold bindM at 1.
    cbn [insert_major_recommendation ok].
    match goal with
    | |- context [for_each _ l ?c1] => destruct (IH c1) as (c' & E & Hq)
    end.
    exists c'. split; [exact E | exact Hq].
Qed.

(** A submission that passes validation is stored: one response row is
    added and committed, and the answer is a success with status 200. *)
Lemma valid_submission_stored (d : database) (sess : Session.t)
      (data sc raw : pyval) (s : RawScores) :
  Session.user_id sess <> None ->
  validate_questionnaire_input data = ok true ->
  py_getitem data "scores" = ok sc ->
  read_scores sc = ok s ->
  py_get data "responses" (PDict []) = ok raw ->
  exists response_id d',
    submit_questionnaire d sess data =
      (Jsonify [("status", PStr "success");
                ("response_id", PInt response_id)] 200,
       Session.mk (Session.user_id sess)
                  (Session.questionnaire_responses sess)
                  (Some sc) (Session.flashes sess),
       d') /\
    List.length (questionnaire_responses d') =
      S (List.length (questionnaire_responses d)).
Proof.
  intros Hlogged Hval Hsc Hs Hraw. unfold submit_questionnaire.
  destruct (Session.user_id sess) as [uid |]; [| congruence].
  destruct (get_personality_type_id_total
              (code (fst (get_personality_type s))) (connect d))
    as (tid & c1 & E1 & Hq1).
  set (rid := next_rowid (map qr_id (questionnaire_responses (working c1)))).
  destruct (insert_questionnaire_response s tid raw c1) as [r2 c2] eqn:E2.
  assert (Hr2 : r2 = ok rid) by (injection E2 as <- _; reflexivity).
  assert (Hq2 : questionnaire_responses (working c2) =
                (questionnaire_responses (working c1)
                   ++ [mkResponse rid s tid raw])%list)
    by (injection E2 as _ <-; reflexivity).
  subst r2.
  destruct (for_each_recommendation_ok rid
              (calculate_major_matches (working c2) s (Some tid)) c2)
    as (c3 & E3 & Hq3).
  assert (Htry : submit_try data (connect d)
                 = (ok (rid, sc), mkConn (working c3) (working c3))).
  { unfold submit_try.
    rewrite (bindM_ok _ _ (connect d) true (connect d))
      by (unfold lift; now rewrite Hval).
    rewrite (bindM_ok _ _ (connect d) sc (connect d))
      by (unfold lift; now rewrite Hsc).
    rewrite (bindM_ok _ _ (connect d) s (connect d))
      by (unfold lift; now rewrite Hs).
    rewrite (bindM_ok _ _ (connect d) tid c1) by exact E1.
    rewrite (bindM_ok _ _ c1 raw c1) by (unfold lift; now rewrite Hraw).
    rewrite (bindM_ok _ _ c1 rid c2) by exact E2.
    rewrite (bindM_ok _ _ c2 (calculate_major_matches (working c2) s (Some tid))
                      c2) by reflexivity.
    rewrite (bindM_ok _ _ c2 tt c3) by exact E3.
    reflexivity. }
  rewrite Htry. unfold ok. cbn [committed].
  eexists. eexists. split; [reflexivity |].
  rewrite Hq3, Hq2, length_app, Hq1. cbn [connect working List.length]. lia.
Qed.

(** C10: a submission whose four scores are JSON booleans passes
    validation, and the handler stores it and answers with success. *)
Theorem booleans_pass_validation (b1 b2 b3 b4 : bool) :
  let data := submission (PBool b1) (PBool b2) (PBool b3) (PBool b4) in
  is_int_or_float (PBool b1) = true /\
  validate_questionnaire_input data = ok true /\
  forall d sess, Session.user_id sess <> None ->
    status_of (fst (fst (submit_questionnaire d sess data))) = 200%Z /\
    List.length (questionnaire_responses (snd (submit_questionnaire d sess data)))
      = S (List.length (questionnaire_responses d)).
Proof.
  cbv zeta. split; [reflexivity |].
  assert (Hval : validate_questionnaire_input
                   (submission (PBool b1) (PBool b2) (PBool b3) (PBool b4))
                 = ok true)
    by (destruct b1, b2, b3, b4; reflexivity).
  split; [exact Hval |].
  intros d sess Hlogged.
  destruct (valid_submission_stored d sess
              (submission (PBool b1) (PBool b2) (PBool b3) (PBool b4))
              (scores_dict (PBool b1) (PBool b2) (PBool b3) (PBool b4))
              (PDict [])
              (mkScores (if b1 then 1 else 0) (if b2 then 1 else 0)
                        (if b3 then 1 else 0) (if b4 then 1 else 0))
              Hlogged Hval eq_refl eq_refl eq_refl)
    as (rid & d' & E & Hlen).
  rewrite E. cbn [fst snd status_of]. auto.
Qed.

(** ** The session-display path *)

Example py_round_ties_to_even :
  py_round (5 # 2) = 2%Z /\ py_round (7 # 2) = 4%Z /\ py_round (-5 # 2) = (-2)%Z /\
  py_round (996 # 10) = 100%Z /\ py_round (974 # 10) = 97%Z.
Proof. repeat split; reflexivity. Qed.

Example split_comma_examples :
  split_comma "Engineer,Analyst" = ["Engineer"; "Analyst"] /\
  split_comma "" = [""] /\ split_comma "a,,b" = ["a"; ""; "b"].
Proof. repeat split; reflexivity. Qed.


Lemma StronglySorted_firstn {X : Type} (R : X -> X -> Prop) (n : nat)
      (l : list X) :
  StronglySorted R l -> StronglySorted R (firstn n l).
Proof.
  revert l. induction n as [| n IH]; intros l Hs; [constructor |].
  destruct l as [| x l]; [constructor |].
  inversion Hs as [| ? ? Hs' Hall]; subst. cbn [firstn].
  constructor; [apply IH, Hs' |].
  rewrite <- (firstn_skipn n l) in Hall.
  apply Forall_app in Hall. exact (proj1 Hall).
Qed.

Lemma StronglySorted_impl_Q (l : list Rendered.t) :
  StronglySorted (desc percentage_key) l ->
  StronglySorted
    (fun x y => (Rendered.match_percentage y <= Rendered.match_percentage x)%Z)
    l.
Proof.
  induction 1 as [| x l Hs IH Hall]; constructor; [exact IH |].
  eapply Forall_impl; [| exact Hall].
  intros y Hy. unfold desc, percentage_key in Hy.
  rewrite Zle_Qle. exact Hy.
Qed.

Section RecommendationsFacts.

Variable float_of_str : string -> option Q.



End RecommendationsFacts.

(** The two computations disagree: for the same scores and the same major
    the persisted flow gives the score 0.465 on the 0-1 scale, the
    session-display path the percentage 98. *)
Lemma two_scales_differ :
  Match.match_score
    (major_match sample_db (normalized_scores (mkScores 8 3 9 6)) None
                 sample_major) == 465 # 1000 /\
  Rendered.match_percentage (rendered_entry 8 3 9 6 sample_major) = 98%Z.
Proof. split; vm_compute; reflexivity. Qed.

(** ** The questionnaire flow *)

Lemma accumulator_when_falsy (sess : Session.t) :
  responses_truthy sess = false -> accumulator sess = [].
Proof.
  unfold responses_truthy, accumulator.
  destruct (Session.questionnaire_responses sess) as [[| b d] |];
    intro H; try reflexivity; discriminate.
Qed.

(** What [questionnaire_next] does with a step number from 1 to 4. *)
Lemma questionnaire_next_step (sess : Session.t) (d : dict pyval)
      (st : flow_state) (n : Z) (fld : string) :
  user_id_truthy sess = true ->
  step_number st = Some n ->
  field_of st = Some fld ->
  dget "step" d = Some (PInt n) ->
  questionnaire_next sess (PDict d) =
  (JsonifyRedirect (if Z.eqb n 4 then UrlRecommendations
                    else UrlQuestionnaire (Some (n + 1)%Z)),
   Session.mk (Session.user_id sess)
              (Some (dset fld (match dget fld d with
                               | Some v => v
                               | None => PNone
                               end)
                          (if responses_truthy sess then accumulator sess
                           else [])))
              (Session.scores sess) (Session.flashes sess)).
Proof.
  intros Hu Hn Hf Hstep. unfold questionnaire_next.
  pose proof Hu as Hu'. unfold user_id_truthy in Hu'.
  destruct (Session.user_id sess) as [uid |] eqn:Euid; [| discriminate].
  rewrite Hu. cbn [negb py_get]. rewrite Hstep. unfold ok. clear Hstep.
  destruct st; cbn in Hn, Hf; try discriminate;
    injection Hn as <-; injection Hf as <-;
    cbn [py_eq_int num_value];
    repeat match goal with
           | |- context [Qeq_bool (inject_Z ?a) (inject_Z ?b)] =>
               let v := eval vm_compute in (Qeq_bool (inject_Z a) (inject_Z b)) in
               change (Qeq_bool (inject_Z a) (inject_Z b)) with v
           end;
    cbv iota; cbn [Z.eqb Z.add Pos.eqb Pos.add Pos.succ];
    unfold store_response, accumulator;
    destruct (responses_truthy sess) eqn:Er; cbn [negb];
    cbn [Session.questionnaire_responses Session.user_id Session.scores
         Session.flashes];
    try rewrite Euid;
    destruct (dget _ d); reflexivity.
Qed.

(** Every transition the handler makes goes from a step to its successor. *)
Lemma transitions_are_successors (sess : Session.t) (data : pyval)
      (st' : flow_state) :
  fst (flow_step sess data) = Some st' ->
  exists st n step,
    py_get data "step" PNone = ok step /\ py_eq_int step n = true /\
    step_number st = Some n /\ successor st = Some st' /\
    (rank st < rank st')%nat.
Proof.
  unfold flow_step, questionnaire_next, login_redirect.
  destruct (Session.user_id sess) as [uid |]; [| discriminate].
  destruct (negb (user_id_truthy sess)); [discriminate |].
  destruct (py_get data "step" PNone) as [e | step]; [discriminate |].
  destruct (py_eq_int step 1) eqn:E1.
  { cbn. intro H. injection H as <-.
    exists Step1, 1%Z, step. cbn. repeat split; auto; lia. }
  destruct (py_eq_int step 2) eqn:E2.
  { cbn. intro H. injection H as <-.
    exists Step2, 2%Z, step. cbn. repeat split; auto; lia. }
  destruct (py_eq_int step 3) eqn:E3.
  { cbn. intro H. injection H as <-.
    exists Step3, 3%Z, step. cbn. repeat split; auto; lia. }
  destruct (py_eq_int step 4) eqn:E4.
  { cbn. intro H. injection H as <-.
    exists Step4, 4%Z, step. cbn. repeat split; auto; lia. }
  discriminate.
Qed.

(* ================================================================== *)
(** * Further properties of the handlers *)
(* ================================================================== *)

(** ** What validation accepts *)

Lemma Qlt_bool_false_iff (x y : Q) : Qlt_bool x y = false <-> y <= x.
Proof.
  unfold Qlt_bool. rewrite negb_false_iff. apply Qle_bool_iff.
Qed.

Lemma score_rejected_false_iff (v : pyval) :
  score_rejected v = false <->
  exists q, num_value v = Some q /\ in_range q.
Proof.
  unfold score_rejected, in_range. split.
  - intro H. apply orb_false_iff in H. destruct H as [Hnum H].
    destruct (num_value v) as [q |] eqn:E.
    + apply orb_false_iff in H. destruct H as [H0 H10].
      apply Qlt_bool_false_iff in H0, H10. exists q. auto.
    + destruct v; simpl in *; discriminate.
  - intros (q & E & H0 & H10). rewrite E.
    apply orb_false_iff. split.
    + destruct v; simpl in *; try discriminate; reflexivity.
    + apply orb_false_iff. split; apply Qlt_bool_false_iff; assumption.
Qed.

Lemma check_scores_dict_ok (sc : dict pyval) (fields : list string) :
  check_scores (PDict sc) fields = ok tt <->
  forall f, In f fields ->
            exists v, dget f sc = Some v /\ score_rejected v = false.
Proof.
  induction fields as [| f fs IH]; cbn [check_scores py_getitem].
  - split; [intros _ f [] | reflexivity].
  - destruct (dget f sc) as [v |] eqn:E; cbn [bind ok raise].
    + destruct (score_rejected v) eqn:Er.
      * split; [discriminate |]. intro H.
        destruct (H f (or_introl eq_refl)) as (v' & Hv' & Hr).
        rewrite E in Hv'. injection Hv' as <-. congruence.
      * rewrite IH. split.
        -- intros H f0 [<- | Hin]; [exists v; auto | apply H, Hin].
        -- intros H f0 Hin. apply H. now right.
    + split; [discriminate |]. intro H.
      destruct (H f (or_introl eq_refl)) as (v' & Hv' & _).
      rewrite E in Hv'. discriminate.
Qed.

Lemma check_scores_not_dict (scv : pyval) (f : string) (fs : list string) :
  (forall sc, scv <> PDict sc) ->
  check_scores scv (f :: fs) = raise TypeError.
Proof.
  intro H. destruct scv; try reflexivity. exfalso. eapply H. reflexivity.
Qed.

Lemma validate_dict_scores (d sc : dict pyval) :
  dget "scores" d = Some (PDict sc) ->
  validate_questionnaire_input (PDict d) =
  if forallb (fun f => dmem f sc) required_fields
  then (_ <- check_scores (PDict sc) required_fields ;; ok true)
  else raise (ValueError "Missing required fields in scores data").
Proof.
  intro Hsc. unfold validate_questionnaire_input.
  cbn [py_contains py_getitem bind ok]. unfold dmem at 1. rewrite Hsc.
  cbn [negb bind ok]. rewrite all_fields_in_dict. cbn [bind ok].
  destruct (forallb _ required_fields); reflexivity.
Qed.

Lemma validate_accepts_only_valid (data : pyval) (b : bool) :
  validate_questionnaire_input data = ok b ->
  b = true /\ valid_submission data.
Proof.
  unfold valid_submission.
  destruct data as [| b0 | z | q | s | l | d];
    try (cbn; discriminate).
  - unfold validate_questionnaire_input. cbn [py_contains bind ok].
    destruct (match index 0 "scores" s with Some _ => true | None => false end);
      cbn; discriminate.
  - unfold validate_questionnaire_input. cbn [py_contains bind ok].
    destruct (existsb _ l); cbn; discriminate.
  - destruct (dget "scores" d) as [scv |] eqn:Hsc.
    + assert (Hd : (exists sc, scv = PDict sc) \/ forall sc, scv <> PDict sc).
      { destruct scv; try (right; intros; discriminate). left. eauto. }
      destruct Hd as [(sc & ->) | Hnd].
      * rewrite (validate_dict_scores d sc Hsc).
        destruct (forallb _ required_fields) eqn:Hall; [| discriminate].
        destruct (check_scores (PDict sc) required_fields) as [e | []] eqn:Hc;
          [discriminate |].
        cbn [bind ok]. intro H. injection H as <-.
        split; [reflexivity |].
        exists d, sc. repeat split; auto.
        intros f Hin.
        destruct (proj1 (check_scores_dict_ok sc required_fields) Hc f Hin)
          as (v & Hv & Hr).
        apply score_rejected_false_iff in Hr. destruct Hr as (q & Hq & Hrange).
        exists v, q. auto.
      * unfold validate_questionnaire_input.
        cbn [py_contains py_getitem bind ok]. unfold dmem. rewrite Hsc.
        cbn [negb bind ok].
        destruct (all_fields_in scv required_fields) as [e | [|]];
          cbn [bind ok negb]; try discriminate.
        unfold required_fields. rewrite check_scores_not_dict by exact Hnd.
        discriminate.
    + unfold validate_questionnaire_input.
      cbn [py_contains py_getitem bind ok]. unfold dmem. rewrite Hsc.
      discriminate.
Qed.

Lemma valid_is_accepted (data : pyval) :
  valid_submission data -> validate_questionnaire_input data = ok true.
Proof.
  intros (d & sc & -> & Hsc & Hall).
  rewrite (validate_dict_scores d sc Hsc).
  assert (Hmem : forallb (fun f => dmem f sc) required_fields = true).
  { apply forallb_forall. intros f Hin.
    destruct (Hall f Hin) as (v & q & Hv & _). unfold dmem. now rewrite Hv. }
  rewrite Hmem.
  assert (Hc : check_scores (PDict sc) required_fields = ok tt).
  { apply check_scores_dict_ok. intros f Hin.
    destruct (Hall f Hin) as (v & q & Hv & Hq & Hr).
    exists v. split; [exact Hv |].
    apply score_rejected_false_iff. eauto. }
  rewrite Hc. reflexivity.
Qed.

Lemma rejected_is_not_valid (data : pyval) :
  rejected_body data -> ~ valid_submission data.
Proof.
  intros Hrej (d & sc & -> & Hsc & Hall).
  destruct Hrej as [Hnd | (d' & Hd & Hrej)]; [eapply Hnd; reflexivity |].
  injection Hd as <-.
  destruct Hrej as [Hnone | (scv & Hscv & Hrej)]; [congruence |].
  rewrite Hsc in Hscv. injection Hscv as <-.
  destruct Hrej as [Hnd | (sc' & Hsc' & f & Hf & Hbad)];
    [eapply Hnd; reflexivity |].
  injection Hsc' as <-.
  destruct (Hall f Hf) as (v & q & Hv & Hq & Hr0 & Hr10).
  destruct Hbad as [Hnone | (v' & Hv' & Hbad)]; [congruence |].
  rewrite Hv in Hv'. injection Hv' as <-.
  destruct Hbad as [Hnum | (q' & Hq' & Hout)].
  - destruct v; cbn in Hnum, Hq; discriminate.
  - rewrite Hq in Hq'. injection Hq' as <-.
    destruct Hout as [Hlt | Hlt].
    + apply (Qlt_not_le _ _ Hlt Hr0).
    + apply (Qlt_not_le _ _ Hlt Hr10).
Qed.

(** X1: validation returns [True] for every JSON object whose [scores] is
    an object with a number within [0,10] under each of the four fields;
    it raises for every body that is not an object, has no [scores], has a
    [scores] that is not an object, or has one of the four fields absent,
    not a number, or a number below 0 or above 10; and it never returns
    [False]. *)
Theorem validation_verdicts (data : pyval) :
  (valid_submission data -> validate_questionnaire_input data = ok true) /\
  (rejected_body data ->
   exists e, validate_questionnaire_input data = raise e) /\
  validate_questionnaire_input data <> ok false.
Proof.
  split; [apply valid_is_accepted |]. split.
  - intro Hrej.
    destruct (validate_questionnaire_input data) as [e | b] eqn:E.
    + exists e. reflexivity.
    + exfalso. apply (rejected_is_not_valid data Hrej).
      eapply validate_accepts_only_valid. exact E.
  - intro H. apply validate_accepts_only_valid in H. destruct H. discriminate.
Qed.

(** ** What a stored submission writes *)

Lemma next_rowid_fresh (ids : list Z) :
  (forall i, In i ids -> (i < next_rowid ids)%Z) /\ (0 < next_rowid ids)%Z.
Proof.
  unfold next_rowid. induction ids as [| x ids [IH IH0]]; cbn [fold_right].
  - split; [intros i [] | lia].
  - split; [| lia]. intros i [<- | Hin]; [lia |].
    specialize (IH i Hin). lia.
Qed.

Lemma calculate_major_matches_tables (d1 d2 : database) (s : RawScores)
      (tid : option Z) :
  majors d1 = majors d2 ->
  major_personality_matches d1 = major_personality_matches d2 ->
  calculate_major_matches d1 s tid = calculate_major_matches d2 s tid.
Proof.
  intros Hm Ha. unfold calculate_major_matches. rewrite Hm.
  f_equal. apply map_ext. intro major.
  unfold major_match, select_match_strength. rewrite Ha. reflexivity.
Qed.

(** The registry call: the id returned is the id of a row that carries the
    code afterwards, and at most one row is appended. *)
Lemma get_personality_type_id_effect (type_code : string) (c : connection) :
  exists tid c' row,
    get_personality_type_id type_code c = (ok tid, c') /\
    In row (personality_types (working c')) /\
    pt_id row = tid /\ pt_code row = type_code /\
    majors (working c') = majors (working c) /\
    major_personality_matches (working c') =
      major_personality_matches (working c) /\
    questionnaire_responses (working c') =
      questionnaire_responses (working c) /\
    major_recommendations (working c') = major_recommendations (working c) /\
    ((c' = c /\ select_type_by_code (working c) type_code = Some row) \/
     (select_type_by_code (working c) type_code = None /\
      tid = next_rowid (map pt_id (personality_types (working c))) /\
      personality_types (working c') =
        (personality_types (working c) ++ [row])%list)).
Proof.
  unfold get_personality_type_id.
  destruct (select_type_by_code (working c) type_code) as [row |] eqn:E.
  - exists (pt_id row), c, row.
    pose proof E as E0.
    unfold select_type_by_code in E. apply find_some in E.
    destruct E as [Hin Hc]. apply String.eqb_eq in Hc.
    repeat split; auto.
  - eexists. eexists.
    exists (mkPType (next_rowid (map pt_id (personality_types (working c))))
                    type_code ("Type " ++ type_code)
                    "Personality type description").
    split; [reflexivity |].
    cbn [working personality_types majors major_personality_matches
         questionnaire_responses major_recommendations pt_id pt_code].
    repeat split; auto.
    apply in_or_app. right. now left.
Qed.

Lemma for_each_recommendation_rows (response_id : Z) (l : list Match.t)
      (c : connection) :
  exists c',
    for_each (insert_major_recommendation response_id) l c = (ok tt, c') /\
    committed c' = committed c /\
    personality_types (working c') = personality_types (working c) /\
    majors (working c') = majors (working c) /\
    major_personality_matches (working c') =
      major_personality_matches (working c) /\
    questionnaire_responses (working c') =
      questionnaire_responses (working c) /\
    major_recommendations (working c') =
      (major_recommendations (working c)
         ++ map (recommendation_row response_id) l)%list.
Proof.
  revert c. induction l as [| m l IH]; intro c.
  - exists c. cbn [map]. rewrite app_nil_r. repeat split; reflexivity.
  - cbn [for_each]. unfold bindM at 1.
    cbn [insert_major_recommendation ok].
    match goal with
    | |- context [for_each _ l ?c1] =>
        destruct (IH c1) as (c' & E & Hc & Hp & Hm & Ha & Hq & Hr)
    end.
    exists c'. split; [exact E |].
    cbn [committed working personality_types majors major_personality_matches
         questionnaire_responses major_recommendations] in Hc, Hp, Hm, Ha, Hq, Hr.
    repeat split; try assumption.
    rewrite Hr, <- app_assoc. reflexivity.
Qed.

Lemma read_scores_valid (sc : dict pyval) :
  (forall f, In f required_fields ->
             exists v q, dget f sc = Some v /\ num_value v = Some q /\
                         in_range q) ->
  exists s,
    read_scores (PDict sc) = ok s /\ scores_in_range s /\
    score_at sc "analytical_score" = Some (analytical_score s) /\
    score_at sc "creative_score" = Some (creative_score s) /\
    score_at sc "social_score" = Some (social_score s) /\
    score_at sc "technical_score" = Some (technical_score s).
Proof.
  intro H.
  destruct (H "analytical_score") as (va & a & Ea & Na & Ra);
    [simpl; auto |].
  destruct (H "creative_score") as (vc & c & Ec & Nc & Rc);
    [simpl; auto |].
  destruct (H "social_score") as (vs & s & Es & Ns & Rs);
    [simpl; auto |].
  destruct (H "technical_score") as (vt & t & Et & Nt & Rt);
    [simpl; auto |].
  exists (mkScores a c s t).
  unfold read_scores, score_at, as_number, scores_in_range.
  cbn [py_getitem]. rewrite Ea, Ec, Es, Et.
  cbn [bind ok]. rewrite Na, Nc, Ns, Nt. cbn [bind ok].
  cbn [analytical_score creative_score social_score technical_score].
  repeat split; auto; apply Ra || apply Rc || apply Rs || apply Rt.
Qed.

(** What the handler does with a submission that validation accepts. *)
Lemma stored_submission (d : database) (sess : Session.t) (data : pyval) :
  Session.user_id sess <> None ->
  valid_submission data ->
  let rid := next_rowid (map qr_id (questionnaire_responses d)) in
  exists sc s tid raw d' row,
    py_getitem data "scores" = ok (PDict sc) /\
    read_scores (PDict sc) = ok s /\ scores_in_range s /\
    score_at sc "analytical_score" = Some (analytical_score s) /\
    score_at sc "creative_score" = Some (creative_score s) /\
    score_at sc "social_score" = Some (social_score s) /\
    score_at sc "technical_score" = Some (technical_score s) /\
    py_get data "responses" (PDict []) = ok raw /\
    submit_questionnaire d sess data =
      (Jsonify [("status", PStr "success"); ("response_id", PInt rid)] 200,
       Session.mk (Session.user_id sess)
                  (Session.questionnaire_responses sess)
                  (Some (PDict sc)) (Session.flashes sess),
       d') /\
    majors d' = majors d /\
    major_personality_matches d' = major_personality_matches d /\
    questionnaire_responses d' =
      (questionnaire_responses d ++ [mkResponse rid s tid raw])%list /\
    major_recommendations d' =
      (major_recommendations d
         ++ map (recommendation_row rid)
                (calculate_major_matches d s (Some tid)))%list /\
    In row (personality_types d') /\ pt_id row = tid /\
    pt_code row = code (fst (get_personality_type s)) /\
    ((personality_types d' = personality_types d /\
      select_type_by_code d (pt_code row) = Some row) \/
     (select_type_by_code d (pt_code row) = None /\
      personality_types d' = (personality_types d ++ [row])%list /\
      tid = next_rowid (map pt_id (personality_types d)))).
Proof.
  intros Hlogged Hvalid rid.
  pose proof (valid_is_accepted data Hvalid) as Hval.
  destruct Hvalid as (dd & sc & -> & Hsc & Hall).
  destruct (read_scores_valid sc Hall)
    as (s & Hs & Hrange & Ha & Hc & Hso & Ht).
  assert (Hget : py_getitem (PDict dd) "scores" = ok (PDict sc))
    by (cbn [py_getitem]; now rewrite Hsc).
  assert (Hraw : exists raw, py_get (PDict dd) "responses" (PDict []) = ok raw)
    by (cbn [py_get]; destruct (dget "responses" dd); eauto).
  destruct Hraw as (raw & Hraw).
  destruct (get_personality_type_id_effect
              (code (fst (get_personality_type s))) (connect d))
    as (tid & c1 & row & E1 & Hin & Hid & Hcode & Hm1 & Ha1 & Hq1 & Hr1 & Hcase).
  cbn [connect working] in Hm1, Ha1, Hq1, Hr1, Hcase.
  assert (Hrid : next_rowid (map qr_id (questionnaire_responses (working c1)))
                 = rid) by (subst rid; now rewrite Hq1).
  destruct (insert_questionnaire_response s tid raw c1) as [r2 c2] eqn:E2.
  assert (Hr2 : r2 = ok rid) by (injection E2 as <- _; now rewrite Hrid).
  assert (Hw2 : working c2 =
                mkDb (personality_types (working c1)) (majors (working c1))
                     (major_personality_matches (working c1))
                     (questionnaire_responses (working c1)
                        ++ [mkResponse rid s tid raw])
                     (major_recommendations (working c1)))
    by (injection E2 as _ <-; cbn [working]; now rewrite Hrid).
  subst r2.
  destruct (for_each_recommendation_rows rid
              (calculate_major_matches (working c2) s (Some tid)) c2)
    as (c3 & E3 & _ & Hp3 & Hm3 & Ha3 & Hq3 & Hr3).
  assert (Hcalc : calculate_major_matches (working c2) s (Some tid)
                  = calculate_major_matches d s (Some tid)).
  { apply calculate_major_matches_tables; rewrite Hw2;
      cbn [majors major_personality_matches]; assumption. }
  rewrite Hcalc in Hr3.
  rewrite Hw2 in Hp3, Hm3, Ha3, Hq3, Hr3.
  cbn [personality_types majors major_personality_matches
       questionnaire_responses major_recommendations] in Hp3, Hm3, Ha3, Hq3, Hr3.
  assert (Htry : submit_try (PDict dd) (connect d)
                 = (ok (rid, PDict sc), mkConn (working c3) (working c3))).
  { unfold submit_try.
    rewrite (bindM_ok _ _ (connect d) true (connect d))
      by (unfold lift; now rewrite Hval).
    rewrite (bindM_ok _ _ (connect d) (PDict sc) (connect d))
      by (unfold lift; now rewrite Hget).
    rewrite (bindM_ok _ _ (connect d) s (connect d))
      by (unfold lift; now rewrite Hs).
    rewrite (bindM_ok _ _ (connect d) tid c1) by exact E1.
    rewrite (bindM_ok _ _ c1 raw c1) by (unfold lift; now rewrite Hraw).
    rewrite (bindM_ok _ _ c1 rid c2) by exact E2.
    rewrite (bindM_ok _ _ c2 (calculate_major_matches (working c2) s (Some tid))
                      c2) by reflexivity.
    rewrite (bindM_ok _ _ c2 tt c3) by exact E3.
    reflexivity. }
  exists sc, s, tid, raw, (working c3), row.
  unfold submit_questionnaire.
  destruct (Session.user_id sess) as [uid |]; [| congruence].
  rewrite Htry. unfold ok. cbn [committed].
  split; [exact Hget |].
  split; [exact Hs |].
  split; [exact Hrange |].
  repeat (split; [first [assumption | reflexivity | congruence] |]).
  rewrite Hp3, Hcode.
  destruct Hcase as [[-> Hsel] | (Hsel & Htid & Hp)].
  - left. cbn [connect working]. auto.
  - right. auto.
Qed.

Lemma valid_sample_is_valid : valid_submission valid_sample.
Proof. apply (validate_accepts_only_valid valid_sample true). reflexivity. Qed.

(** X2: for a logged-in user the handler answers 200 to every valid
    submission, and answers 200 only when validation returned [True];
    whenever validation raises, as for every refused body, the answer has
    status 500 and neither the database nor the session changes. *)
Theorem submission_status_follows_validation (d : database)
        (sess : Session.t) (data : pyval) :
  Session.user_id sess <> None ->
  let status := status_of (fst (fst (submit_questionnaire d sess data))) in
  (valid_submission data -> status = 200%Z) /\
  (status = 200%Z -> validate_questionnaire_input data = ok true) /\
  (forall e, validate_questionnaire_input data = raise e ->
             status = 500%Z /\
             submit_questionnaire d sess data =
               (fst (fst (submit_questionnaire d sess data)), sess, d)) /\
  (rejected_body data ->
   status = 500%Z /\
   submit_questionnaire d sess data =
     (fst (fst (submit_questionnaire d sess data)), sess, d)).
Proof.
  intros Hlogged status. subst status.
  assert (Hraise : forall e, validate_questionnaire_input data = raise e ->
            status_of (fst (fst (submit_questionnaire d sess data))) = 500%Z /\
            submit_questionnaire d sess data =
              (fst (fst (submit_questionnaire d sess data)), sess, d)).
  { intros e E.
    destruct (submit_rejected_writes_nothing d sess data e Hlogged E)
      as (body & Hsub & _).
    rewrite Hsub. cbn [fst snd status_of]. auto. }
  split; [| split; [| split]].
  - intro Hvalid.
    destruct (stored_submission d sess data Hlogged Hvalid)
      as (sc & s & tid & raw & d' & row & _ & _ & _ & _ & _ & _ & _ & _
          & Hsub & _).
    rewrite Hsub. reflexivity.
  - intro H200.
    destruct (validate_questionnaire_input data) as [e | b] eqn:E.
    + destruct (Hraise e eq_refl) as [H500 _]. congruence.
    + apply validate_accepts_only_valid in E. destruct E as [-> _].
      reflexivity.
  - exact Hraise.
  - intro Hrej.
    destruct (validate_questionnaire_input data) as [e | b] eqn:E.
    + apply (Hraise e eq_refl).
    + exfalso. apply (rejected_is_not_valid data Hrej).
      eapply validate_accepts_only_valid. exact E.
Qed.

(** A valid submission against the sample database is answered 200. *)
Lemma submission_status_follows_validation_witness :
  status_of (fst (fst (submit_questionnaire sample_db logged_in valid_sample)))
    = 200%Z.
Proof.
  apply (submission_status_follows_validation sample_db logged_in valid_sample).
  - discriminate.
  - apply valid_sample_is_valid.
Defined.

(** X3: a valid submission by a logged-in user appends exactly one
    questionnaire-response row.  Its id is new (larger than every id in the
    table) and is the [response_id] of the answer, its four scores are the
    numbers of the submitted fields, and it keeps the [responses] of the
    body, or the empty object when the body has none. *)
Theorem submission_stores_one_response (d : database) (sess : Session.t)
        (data : pyval) :
  Session.user_id sess <> None ->
  valid_submission data ->
  exists sc raw row body,
    submit_questionnaire d sess data =
      (Jsonify body 200,
       Session.mk (Session.user_id sess)
                  (Session.questionnaire_responses sess)
                  (Some (PDict sc)) (Session.flashes sess),
       snd (submit_questionnaire d sess data)) /\
    py_getitem data "scores" = ok (PDict sc) /\
    dget "response_id" body = Some (PInt (qr_id row)) /\
    questionnaire_responses (snd (submit_questionnaire d sess data)) =
      (questionnaire_responses d ++ [row])%list /\
    (forall r, In r (questionnaire_responses d) -> (qr_id r < qr_id row)%Z) /\
    score_at sc "analytical_score" = Some (analytical_score (qr_scores row)) /\
    score_at sc "creative_score" = Some (creative_score (qr_scores row)) /\
    score_at sc "social_score" = Some (social_score (qr_scores row)) /\
    score_at sc "technical_score" = Some (technical_score (qr_scores row)) /\
    scores_in_range (qr_scores row) /\
    py_get data "responses" (PDict []) = ok raw /\ raw_responses row = raw.
Proof.
  intros Hlogged Hvalid.
  destruct (stored_submission d sess data Hlogged Hvalid)
    as (sc & s & tid & raw & d' & row & Hget & _ & Hrange & Ha & Hc & Hso & Ht
        & Hraw & Hsub & _ & _ & Hq & _).
  cbv zeta in Hsub, Hq.
  exists sc, raw,
    (mkResponse (next_rowid (map qr_id (questionnaire_responses d))) s tid raw).
  eexists. rewrite Hsub. cbn [snd qr_id qr_scores raw_responses].
  split; [reflexivity |].
  split; [exact Hget |].
  split; [reflexivity |].
  split; [exact Hq |].
  split.
  { intros r Hin. apply (proj1 (next_rowid_fresh _)).
    apply in_map. exact Hin. }
  auto 10.
Qed.

Lemma submission_stores_one_response_witness :
  exists row,
    questionnaire_responses
      (snd (submit_questionnaire sample_db logged_in valid_sample)) = [row].
Proof.
  destruct (submission_stores_one_response sample_db logged_in valid_sample)
    as (sc & raw & row & body & _ & _ & _ & Hq & _).
  - discriminate.
  - apply valid_sample_is_valid.
  - exists row. exact Hq.
Defined.






(** X6: whatever the body and whoever the caller, the handler never
    changes the catalogue or the affinity table, and never removes or
    alters a row of the registry, the responses or the recommendations:
    each of these tables afterwards is the table before, followed by the
    rows added. *)
Theorem submission_only_appends (d : database) (sess : Session.t)
        (data : pyval) :
  let d' := snd (submit_questionnaire d sess data) in
  majors d' = majors d /\
  major_personality_matches d' = major_personality_matches d /\
  extends (personality_types d') (personality_types d) /\
  extends (questionnaire_responses d') (questionnaire_responses d) /\
  extends (major_recommendations d') (major_recommendations d).
Proof.
  cbv zeta.
  assert (Hsame : forall r s', submit_questionnaire d sess data = (r, s', d) ->
            majors (snd (submit_questionnaire d sess data)) = majors d /\
            major_personality_matches (snd (submit_questionnaire d sess data))
              = major_personality_matches d /\
            extends (personality_types (snd (submit_questionnaire d sess data)))
                    (personality_types d) /\
            extends (questionnaire_responses
                       (snd (submit_questionnaire d sess data)))
                    (questionnaire_responses d) /\
            extends (major_recommendations
                       (snd (submit_questionnaire d sess data)))
                    (major_recommendations d)).
  { intros r s' E. rewrite E. cbn [snd].
    repeat split; try reflexivity; exists []; symmetry; apply app_nil_r. }
  destruct (Session.user_id sess) as [uid |] eqn:Euid.
  - assert (Hlogged : Session.user_id sess <> None) by congruence.
    destruct (validate_questionnaire_input data) as [e | b] eqn:E.
    + destruct (submit_rejected_writes_nothing d sess data e Hlogged E)
        as (body & Hsub & _).
      eapply Hsame. exact Hsub.
    + apply validate_accepts_only_valid in E. destruct E as [_ Hvalid].
      destruct (stored_submission d sess data Hlogged Hvalid)
        as (sc & s & tid & raw & d1 & row & _ & _ & _ & _ & _ & _ & _
            & _ & Hsub & Hm & Ha & Hq & Hr & _ & _ & _ & Hcase).
      cbv zeta in Hsub, Hq, Hr. rewrite Hsub. cbn [snd].
      split; [exact Hm |]. split; [exact Ha |].
      split.
      { destruct Hcase as [[Hp _] | (_ & Hp & _)]; rewrite Hp.
        - exists []. symmetry. apply app_nil_r.
        - eexists. reflexivity. }
      split; eexists; eassumption.
  - eapply (Hsame (fst (login_redirect sess)) (snd (login_redirect sess))).
    unfold submit_questionnaire. rewrite Euid. reflexivity.
Qed.

(** ** The registry and the classifier *)

Lemma NoDup_snoc {X : Type} (l : list X) (x : X) :
  NoDup l -> ~ In x l -> NoDup (l ++ [x]).
Proof.
  intros Hl Hx. apply (Permutation_NoDup (l := x :: l)).
  - apply Permutation_cons_append.
  - constructor; assumption.
Qed.

Lemma select_none_code_absent (d : database) (type_code : string) :
  select_type_by_code d type_code = None ->
  ~ In type_code (map pt_code (personality_types d)).
Proof.
  unfold select_type_by_code. intros Hnone Hin.
  apply in_map_iff in Hin. destruct Hin as (r & Hc & Hr).
  pose proof (find_none _ _ Hnone r Hr) as Hn. cbv beta in Hn.
  rewrite Hc, String.eqb_refl in Hn. discriminate.
Qed.

(** X7: the registry call keeps the registry well formed: if no two rows
    share a code and no two rows share an id before the call, the same
    holds after it, and every row present before is still present. *)
Theorem registry_keeps_codes_and_ids_unique (type_code : string)
        (c : connection) :
  NoDup (map pt_code (personality_types (working c))) ->
  NoDup (map pt_id (personality_types (working c))) ->
  let c' := snd (get_personality_type_id type_code c) in
  NoDup (map pt_code (personality_types (working c'))) /\
  NoDup (map pt_id (personality_types (working c'))) /\
  extends (personality_types (working c')) (personality_types (working c)) /\
  In type_code (map pt_code (personality_types (working c'))).
Proof.
  intros Hcodes Hids c'. subst c'.
  destruct (get_personality_type_id_effect type_code c)
    as (tid & c1 & row & E & Hin & Hid & Hcode & _ & _ & _ & _ & Hcase).
  rewrite E. cbn [snd].
  assert (Hpresent : In type_code (map pt_code (personality_types (working c1)))).
  { apply in_map_iff. exists row. auto. }
  destruct Hcase as [[-> _] | (Hsel & Htid & Hp)].
  - repeat split; auto. exists []. symmetry. apply app_nil_r.
  - rewrite Hp, !map_app. cbn [map]. rewrite Hp in Hpresent.
    rewrite map_app in Hpresent. cbn [map] in Hpresent.
    repeat split; auto.
    + apply NoDup_snoc; [exact Hcodes |].
      rewrite Hcode. apply select_none_code_absent, Hsel.
    + apply NoDup_snoc; [exact Hids |].
      rewrite Hid, Htid. intro Hold.
      apply (proj1 (next_rowid_fresh _)) in Hold. lia.
    + eexists. reflexivity.
Qed.

Lemma registry_keeps_codes_and_ids_unique_witness :
  NoDup (map pt_code
             (personality_types
                (working (snd (get_personality_type_id "INFP"
                                                       (connect sample_db)))))).
Proof.
  apply (registry_keeps_codes_and_ids_unique "INFP" (connect sample_db)).
  - cbn. constructor; [intros [] | constructor].
  - cbn. constructor; [intros [] | constructor].
Defined.

Ltac code_scores a c s t :=
  exists (mkScores a c s t);
  split; [repeat split; unfold Qle; simpl; lia | reflexivity].

(** X8: the classifier produces one of the sixteen four-letter codes for
    every score vector, and each of the sixteen is produced by some score
    vector with all four values in [0,10]. *)
Theorem classifier_codes_are_the_sixteen :
  (forall s, In (code (fst (get_personality_type s))) all_codes) /\
  (forall c, In c all_codes ->
             exists s, scores_in_range s /\
                       code (fst (get_personality_type s)) = c).
Proof.
  split.
  - intro s. unfold get_personality_type. cbn [fst code].
    destruct (Qle_bool (1 # 2) (social_score s / 10));
      destruct (Qle_bool (1 # 2) (creative_score s / 10));
      destruct (Qle_bool (1 # 2) ((analytical_score s + technical_score s) / 20));
      destruct (Qle_bool (1 # 2) ((technical_score s + creative_score s) / 20));
      cbn; auto 20.
  - intros c Hin. unfold all_codes in Hin. cbn [In] in Hin.
    repeat (destruct Hin as [<- | Hin];
            [first [ code_scores 10 5 10 6 | code_scores 10 5 10 0 | code_scores 0 5 10 6 | code_scores 0 5 10 0 | code_scores 10 4 10 6 | code_scores 10 4 10 0 | code_scores 0 4 10 6 | code_scores 0 4 10 0 | code_scores 10 5 0 6 | code_scores 10 5 0 0 | code_scores 0 5 0 6 | code_scores 0 5 0 0 | code_scores 10 4 0 6 | code_scores 10 4 0 0 | code_scores 0 4 0 6 | code_scores 0 4 0 0 ] |]).
    destruct Hin.
Qed.

(** X9: for scores within [0,10] the four axis values lie in [0,1], and
    the two values returned beside each other are the same. *)
Theorem axis_values_in_unit (s : RawScores) :
  scores_in_range s ->
  let d := snd (get_personality_type s) in
  scores (fst (get_personality_type s)) = d /\
  unit_interval (ei d) /\ unit_interval (sn d) /\
  unit_interval (tf d) /\ unit_interval (jp d).
Proof.
  intros ((Ha0 & Ha1) & (Hc0 & Hc1) & (Hs0 & Hs1) & (Ht0 & Ht1)).
  unfold get_personality_type, unit_interval. cbn [fst snd scores ei sn tf jp].
  split; [reflexivity |].
  assert (H10 : forall x, 0 <= x -> x <= 10 -> 0 <= x / 10 /\ x / 10 <= 1).
  { intros x H0 H1. split.
    - apply Qle_shift_div_l; [reflexivity | lra].
    - apply Qle_shift_div_r; [reflexivity | lra]. }
  assert (H20 : forall x, 0 <= x -> x <= 20 -> 0 <= x / 20 /\ x / 20 <= 1).
  { intros x H0 H1. split.
    - apply Qle_shift_div_l; [reflexivity | lra].
    - apply Qle_shift_div_r; [reflexivity | lra]. }
  pose proof (H10 _ Hs0 Hs1) as Hei.
  pose proof (H10 _ Hc0 Hc1) as Hsn.
  assert (Htf : 0 <= (analytical_score s + technical_score s) / 20 /\
                (analytical_score s + technical_score s) / 20 <= 1)
    by (apply H20; lra).
  assert (Hjp : 0 <= (technical_score s + creative_score s) / 20 /\
                (technical_score s + creative_score s) / 20 <= 1)
    by (apply H20; lra).
  tauto.
Qed.

Lemma axis_values_in_unit_witness :
  unit_interval (tf (snd (get_personality_type (mkScores 8 3 9 6)))).
Proof.
  apply (axis_values_in_unit (mkScores 8 3 9 6)).
  repeat split; unfold Qle; simpl; lia.
Defined.

(** ** Ranges and dependence of the match results *)







Section SortRelated.

Context {A B : Type}.
Variables (keyA : A -> Q) (keyB : B -> Q) (R : A -> B -> Prop).
Hypothesis R_key : forall x y, R x y -> keyA x == keyB y.



End SortRelated.



(** ** Access without a login *)

(** X12: without [user_id] in the session each of the four protected
    handlers only redirects to the login page: it adds the one flash
    message, stores no answer and no scores, and leaves the database as
    it is. *)
Theorem protected_handlers_require_login (float_of_str : string -> option Q)
        (d : database) (sess : Session.t) (data : pyval)
        (step_arg : option Z) :
  Session.user_id sess = None ->
  let denied :=
    (Redirect UrlLogin,
     Session.mk None (Session.questionnaire_responses sess)
                (Session.scores sess)
                (Session.flashes sess
                   ++ [("error", "Please log in to access this page.")])) in
  questionnaire sess step_arg = denied /\
  questionnaire_next sess data = denied /\
  recommendations float_of_str d sess = denied /\
  submit_questionnaire d sess data = (denied, d).
Proof.
  intros Hout denied. subst denied.
  unfold questionnaire, questionnaire_next, recommendations,
    submit_questionnaire, login_redirect, flash.
  rewrite Hout. repeat split; reflexivity.
Qed.

Lemma protected_handlers_require_login_witness :
  submit_questionnaire sample_db session_clear valid_sample =
  (Redirect UrlLogin,
   Session.mk None None None
              [("error", "Please log in to access this page.")],
   sample_db).
Proof.
  apply (protected_handlers_require_login no_str_float sample_db
           session_clear valid_sample None).
  reflexivity.
Defined.

(** X13: [logout] ends the session whatever it held: the user id, the
    collected answers, the last scores and the pending flash messages are
    all dropped, and a valid submission sent afterwards is redirected to
    the login page and stores nothing. *)
Theorem logout_ends_access (d : database) (sess : Session.t) (data : pyval) :
  let sess' := snd (logout sess) in
  fst (logout sess) = AuthRedirect UrlIndex /\
  Session.user_id sess' = None /\
  Session.questionnaire_responses sess' = None /\
  Session.scores sess' = None /\ Session.flashes sess' = [] /\
  fst (fst (submit_questionnaire d sess' data)) = Redirect UrlLogin /\
  snd (submit_questionnaire d sess' data) = d /\
  fst (questionnaire_next sess' data) = Redirect UrlLogin /\
  accumulator (snd (questionnaire_next sess' data)) = [].
Proof. cbv zeta. repeat split; reflexivity. Qed.

(** ** The questionnaire pages *)

(** X14: for a logged-in user the page renders one of the four questions,
    with progress 25 times the step out of 4 steps, when the step is 1 to
    4; for any other step, or none, it falls back to step 1: a missing
    step renders question 1, and any other value redirects to the page
    without a step.  The session is not changed. *)
Theorem questionnaire_page_steps (sess : Session.t) (step_arg : option Z) :
  Session.user_id sess <> None ->
  let step := match step_arg with Some n => n | None => 1%Z end in
  ((1 <= step <= 4)%Z ->
   exists q, questionnaire sess step_arg = (RenderQuestionnaire q step 4, sess) /\
             progress q = (25 * step)%Z /\
             (exists st, step_number st = Some step /\
                         field_of st = Some (field q))) /\
  (~ (1 <= step <= 4)%Z ->
   questionnaire sess step_arg = (Redirect (UrlQuestionnaire None), sess) /\
   exists q, questionnaire sess None = (RenderQuestionnaire q 1 4, sess) /\
             field q = "analytical").
Proof.
  intros Hlogged step. unfold questionnaire.
  destruct (Session.user_id sess) as [uid |]; [| congruence].
  fold step. split.
  - intro Hr.
    assert (Hs : step = 1%Z \/ step = 2%Z \/ step = 3%Z \/ step = 4%Z) by lia.
    destruct Hs as [-> | [-> | [-> | ->]]]; cbn; eexists;
      (split; [reflexivity |]); (split; [reflexivity |]).
    + exists Step1. auto.
    + exists Step2. auto.
    + exists Step3. auto.
    + exists Step4. auto.
  - intro Hn. split.
    + unfold questions.
      destruct (Z.eqb_spec step 1); [lia |].
      destruct (Z.eqb_spec step 2); [lia |].
      destruct (Z.eqb_spec step 3); [lia |].
      destruct (Z.eqb_spec step 4); [lia |].
      reflexivity.
    + cbn. eexists. split; reflexivity.
Qed.

Lemma questionnaire_page_steps_witness :
  exists q, questionnaire logged_in (Some 3%Z)
            = (RenderQuestionnaire q 3 4, logged_in) /\
            progress q = 75%Z.
Proof.
  destruct (proj1 (questionnaire_page_steps logged_in (Some 3%Z)
                     ltac:(discriminate)))
    as (q & Hq & Hp & _).
  - cbv zeta. lia.
  - exists q. split; [exact Hq | exact Hp].
Defined.

(** X15: the page a POST for step N (1 to 3) redirects to asks the
    question of the next step: requested with the same session, it renders
    the question whose field is the one the POST for step N+1 stores. *)
Theorem flow_redirect_renders_next_question (sess : Session.t)
        (d : dict pyval) (st : flow_state) (n : Z) :
  user_id_truthy sess = true ->
  step_number st = Some n ->
  dget "step" d = Some (PInt n) ->
  n <> 4%Z ->
  let sess' := snd (questionnaire_next sess (PDict d)) in
  exists st' q,
    successor st = Some st' /\
    fst (questionnaire_next sess (PDict d)) =
      JsonifyRedirect (UrlQuestionnaire (Some (n + 1)%Z)) /\
    questionnaire sess' (Some (n + 1)%Z) =
      (RenderQuestionnaire q (n + 1) 4, sess') /\
    field_of st' = Some (field q) /\
    step_number st' = Some (n + 1)%Z.
Proof.
  intros Hu Hn Hstep Hn4 sess'.
  assert (Hf : exists fld, field_of st = Some fld)
    by (destruct st; cbn in *; try discriminate; eauto).
  destruct Hf as (fld & Hf).
  pose proof (questionnaire_next_step sess d st n fld Hu Hn Hf Hstep) as E.
  subst sess'. rewrite E. cbn [fst snd].
  assert (Huid : exists uid, Session.user_id sess = Some uid).
  { unfold user_id_truthy in Hu.
    destruct (Session.user_id sess); [eauto | discriminate]. }
  destruct Huid as (uid & Huid).
  unfold questionnaire. cbn [Session.user_id]. rewrite Huid.
  destruct st; cbn in Hn; try discriminate; injection Hn as <-;
    try (exfalso; apply Hn4; reflexivity);
    cbn; eexists; eexists; repeat split; reflexivity.
Qed.

Lemma flow_redirect_renders_next_question_witness :
  exists q,
    questionnaire
      (snd (questionnaire_next all_fives
              (PDict [("step", PInt 2); ("creative", PInt 9)])))
      (Some 3%Z)
    = (RenderQuestionnaire q 3 4,
       snd (questionnaire_next all_fives
              (PDict [("step", PInt 2); ("creative", PInt 9)]))) /\
    field q = "social".
Proof.
  destruct (flow_redirect_renders_next_question all_fives
              [("step", PInt 2); ("creative", PInt 9)] Step2 2%Z
              eq_refl eq_refl eq_refl ltac:(discriminate))
    as (st' & q & Hs & _ & Hq & Hf & _).
  exists q. split; [exact Hq |].
  cbn in Hs. injection Hs as <-. cbn in Hf. injection Hf as <-. reflexivity.
Defined.

(** ** Answers the flow does not accept *)

Lemma dget_dset_present {V : Type} (k f : string) (v : V) (d : dict V) :
  dget k (dset f v d) <> None -> k = f \/ dget k d <> None.
Proof.
  intro H. destruct (String.eqb_spec k f) as [-> | Hne]; [now left |].
  right. rewrite dget_dset_other in H by exact Hne. exact H.
Qed.

(** X16: for a logged-in user a POST whose body is not an object, or whose
    [step] is absent or is not a number equal to 1, 2, 3 or 4 (the string
    "1" is not), stores no answer and sends no redirect: the handler
    returns nothing and the request ends in a server error. *)
Theorem unrecognised_step_stores_nothing (sess : Session.t) (data : pyval) :
  user_id_truthy sess = true ->
  (forall step, py_get data "step" PNone = ok step -> step_unrecognised step) ->
  let out := questionnaire_next sess data in
  fst out = ServerError /\
  fst (flow_step sess data) = None /\
  Session.user_id (snd out) = Session.user_id sess /\
  Session.scores (snd out) = Session.scores sess /\
  forall k, dget k (accumulator (snd out)) = dget k (accumulator sess).
Proof.
  intros Hu Hstep. cbv zeta. unfold flow_step, questionnaire_next.
  pose proof Hu as Hu'. unfold user_id_truthy in Hu'.
  destruct (Session.user_id sess) as [uid |] eqn:Euid; [| discriminate].
  rewrite Hu. cbn [negb].
  destruct (py_get data "step" PNone) as [e | step] eqn:E.
  - cbn [fst snd]. repeat split; try reflexivity; assumption.
  - destruct (Hstep step eq_refl) as (H1 & H2 & H3 & H4).
    rewrite H1, H2, H3, H4. cbn [fst snd].
    destruct (responses_truthy sess) eqn:Er; cbn [negb].
    + repeat split; try reflexivity; assumption.
    + apply accumulator_when_falsy in Er.
      cbn [Session.user_id Session.scores].
      repeat split; try reflexivity.
      intro k. rewrite Er. reflexivity.
Qed.

Lemma unrecognised_step_stores_nothing_witness :
  fst (questionnaire_next all_fives
         (PDict [("step", PStr "1"); ("analytical", PInt 9)])) = ServerError.
Proof.
  apply (unrecognised_step_stores_nothing all_fives
           (PDict [("step", PStr "1"); ("analytical", PInt 9)])).
  - reflexivity.
  - intros step H. cbn in H. injection H as <-.
    repeat split; reflexivity.
Defined.

(** X17: whatever the body, the handler writes to the session accumulator
    under no key other than the four field names: a key present afterwards
    was present before or is one of analytical, creative, social and
    technical; and it never touches the user id or the stored scores. *)
Theorem accumulator_keys_are_fields (sess : Session.t) (data : pyval)
        (k : string) :
  let sess' := snd (questionnaire_next sess data) in
  (dget k (accumulator sess') <> None ->
   dget k (accumulator sess) <> None \/ In k answer_fields) /\
  Session.user_id sess' = Session.user_id sess /\
  Session.scores sess' = Session.scores sess.
Proof.
  cbv zeta. unfold questionnaire_next, login_redirect.
  set (base := if negb (responses_truthy sess)
               then Session.mk (Session.user_id sess) (Some [])
                               (Session.scores sess) (Session.flashes sess)
               else sess).
  assert (Hbase : forall k0, dget k0 (accumulator base) <> None ->
                             dget k0 (accumulator sess) <> None).
  { intros k0. subst base. destruct (responses_truthy sess); cbn [negb]; [auto |].
    intro H. exfalso. apply H. reflexivity. }
  assert (Hid0 : Session.user_id base = Session.user_id sess /\
                 Session.scores base = Session.scores sess).
  { subst base. destruct (responses_truthy sess); cbn; auto. }
  assert (Hstore : forall f v,
            In f answer_fields ->
            (dget k (accumulator (store_response f v base)) <> None ->
             dget k (accumulator sess) <> None \/ In k answer_fields) /\
            Session.user_id (store_response f v base) = Session.user_id sess /\
            Session.scores (store_response f v base) = Session.scores sess).
  { intros f v Hf. split; [| exact Hid0].
    intro H. unfold store_response in H.
    cbn [accumulator Session.questionnaire_responses] in H.
    apply dget_dset_present in H. destruct H as [-> | H]; [now right |].
    left. apply Hbase. exact H. }
  clearbody base.
  remember (negb (user_id_truthy sess)) as refused eqn:Er. clear Er.
  destruct (Session.user_id sess) as [uid |] eqn:Euid;
    [| cbn; rewrite Euid; auto].
  destruct refused; [cbn; auto |].
  destruct (py_get data "step" PNone) as [e | step]; [cbn; auto |].
  destruct (py_eq_int step 1); [cbn [snd]; apply Hstore; cbn; auto |].
  destruct (py_eq_int step 2); [cbn [snd]; apply Hstore; cbn; auto |].
  destruct (py_eq_int step 3); [cbn [snd]; apply Hstore; cbn; auto |].
  destruct (py_eq_int step 4); [cbn [snd]; apply Hstore; cbn; auto |].
  cbn [snd]. split; [| exact Hid0].
  intro H. left. apply Hbase. exact H.
Qed.

(** ** The recommendations page at its edges *)

Section RecommendationsEdges.

Variable float_of_str : string -> option Q.

Lemma user_score_missing (us : dict pyval) (f : string) :
  dget f us = None \/ dget f us = Some PNone ->
  exists e, user_score float_of_str us f = raise e.
Proof.
  unfold user_score. cbn [py_getitem].
  intros [-> | ->]; cbn; eauto.
Qed.

Lemma render_major_fails (us : dict pyval) (major : Major.t) (f : string) :
  In f answer_fields ->
  (exists e, user_score float_of_str us f = raise e) ->
  exists e, render_major float_of_str us major = raise e.
Proof.
  intros Hf (e & He). unfold render_major.
  destruct (user_score float_of_str us "analytical") as [e1 | a] eqn:E1;
    [cbn; eauto |].
  destruct (user_score float_of_str us "creative") as [e2 | c] eqn:E2;
    [cbn; eauto |].
  destruct (user_score float_of_str us "social") as [e3 | s] eqn:E3;
    [cbn; eauto |].
  destruct (user_score float_of_str us "technical") as [e4 | t] eqn:E4;
    [cbn; eauto |].
  exfalso. cbn in Hf.
  destruct Hf as [<- | [<- | [<- | [<- | []]]]]; unfold raise in He; congruence.
Qed.

(** X18: for a logged-in user, the page redirects to the questionnaire
    when the session holds no answers; with answers and an empty catalogue
    it renders an empty list whatever the answers are; and with a
    non-empty catalogue it ends in a server error as soon as one of the
    four answers is absent or [None]. *)
Theorem recommendations_without_answers (d : database) (sess : Session.t) :
  user_id_truthy sess = true ->
  (responses_truthy sess = false ->
   recommendations float_of_str d sess
     = (Redirect (UrlQuestionnaire None), sess)) /\
  (responses_truthy sess = true -> majors d = [] ->
   recommendations float_of_str d sess
     = (RenderRecommendations [] (accumulator sess), sess)) /\
  (responses_truthy sess = true -> majors d <> [] ->
   forall f, In f answer_fields ->
             dget f (accumulator sess) = None \/
             dget f (accumulator sess) = Some PNone ->
             recommendations float_of_str d sess = (ServerError, sess)).
Proof.
  intro Hu. unfold recommendations, accumulator.
  pose proof Hu as Hu'. unfold user_id_truthy in Hu'.
  destruct (Session.user_id sess) as [uid |] eqn:Euid; [| discriminate].
  rewrite Hu. cbn [negb].
  split; [| split].
  - intros ->. reflexivity.
  - intros -> ->. reflexivity.
  - intros -> Hne f Hf Hmiss. cbn [negb].
    destruct (majors d) as [| major rest]; [congruence |].
    cbn [render_majors].
    destruct (render_major_fails _ major f Hf (user_score_missing _ f Hmiss))
      as (e & He).
    rewrite He. reflexivity.
Qed.

End RecommendationsEdges.

Lemma recommendations_without_answers_witness :
  recommendations no_str_float sample_db one_answer = (ServerError, one_answer).
Proof.
  destruct (recommendations_without_answers no_str_float sample_db one_answer
              eq_refl) as (_ & _ & H).
  apply (H eq_refl ltac:(discriminate) "creative").
  - cbn. auto.
  - left. reflexivity.
Defined.

(** ** The percentages shown *)






(** ** Career and skill lists *)

Lemma split_comma_not_nil (s : string) : split_comma s <> [].
Proof.
  destruct s as [| c s]; cbn [split_comma]; [discriminate |].
  destruct (Ascii.eqb c ","%char); [discriminate |].
  destruct (split_comma s); discriminate.
Qed.

Lemma concat_cons_char (c : ascii) (w : string) (ws : list string) :
  String.concat "," (String c w :: ws) = String c (String.concat "," (w :: ws)).
Proof. destruct ws; reflexivity. Qed.

Lemma split_comma_join (s : string) : String.concat "," (split_comma s) = s.
Proof.
  induction s as [| c s IH]; [reflexivity |].
  cbn [split_comma]. destruct (Ascii.eqb_spec c ","%char) as [-> | Hne].
  - pose proof (split_comma_not_nil s) as Hnn.
    destruct (split_comma s) as [| w ws]; [congruence |].
    cbn [String.concat]. cbn [String.concat] in IH. rewrite IH. reflexivity.
  - pose proof (split_comma_not_nil s) as Hnn.
    destruct (split_comma s) as [| w ws]; [congruence |].
    rewrite concat_cons_char, IH. reflexivity.
Qed.

Lemma split_comma_pieces (s : string) :
  List.length (split_comma s) = S (count_commas s) /\
  Forall (fun piece => count_commas piece = 0%nat) (split_comma s).
Proof.
  induction s as [| c s [IHl IHf]]; cbn [split_comma count_commas].
  - split; [reflexivity | repeat constructor].
  - destruct (Ascii.eqb c ","%char) eqn:Ec.
    + split; [cbn [List.length]; now rewrite IHl |].
      constructor; [reflexivity | exact IHf].
    + pose proof (split_comma_not_nil s) as Hnn.
      destruct (split_comma s) as [| w ws]; [congruence |].
      split; [exact IHl |].
      inversion IHf as [| ? ? Hw Hws]; subst.
      constructor; [| exact Hws].
      cbn [count_commas]. rewrite Ec. exact Hw.
Qed.

(** X20: the career and skill lists a major is shown with are the pieces
    of the stored text between its commas: there is one piece more than
    there are commas, no piece contains a comma, and joining the pieces
    with commas gives the stored text back. *)
Theorem shown_lists_rejoin (a c s t : Q) (major : Major.t) :
  let r := rendered_entry a c s t major in
  String.concat "," (Rendered.careers r) = Major.careers major /\
  String.concat "," (Rendered.skills r) = Major.skills major /\
  List.length (Rendered.careers r) = S (count_commas (Major.careers major)) /\
  List.length (Rendered.skills r) = S (count_commas (Major.skills major)) /\
  Forall (fun piece => count_commas piece = 0%nat) (Rendered.careers r) /\
  Forall (fun piece => count_commas piece = 0%nat) (Rendered.skills r) /\
  Rendered.name r = Major.name major /\
  Rendered.weights r = (Major.analytical_weight major,
                        Major.creative_weight major,
                        Major.social_weight major,
                        Major.technical_weight major).
Proof.
  cbv zeta. cbn [rendered_entry Rendered.careers Rendered.skills
                 Rendered.name Rendered.weights].
  repeat split;
    first [ apply split_comma_join
          | apply (proj1 (split_comma_pieces _))
          | apply (proj2 (split_comma_pieces _)) ].
Qed.

(** ** Accounts *)

Section AccountFacts.

Variable generate_password_hash : string -> string.
Variable check_password_hash : string -> string -> bool.
Variable strip : string -> string.

Lemma select_user_found (users : list User.t) (email : string) (user : User.t) :
  select_user_by_email users email = Some user ->
  In user users /\ User.email user = email.
Proof.
  unfold select_user_by_email. intro H. apply find_some in H.
  destruct H as [Hin He]. apply String.eqb_eq in He. auto.
Qed.

Lemma select_user_absent (users : list User.t) (email : string) :
  select_user_by_email users email = None <->
  ~ In email (map User.email users).
Proof.
  unfold select_user_by_email. split.
  - intros Hnone Hin. apply in_map_iff in Hin. destruct Hin as (u & He & Hu).
    pose proof (find_none _ _ Hnone u Hu) as Hn. cbv beta in Hn.
    rewrite He, String.eqb_refl in Hn. discriminate.
  - intro Hn.
    destruct (find _ users) as [u |] eqn:E; [| reflexivity].
    exfalso. apply find_some in E. destruct E as [Hin He].
    apply String.eqb_eq in He. apply Hn. rewrite <- He. apply in_map, Hin.
Qed.

Lemma select_user_appended (users : list User.t) (row : User.t) :
  ~ In (User.email row) (map User.email users) ->
  select_user_by_email (users ++ [row]) (User.email row) = Some row.
Proof.
  intro Hn. unfold select_user_by_email.
  induction users as [| u users IH]; cbn [app find].
  - now rewrite String.eqb_refl.
  - destruct (String.eqb_spec (User.email u) (User.email row)) as [E | _].
    + exfalso. apply Hn. left. exact E.
    + apply IH. intro H. apply Hn. right. exact H.
Qed.

Lemma select_user_kept (users : list User.t) (row : User.t) (email : string) :
  User.email row <> email ->
  select_user_by_email (users ++ [row]) email =
  select_user_by_email users email.
Proof.
  intro Hne. unfold select_user_by_email.
  induction users as [| u users IH]; cbn [app find].
  - apply String.eqb_neq in Hne. now rewrite Hne.
  - destruct (String.eqb (User.email u) email); [reflexivity | exact IH].
Qed.

(** X21: [login] logs a logged-out session in exactly when the first
    account whose email is the stripped form email passes the password
    check.  The session is then cleared (answers and scores are dropped)
    and holds that account's id and the one success message.  In every
    other case the session stays logged out and keeps its answers and
    scores.  A session that is already logged in is redirected unchanged,
    whatever credentials are posted. *)
Theorem login_requires_matching_password (users : list User.t)
        (sess : Session.t) (method : http_method) (form : dict string) :
  let out := login check_password_hash strip users sess method form in
  (Session.user_id sess <> None ->
   out = (AuthRedirect (UrlQuestionnaire None), sess)) /\
  (Session.user_id sess = None ->
   (forall uid,
      Session.user_id (snd out) = Some uid <->
      method = POST /\
      exists e p user,
        dget "email" form = Some e /\ dget "password" form = Some p /\
        select_user_by_email users (strip e) = Some user /\
        check_password_hash (User.password user) p = true /\
        User.id user = uid) /\
   (forall uid,
      Session.user_id (snd out) = Some uid ->
      out = (AuthRedirect (UrlQuestionnaire None),
             Session.mk (Some uid) None None
                        [("success", "Successfully logged in!")])) /\
   (Session.user_id (snd out) = None ->
    fst out <> AuthRedirect (UrlQuestionnaire None) /\
    Session.questionnaire_responses (snd out)
      = Session.questionnaire_responses sess /\
    Session.scores (snd out) = Session.scores sess)).
Proof.
  cbv zeta. unfold login. split.
  - intro Hin. destruct (Session.user_id sess); [reflexivity | congruence].
  - intro Hout. rewrite Hout.
    assert (Hrefused : forall (r : auth_response) (s' : Session.t),
              Session.user_id s' = None ->
              Session.questionnaire_responses s'
                = Session.questionnaire_responses sess ->
              Session.scores s' = Session.scores sess ->
              r <> AuthRedirect (UrlQuestionnaire None) ->
              ~ (method = POST /\
                 exists e p user,
                   dget "email" form = Some e /\
                   dget "password" form = Some p /\
                   select_user_by_email users (strip e) = Some user /\
                   check_password_hash (User.password user) p = true) ->
              (forall uid,
                 Session.user_id (snd (r, s')) = Some uid <->
                 method = POST /\
                 exists e p user,
                   dget "email" form = Some e /\
                   dget "password" form = Some p /\
                   select_user_by_email users (strip e) = Some user /\
                   check_password_hash (User.password user) p = true /\
                   User.id user = uid) /\
              (forall uid,
                 Session.user_id (snd (r, s')) = Some uid ->
                 (r, s') = (AuthRedirect (UrlQuestionnaire None),
                            Session.mk (Some uid) None None
                                       [("success", "Successfully logged in!")])) /\
              (Session.user_id (snd (r, s')) = None ->
               fst (r, s') <> AuthRedirect (UrlQuestionnaire None) /\
               Session.questionnaire_responses (snd (r, s'))
                 = Session.questionnaire_responses sess /\
               Session.scores (snd (r, s')) = Session.scores sess)).
    { intros r s' Hnone Hq Hs Hr Hno. cbn [fst snd]. split; [| split].
      - intro uid. split.
        + intro H. congruence.
        + intros (Hm & e & p & user & He & Hp & Hsel & Hc & _).
          exfalso. apply Hno. split; [exact Hm |]. exists e, p, user. auto.
      - intros uid H. congruence.
      - intros _. auto. }
    destruct method.
    { apply Hrefused; auto; try discriminate.
      intros (Hm & _). discriminate. }
    destruct (dget "email" form) as [e |] eqn:Ee.
    2: { apply Hrefused; auto; try discriminate.
         intros (_ & e & p & user & H & _). discriminate. }
    destruct (dget "password" form) as [p |] eqn:Ep.
    2: { apply Hrefused; auto; try discriminate.
         intros (_ & e' & p & user & _ & H & _). discriminate. }
    destruct (select_user_by_email users (strip e)) as [user |] eqn:Eu.
    2: { apply Hrefused; auto; try discriminate.
         intros (_ & e' & p' & user & He & _ & Hsel & _).
         injection He as <-. congruence. }
    destruct (check_password_hash (User.password user) p) eqn:Ec.
    + cbn [fst snd flash set_user_id session_clear Session.user_id
           Session.questionnaire_responses Session.scores Session.flashes app].
      split; [| split].
      * intro uid. split.
        -- intro H. injection H as <-. split; [reflexivity |].
           exists e, p, user. auto.
        -- intros (_ & e' & p' & user' & He & Hp & Hsel & _ & Hid).
           injection He as <-. injection Hp as <-.
           rewrite Eu in Hsel. injection Hsel as <-. now rewrite Hid.
      * intros uid H. injection H as <-. reflexivity.
      * discriminate.
    + apply Hrefused; auto; try discriminate.
      intros (_ & e' & p' & user' & He & Hp & Hsel & Hc).
      injection He as <-. injection Hp as <-.
      rewrite Eu in Hsel. injection Hsel as <-. congruence.
Qed.

End AccountFacts.

Section SignupFacts.

Variable generate_password_hash : string -> string.
Variable check_password_hash : string -> string -> bool.
Variable strip : string -> string.

Lemma signup_error_none_iff (users : list User.t)
      (fn ln e p cp : string) :
  signup_error users fn ln e p cp = None <->
  signup_acceptable users fn ln e p cp.
Proof.
  unfold signup_error, signup_acceptable.
  destruct (String.eqb_spec fn "") as [-> | Hfn];
    [split; [discriminate | intros (H & _); congruence] |].
  destruct (String.eqb_spec ln "") as [-> | Hln];
    [split; [discriminate | intros (_ & H & _); congruence] |].
  destruct (String.eqb_spec e "") as [-> | He];
    [split; [discriminate | intros (_ & _ & H & _); congruence] |].
  destruct (String.eqb_spec p "") as [-> | Hp];
    [split; [discriminate | intros (_ & _ & _ & H & _); congruence] |].
  destruct (String.eqb_spec p cp) as [-> | Hpc]; cbn [negb];
    [| split; [discriminate | intros (_ & _ & _ & _ & H & _); congruence]].
  destruct (select_user_by_email users e) as [u |] eqn:Eu.
  - split; [discriminate |]. intros (_ & _ & _ & _ & _ & Hn).
    apply select_user_absent in Hn. congruence.
  - split; [| reflexivity]. intros _.
    apply select_user_absent in Eu. repeat split; auto.
Qed.

Lemma signup_posted (users : list User.t) (sess : Session.t)
      (form : dict string) (fn ln e p cp : string) :
  dget "first_name" form = Some fn -> dget "last_name" form = Some ln ->
  dget "email" form = Some e -> dget "password" form = Some p ->
  dget "confirm_password" form = Some cp ->
  signup generate_password_hash users sess POST form =
  match signup_error users fn ln e p cp with
  | None =>
      (AuthRedirect UrlIndex,
       fresh_session (next_rowid (map User.id users))
         "Account created successfully! Welcome to RecruitmentBuddy!",
       (users ++ [new_account generate_password_hash users fn ln e p])%list)
  | Some error => (RenderSignup (Some error), flash error "error" sess, users)
  end.
Proof.
  intros Hfn Hln He Hp Hcp. unfold signup.
  rewrite Hfn, Hln, He, Hp, Hcp.
  destruct (signup_error users fn ln e p cp) as [err |] eqn:Eerr;
    [reflexivity |].
  apply signup_error_none_iff in Eerr.
  destruct Eerr as (_ & _ & _ & _ & _ & Hnew).
  assert (Hsel : select_user_by_email
                   (users ++ [new_account generate_password_hash users
                                          fn ln e p]) e
                 = Some (new_account generate_password_hash users fn ln e p))
    by (apply (select_user_appended users
                 (new_account generate_password_hash users fn ln e p)), Hnew).
  unfold new_account in *. rewrite Hsel. reflexivity.
Qed.

(** X22: a posted signup form with its five fields creates an account
    exactly when the first name, last name, email and password are not
    empty, the two passwords are equal and no account has the email.  Then
    one row is appended with a new id and the hash of the password, and
    the session is cleared and logged in as the new account; otherwise the
    table is unchanged, the session is not logged in by the request and
    the page is shown again with an error. *)
Theorem signup_creates_account_iff (users : list User.t) (sess : Session.t)
        (form : dict string) (fn ln e p cp : string) :
  dget "first_name" form = Some fn -> dget "last_name" form = Some ln ->
  dget "email" form = Some e -> dget "password" form = Some p ->
  dget "confirm_password" form = Some cp ->
  let out := signup generate_password_hash users sess POST form in
  (signup_acceptable users fn ln e p cp ->
   out = (AuthRedirect UrlIndex,
          fresh_session (next_rowid (map User.id users))
            "Account created successfully! Welcome to RecruitmentBuddy!",
          (users ++ [new_account generate_password_hash users fn ln e p])%list)) /\
  (~ signup_acceptable users fn ln e p cp ->
   exists error,
     out = (RenderSignup (Some error), flash error "error" sess, users) /\
     Session.user_id (snd (fst out)) = Session.user_id sess) /\
  (snd out <> users <-> signup_acceptable users fn ln e p cp).
Proof using generate_password_hash.
  clear check_password_hash strip.
  intros Hfn Hln He Hp Hcp. cbv zeta.
  rewrite (signup_posted users sess form fn ln e p cp Hfn Hln He Hp Hcp).
  pose proof (signup_error_none_iff users fn ln e p cp) as Hiff.
  destruct (signup_error users fn ln e p cp) as [err |].
  - assert (Hn : ~ signup_acceptable users fn ln e p cp).
    { intro H. apply Hiff in H. discriminate. }
    split; [tauto |]. split.
    + intros _. exists err. split; reflexivity.
    + cbn [snd]. split; [congruence | tauto].
  - assert (Hy : signup_acceptable users fn ln e p cp) by (apply Hiff; reflexivity).
    split; [reflexivity |]. split; [tauto |].
    cbn [snd]. split; [auto |]. intros _ Heq.
    apply (f_equal (@List.length User.t)) in Heq.
    rewrite length_app in Heq. cbn [List.length] in Heq. lia.
Qed.

Lemma signup_outcomes (users : list User.t) (sess : Session.t)
      (method : http_method) (form : dict string) :
  snd (signup generate_password_hash users sess method form) = users \/
  exists fn ln e p,
    ~ In e (map User.email users) /\
    snd (signup generate_password_hash users sess method form) =
      (users ++ [new_account generate_password_hash users fn ln e p])%list.
Proof.
  destruct method; [now left |].
  destruct (dget "first_name" form) as [fn |] eqn:Hfn;
    [| left; unfold signup; rewrite Hfn; reflexivity].
  destruct (dget "last_name" form) as [ln |] eqn:Hln;
    [| left; unfold signup; rewrite Hfn, Hln; reflexivity].
  destruct (dget "email" form) as [e |] eqn:He;
    [| left; unfold signup; rewrite Hfn, Hln, He; reflexivity].
  destruct (dget "password" form) as [p |] eqn:Hp;
    [| left; unfold signup; rewrite Hfn, Hln, He, Hp; reflexivity].
  destruct (dget "confirm_password" form) as [cp |] eqn:Hcp;
    [| left; unfold signup; rewrite Hfn, Hln, He, Hp, Hcp; reflexivity].
  rewrite (signup_posted users sess form fn ln e p cp Hfn Hln He Hp Hcp).
  pose proof (signup_error_none_iff users fn ln e p cp) as Hiff.
  destruct (signup_error users fn ln e p cp) as [err |]; [now left |].
  right. exists fn, ln, e, p. split; [| reflexivity].
  apply Hiff. reflexivity.
Qed.

(** X23: [signup] keeps the accounts well formed whatever is requested:
    if no two accounts share an email and no two share an id before the
    request, the same holds after it; accounts already present are kept
    as they are, and at most one is added. *)
Theorem signup_keeps_accounts_unique (users : list User.t) (sess : Session.t)
        (method : http_method) (form : dict string) :
  NoDup (map User.email users) ->
  NoDup (map User.id users) ->
  let users' := snd (signup generate_password_hash users sess method form) in
  NoDup (map User.email users') /\ NoDup (map User.id users') /\
  extends users' users /\
  (List.length users' <= S (List.length users))%nat.
Proof.
  intros He Hi. cbv zeta.
  destruct (signup_outcomes users sess method form)
    as [-> | (fn & ln & e & p & Hnew & ->)].
  - repeat split; auto. exists []. symmetry. apply app_nil_r.
  - rewrite !map_app, length_app. cbn [map List.length new_account
                                        User.email User.id].
    repeat split.
    + apply NoDup_snoc; assumption.
    + apply NoDup_snoc; [assumption |]. intro Hold.
      apply (proj1 (next_rowid_fresh _)) in Hold. lia.
    + eexists. reflexivity.
    + lia.
Qed.

(** X24: an account that was just created can log in: after a successful
    signup and a logout, posting the same email (one that [strip] leaves
    as it is) and the same password logs the new account in, provided the
    password check accepts the hash of the password it was made from. *)
Theorem signup_then_login (users : list User.t) (sess : Session.t)
        (fn ln e p : string) :
  signup_acceptable users fn ln e p p ->
  strip e = e ->
  check_password_hash (generate_password_hash p) p = true ->
  let created :=
    signup generate_password_hash users sess POST (signup_form fn ln e p p) in
  let users' := snd created in
  let logged_out := snd (logout (snd (fst created))) in
  Session.user_id (snd (fst created)) = Some (next_rowid (map User.id users)) /\
  login check_password_hash strip users' logged_out POST (login_form e p) =
  (AuthRedirect (UrlQuestionnaire None),
   fresh_session (next_rowid (map User.id users)) "Successfully logged in!").
Proof.
  intros Hok Hstrip Hcheck. cbv zeta.
  destruct Hok as (Hfn & Hln & He & Hp & Hpp & Hnew).
  assert (Hsel : select_user_by_email
                   (users ++ [new_account generate_password_hash users
                                          fn ln e p]) e
                 = Some (new_account generate_password_hash users fn ln e p))
    by (apply (select_user_appended users
                 (new_account generate_password_hash users fn ln e p)), Hnew).
  rewrite (signup_posted users sess (signup_form fn ln e p p) fn ln e p p)
    by reflexivity.
  replace (signup_error users fn ln e p p) with (@None string)
    by (symmetry; apply signup_error_none_iff; repeat split; assumption). cbn [fst snd logout fresh_session Session.user_id].
  split; [reflexivity |].
  unfold login. cbn [session_clear Session.user_id login_form dget String.eqb
                     Ascii.eqb Bool.eqb].
  rewrite Hstrip, Hsel. cbn [new_account User.password User.id].
  rewrite Hcheck. reflexivity.
Qed.

End SignupFacts.

(** X25: [signup] stores the email as typed while [login] strips it, so an
    account created with an email that [strip] changes cannot log in with
    that email: unless another account owns the stripped email, every
    login attempt with it is answered "Invalid email address.", whatever
    the password. *)
Theorem unstripped_email_cannot_log_in
        (generate_password_hash : string -> string)
        (check_password_hash : string -> string -> bool)
        (strip : string -> string)
        (users : list User.t) (sess : Session.t) (fn ln e p p' : string) :
  signup_acceptable users fn ln e p p ->
  strip e <> e ->
  ~ In (strip e) (map User.email users) ->
  let created :=
    signup generate_password_hash users sess POST (signup_form fn ln e p p) in
  snd created =
    (users ++ [new_account generate_password_hash users fn ln e p])%list /\
  login check_password_hash strip (snd created) session_clear POST
        (login_form e p') =
  (RenderLogin (Some "Invalid email address."),
   flash "Invalid email address." "error" session_clear).
Proof.
  intros Hok Hstrip Habsent. cbv zeta.
  rewrite (signup_posted generate_password_hash users sess
             (signup_form fn ln e p p) fn ln e p p) by reflexivity.
  replace (signup_error users fn ln e p p) with (@None string)
    by (symmetry; apply signup_error_none_iff; exact Hok).
  cbn [snd]. split; [reflexivity |].
  unfold login. cbn [session_clear Session.user_id login_form dget String.eqb
                     Ascii.eqb Bool.eqb].
  rewrite select_user_kept
    by (cbn [new_account User.email]; congruence).
  apply select_user_absent in Habsent. rewrite Habsent. reflexivity.
Qed.

Lemma grace_acceptable (email : string) :
  ~ In email (map User.email sample_users) -> email <> "" ->
  signup_acceptable sample_users "Grace" "Hopper" email "cobol" "cobol".
Proof. intros Hnew He. repeat split; try discriminate; assumption. Qed.

Lemma login_requires_matching_password_witness :
  login sample_check strip_spaces sample_users session_clear POST
        (login_form " ada@example.org " "engine")
  = (AuthRedirect (UrlQuestionnaire None),
     fresh_session 1 "Successfully logged in!") /\
  Session.user_id
    (snd (login sample_check strip_spaces sample_users session_clear POST
                (login_form "ada@example.org" "guess"))) = None.
Proof.
  destruct (login_requires_matching_password sample_check strip_spaces
              sample_users session_clear POST
              (login_form " ada@example.org " "engine")) as (_ & H).
  destruct (H eq_refl) as (_ & Hs & _).
  split; [apply Hs; reflexivity | reflexivity].
Defined.

Lemma signup_creates_account_iff_witness :
  snd (signup sample_hash sample_users session_clear POST
              (signup_form "Grace" "Hopper" "grace@example.org" "cobol" "cobol"))
  = (sample_users
       ++ [User.mk 2 "Grace" "Hopper" "grace@example.org" "hash:cobol"])%list.
Proof.
  destruct (signup_creates_account_iff sample_hash sample_users session_clear
              (signup_form "Grace" "Hopper" "grace@example.org" "cobol" "cobol")
              "Grace" "Hopper" "grace@example.org" "cobol" "cobol"
              eq_refl eq_refl eq_refl eq_refl eq_refl) as (H & _).
  rewrite H; [reflexivity |].
  apply grace_acceptable; [| discriminate].
  cbn. intros [H0 | []]. discriminate.
Defined.

Lemma signup_keeps_accounts_unique_witness :
  NoDup (map User.email
             (snd (signup sample_hash sample_users session_clear POST
                          (signup_form "Grace" "Hopper" "grace@example.org"
                                       "cobol" "cobol")))).
Proof.
  apply (signup_keeps_accounts_unique sample_hash sample_users session_clear
           POST (signup_form "Grace" "Hopper" "grace@example.org"
                             "cobol" "cobol")).
  - cbn. constructor; [intros [] | constructor].
  - cbn. constructor; [intros [] | constructor].
Defined.

Lemma signup_then_login_witness :
  login sample_check strip_spaces
        (snd (signup sample_hash sample_users session_clear POST
                     (signup_form "Grace" "Hopper" "grace@example.org"
                                  "cobol" "cobol")))
        session_clear POST (login_form "grace@example.org" "cobol")
  = (AuthRedirect (UrlQuestionnaire None),
     fresh_session 2 "Successfully logged in!").
Proof.
  apply (signup_then_login sample_hash sample_check strip_spaces sample_users
           session_clear "Grace" "Hopper" "grace@example.org" "cobol").
  - apply grace_acceptable; [| discriminate].
    cbn. intros [H0 | []]. discriminate.
  - reflexivity.
  - reflexivity.
Defined.

Lemma unstripped_email_cannot_log_in_witness :
  login sample_check strip_spaces
        (snd (signup sample_hash sample_users session_clear POST
                     (signup_form "Grace" "Hopper" " grace@example.org"
                                  "cobol" "cobol")))
        session_clear POST (login_form " grace@example.org" "cobol")
  = (RenderLogin (Some "Invalid email address."),
     flash "Invalid email address." "error" session_clear).
Proof.
  apply (unstripped_email_cannot_log_in sample_hash sample_check strip_spaces
           sample_users session_clear "Grace" "Hopper" " grace@example.org"
           "cobol" "cobol").
  - apply grace_acceptable; [| discriminate].
    cbn. intros [H0 | []]. discriminate.
  - cbn. discriminate.
  - cbn. intros [H0 | []]. discriminate.
Defined.

(** ** Which validation error is reported *)

Lemma check_scores_first_rejected (sc : dict pyval)
      (before after : list string) (f : string) (v : pyval) :
  Forall (field_accepted sc) before ->
  dget f sc = Some v -> score_rejected v = true ->
  check_scores (PDict sc) (before ++ f :: after)
  = raise (ValueError (invalid_score_msg f)).
Proof.
  intros Hbefore Hf Hv.
  induction Hbefore as [| g before (vg & Hg & Hok) _ IH];
    cbn [app check_scores py_getitem].
  - rewrite Hf. cbn [bind ok]. rewrite Hv. reflexivity.
  - rewrite Hg. cbn [bind ok]. rewrite Hok. exact IH.
Qed.

(** X26: the error validation reports.  When the scores object lacks one
    of the four fields the message is "Missing required fields in scores
    data", even if another field holds a bad value; when all four are
    present the message names the first field, in the order analytical,
    creative, social, technical, whose value is not a number within
    [0,10]. *)
Theorem validation_reports_first_bad_field (d sc : dict pyval) :
  dget "scores" d = Some (PDict sc) ->
  ((exists f, In f required_fields /\ dget f sc = None) ->
   validate_questionnaire_input (PDict d)
   = raise (ValueError "Missing required fields in scores data")) /\
  (forall before after f v,
     required_fields = (before ++ f :: after)%list ->
     (forall g, In g required_fields -> dget g sc <> None) ->
     Forall (field_accepted sc) before ->
     dget f sc = Some v -> score_rejected v = true ->
     validate_questionnaire_input (PDict d)
     = raise (ValueError (invalid_score_msg f))).
Proof.
  intro Hsc. rewrite (validate_dict_scores d sc Hsc). split.
  - intros (f & Hin & Hnone).
    destruct (forallb (fun f0 => dmem f0 sc) required_fields) eqn:Hall;
      [| reflexivity].
    rewrite forallb_forall in Hall. specialize (Hall f Hin).
    unfold dmem in Hall. rewrite Hnone in Hall. discriminate.
  - intros before after f v Hsplit Hpresent Hbefore Hf Hv.
    assert (Hall : forallb (fun f0 => dmem f0 sc) required_fields = true).
    { apply forallb_forall. intros g Hg. unfold dmem.
      specialize (Hpresent g Hg). destruct (dget g sc); congruence. }
    rewrite Hall, Hsplit.
    rewrite (check_scores_first_rejected sc before after f v Hbefore Hf Hv).
    reflexivity.
Qed.

Lemma validation_reports_first_bad_field_witness :
  validate_questionnaire_input two_bad_scores
  = raise (ValueError (invalid_score_msg "analytical_score")).
Proof.
  destruct (validation_reports_first_bad_field
              [("scores", scores_dict (PInt 11) (PInt 5) (PStr "7") (PInt 12))]
              [("analytical_score", PInt 11); ("creative_score", PInt 5);
               ("social_score", PStr "7"); ("technical_score", PInt 12)]
              eq_refl) as (_ & H).
  apply (H [] ["creative_score"; "social_score"; "technical_score"]
           "analytical_score" (PInt 11)).
  - reflexivity.
  - intros g [<- | [<- | [<- | [<- | []]]]]; discriminate.
  - constructor.
  - reflexivity.
  - reflexivity.
Defined.

(** ** The registry call, case by case *)

Lemma find_first_split {X : Type} (p : X -> bool) (l : list X) (x : X) :
  find p l = Some x ->
  exists before after,
    l = (before ++ x :: after)%list /\ p x = true /\
    Forall (fun y => p y = false) before.
Proof.
  induction l as [| y l IH]; cbn [find]; [discriminate |].
  destruct (p y) eqn:Ey.
  - intro H. injection H as <-. exists [], l. repeat split; auto.
  - intro H. destruct (IH H) as (before & after & -> & Hx & Hb).
    exists (y :: before), after. repeat split; auto.
Qed.

(** C6: when a row of the registry has the code, the call returns the id
    of the first such row and writes nothing; when no row has it, the call
    appends one row with the code, the placeholder name and description
    and an id no row had, commits, and returns that id.  Either way the id
    returned is the id of a registry row with the requested code, and a
    second call with the same code returns the same id and changes
    nothing, so that two calls create at most one row. *)
Theorem get_personality_type_id_idempotent (c : connection)
        (type_code : string) :
  let first := get_personality_type_id type_code c in
  let second := get_personality_type_id type_code (snd first) in
  let before := personality_types (working c) in
  (exists tid row,
     fst first = ok tid /\ fst second = ok tid /\
     In row (personality_types (working (snd first))) /\
     pt_id row = tid /\ pt_code row = type_code) /\
  snd second = snd first /\
  (In type_code (map pt_code before) ->
   snd first = c /\
   exists earlier row later,
     before = (earlier ++ row :: later)%list /\
     pt_code row = type_code /\
     ~ In type_code (map pt_code earlier) /\
     fst first = ok (pt_id row)) /\
  (~ In type_code (map pt_code before) ->
   exists tid,
     fst first = ok tid /\ ~ In tid (map pt_id before) /\
     personality_types (working (snd second)) =
       (before ++ [mkPType tid type_code ("Type " ++ type_code)
                           "Personality type description"])%list /\
     committed (snd second) = working (snd second) /\
     majors (working (snd second)) = majors (working c) /\
     major_personality_matches (working (snd second)) =
       major_personality_matches (working c) /\
     questionnaire_responses (working (snd second)) =
       questionnaire_responses (working c) /\
     major_recommendations (working (snd second)) =
       major_recommendations (working c) /\
     List.length (rows_with_code type_code (working (snd second))) = 1%nat).
Proof.
  cbv zeta.
  destruct (select_type_by_code (working c) type_code) as [row |] eqn:E.
  - assert (H1 : get_personality_type_id type_code c = (ok (pt_id row), c)).
    { unfold get_personality_type_id. rewrite E. reflexivity. }
    rewrite H1. cbn [fst snd]. rewrite H1. cbn [fst snd].
    destruct (find_first_split _ _ _ E)
      as (earlier & later & Hsplit & Hcode & Hearlier).
    apply String.eqb_eq in Hcode.
    assert (Hin : In row (personality_types (working c))).
    { rewrite Hsplit. apply in_or_app. right. now left. }
    split; [exists (pt_id row), row; auto |].
    split; [reflexivity |].
    split.
    + intros _. split; [reflexivity |].
      exists earlier, row, later. repeat split; auto.
      intro Hc. apply in_map_iff in Hc. destruct Hc as (r & Hr & Hrin).
      rewrite Forall_forall in Hearlier. specialize (Hearlier r Hrin).
      cbv beta in Hearlier. rewrite Hr, String.eqb_refl in Hearlier.
      discriminate.
    + intro Hn. exfalso. apply Hn. apply in_map_iff. exists row. auto.
  - set (tid := next_rowid (map pt_id (personality_types (working c)))).
    set (row := mkPType tid type_code ("Type " ++ type_code)
                        "Personality type description").
    set (w' := mkDb (personality_types (working c) ++ [row])
                    (majors (working c))
                    (major_personality_matches (working c))
                    (questionnaire_responses (working c))
                    (major_recommendations (working c))).
    assert (H1 : get_personality_type_id type_code c = (ok tid, mkConn w' w')).
    { unfold get_personality_type_id. rewrite E. reflexivity. }
    assert (E' : select_type_by_code w' type_code = Some row).
    { unfold select_type_by_code, w'. cbn [personality_types].
      apply select_type_after_insert; [exact E | reflexivity]. }
    assert (H2 : get_personality_type_id type_code (mkConn w' w')
                 = (ok tid, mkConn w' w')).
    { unfold get_personality_type_id. cbn [working]. rewrite E'. reflexivity. }
    rewrite H1. cbn [fst snd]. rewrite H2. cbn [fst snd].
    split.
    { exists tid, row. repeat split; auto.
      cbn [working]. unfold w'. cbn [personality_types].
      apply in_or_app. right. now left. }
    split; [reflexivity |].
    split.
    { intro Hin. exfalso. revert Hin.
      apply (select_none_code_absent (working c) type_code E). }
    intros _. exists tid.
    split; [reflexivity |].
    split.
    { subst tid. intro Hold.
      apply (proj1 (next_rowid_fresh _)) in Hold. lia. }
    cbn [working committed]. unfold w' at 1 2 3 4 5 6.
    cbn [personality_types majors major_personality_matches
         questionnaire_responses major_recommendations].
    repeat (split; [reflexivity |]).
    unfold rows_with_code, w'. cbn [personality_types].
    rewrite filter_app. unfold select_type_by_code in E.
    rewrite (find_none_filter_nil _ _ E). simpl.
    rewrite String.eqb_refl. reflexivity.
Qed.

(* ================================================================== *)
(** * Properties of the binary64 embedding *)
(* ================================================================== *)

(** ** The order of doubles *)

Lemma lex_compare_Lt (a b : Z * Z * Z) :
  B64.lex_compare a b = Lt <-> lex_lt a b.
Proof.
  destruct a as [[a1 a2] a3], b as [[b1 b2] b3]. unfold B64.lex_compare, lex_lt.
  destruct (Z.compare_spec a1 b1); destruct (Z.compare_spec a2 b2);
    destruct (Z.compare_spec a3 b3);
    split; intro; try discriminate; try reflexivity; lia.
Qed.

Lemma lex_compare_Gt (a b : Z * Z * Z) :
  B64.lex_compare a b = Gt <-> lex_lt b a.
Proof.
  destruct a as [[a1 a2] a3], b as [[b1 b2] b3]. unfold B64.lex_compare, lex_lt.
  destruct (Z.compare_spec a1 b1); destruct (Z.compare_spec a2 b2);
    destruct (Z.compare_spec a3 b3);
    split; intro; try discriminate; try reflexivity; lia.
Qed.

Lemma lex_compare_Eq (a b : Z * Z * Z) :
  B64.lex_compare a b = Eq <-> a = b.
Proof.
  destruct a as [[a1 a2] a3], b as [[b1 b2] b3]. unfold B64.lex_compare.
  destruct (Z.compare_spec a1 b1); destruct (Z.compare_spec a2 b2);
    destruct (Z.compare_spec a3 b3);
    split; intro Heq; try discriminate; try reflexivity;
    try (injection Heq; intros; lia); subst; reflexivity.
Qed.

Lemma lex_lt_trans (a b c : Z * Z * Z) : lex_lt a b -> lex_lt b c -> lex_lt a c.
Proof.
  destruct a as [[a1 a2] a3], b as [[b1 b2] b3], c as [[c1 c2] c3].
  unfold lex_lt. lia.
Qed.

Lemma lex_lt_irrefl (a : Z * Z * Z) : ~ lex_lt a a.
Proof. destruct a as [[a1 a2] a3]. unfold lex_lt. lia. Qed.

Lemma lex_lt_total (a b : Z * Z * Z) : lex_lt a b \/ a = b \/ lex_lt b a.
Proof.
  destruct a as [[a1 a2] a3], b as [[b1 b2] b3]. unfold lex_lt.
  assert (H : (a1 = b1 /\ a2 = b2 /\ a3 = b3) \/
              ~ (a1 = b1 /\ a2 = b2 /\ a3 = b3)) by lia.
  destruct H as [(-> & -> & ->) | H]; [right; left; reflexivity |].
  lia.
Qed.

Lemma compare_rank (x y : B64.float) :
  B64.is_nan x = false -> B64.is_nan y = false ->
  SpecFloat.SFcompare x y = Some (B64.lex_compare (B64.rank x) (B64.rank y)).
Proof.
  intros Hx Hy.
  destruct x as [sx | sx | | sx mx ex]; try discriminate;
    destruct y as [sy | sy | | sy my ey]; try discriminate;
    try destruct sx; try destruct sy; try reflexivity.
  cbn [SpecFloat.SFcompare B64.rank B64.lex_compare].
  rewrite Z.compare_opp, (Z.compare_antisym ex ey).
  cbn [Z.compare]. destruct (Z.compare ex ey); reflexivity.
Qed.

Lemma ltb_lex (x y : B64.float) :
  B64.is_nan x = false -> B64.is_nan y = false ->
  (B64.ltb x y = true <-> lex_lt (B64.rank x) (B64.rank y)).
Proof.
  intros Hx Hy. unfold B64.ltb, SpecFloat.SFltb.
  rewrite (compare_rank x y Hx Hy), <- lex_compare_Lt.
  destruct (B64.lex_compare _ _); split; congruence.
Qed.

Lemma leb_lex (x y : B64.float) :
  B64.is_nan x = false -> B64.is_nan y = false ->
  (B64.leb x y = true <-> ~ lex_lt (B64.rank y) (B64.rank x)).
Proof.
  intros Hx Hy. unfold B64.leb, SpecFloat.SFleb.
  rewrite (compare_rank x y Hx Hy), <- lex_compare_Gt.
  destruct (B64.lex_compare _ _); split; congruence.
Qed.

Lemma eqb_lex (x y : B64.float) :
  B64.eqb x y = true ->
  B64.is_nan x = false /\ B64.is_nan y = false /\ B64.rank x = B64.rank y.
Proof.
  unfold B64.eqb, SpecFloat.SFeqb. intro H.
  assert (Hx : B64.is_nan x = false) by (destruct x; [..| discriminate |]; reflexivity).
  assert (Hy : B64.is_nan y = false)
    by (destruct y; [..| destruct x; discriminate |]; reflexivity).
  rewrite (compare_rank x y Hx Hy) in H.
  destruct (B64.lex_compare _ _) eqn:E; try discriminate.
  apply lex_compare_Eq in E. auto.
Qed.

(** For doubles that are not nan: [x < y] fails exactly when [y <= x];
    [<=] is transitive; and equal doubles are not below each other. *)
Lemma ltb_false_leb (x y : B64.float) :
  B64.is_nan x = false -> B64.is_nan y = false ->
  B64.ltb x y = false -> B64.leb y x = true.
Proof.
  intros Hx Hy H. apply (leb_lex y x Hy Hx). intro Hlt.
  apply (ltb_lex x y Hx Hy) in Hlt. congruence.
Qed.

Lemma ltb_true_leb (x y : B64.float) :
  B64.is_nan x = false -> B64.is_nan y = false ->
  B64.ltb x y = true -> B64.leb x y = true.
Proof.
  intros Hx Hy H. apply (leb_lex x y Hx Hy). intro Hlt.
  apply (ltb_lex x y Hx Hy) in H.
  apply (lex_lt_irrefl (B64.rank x)). eapply lex_lt_trans; eassumption.
Qed.

Lemma leb_trans (x y z : B64.float) :
  B64.is_nan x = false -> B64.is_nan y = false -> B64.is_nan z = false ->
  B64.leb x y = true -> B64.leb y z = true -> B64.leb x z = true.
Proof.
  intros Hx Hy Hz Hxy Hyz.
  apply (leb_lex x y Hx Hy) in Hxy. apply (leb_lex y z Hy Hz) in Hyz.
  apply (leb_lex x z Hx Hz). intro Hlt.
  destruct (lex_lt_total (B64.rank x) (B64.rank y)) as [H | [H | H]].
  - apply Hyz. eapply lex_lt_trans; eassumption.
  - apply Hyz. rewrite <- H. exact Hlt.
  - contradiction.
Qed.

Lemma equal_keys_not_below (x y k : B64.float) :
  B64.eqb x k = true -> B64.eqb y k = true -> B64.ltb x y = false.
Proof.
  intros Hxk Hyk.
  destruct (eqb_lex x k Hxk) as (Hx & _ & Rx).
  destruct (eqb_lex y k Hyk) as (Hy & _ & Ry).
  destruct (B64.ltb x y) eqn:E; [| reflexivity].
  apply (ltb_lex x y Hx Hy) in E. rewrite Rx, Ry in E.
  exfalso. exact (lex_lt_irrefl _ E).
Qed.

(** ** The stable descending sort on float keys *)

Section SortDesc64.

Context {A : Type}.
Variable key : A -> B64.float.

Lemma insert_desc64_perm (x : A) (l : list A) :
  Permutation (insert_desc64 key x l) (x :: l).
Proof.
  induction l as [| y l IH]; cbn [insert_desc64].
  - apply Permutation_refl.
  - destruct (B64.ltb (key x) (key y)).
    + eapply perm_trans; [apply perm_skip, IH | apply perm_swap].
    + apply Permutation_refl.
Qed.

Lemma sort_desc64_perm (l : list A) : Permutation (sort_desc64 key l) l.
Proof.
  induction l as [| x l IH]; cbn [sort_desc64 fold_right].
  - apply perm_nil.
  - eapply perm_trans; [apply insert_desc64_perm | apply perm_skip, IH].
Qed.

Lemma insert_desc64_sorted (x : A) (l : list A) :
  has_number key x -> Forall (has_number key) l ->
  StronglySorted (desc64 key) l -> StronglySorted (desc64 key) (insert_desc64 key x l).
Proof.
  intros Hx Hl Hs. induction Hs as [| y l Hs IH Hall]; cbn [insert_desc64].
  - constructor; constructor.
  - inversion Hl as [| ? ? Hy Hl']; subst.
    destruct (B64.ltb (key x) (key y)) eqn:E.
    + constructor; [apply IH, Hl' |].
      eapply Permutation_Forall;
        [apply Permutation_sym, insert_desc64_perm |].
      constructor; [| exact Hall].
      apply ltb_true_leb; assumption.
    + assert (Hyx : desc64 key x y) by (apply ltb_false_leb; assumption).
      constructor; [constructor; assumption |].
      constructor; [exact Hyx |].
      rewrite Forall_forall in Hall, Hl'. apply Forall_forall.
      intros z Hz. unfold desc64 in *.
      apply (leb_trans (key z) (key y) (key x)); auto.
      apply Hl', Hz.
Qed.

Lemma sort_desc64_sorted (l : list A) :
  Forall (has_number key) l -> StronglySorted (desc64 key) (sort_desc64 key l).
Proof.
  induction 1 as [| x l Hx Hl IH]; cbn [sort_desc64 fold_right].
  - constructor.
  - apply insert_desc64_sorted; [exact Hx | | exact IH].
    eapply Permutation_Forall;
      [apply Permutation_sym, sort_desc64_perm | exact Hl].
Qed.

Lemma insert_desc64_filter (k : B64.float) (x : A) (l : list A) :
  filter (fun y => B64.eqb (key y) k) (insert_desc64 key x l) =
  filter (fun y => B64.eqb (key y) k) (x :: l).
Proof.
  induction l as [| y l IH]; [reflexivity |].
  cbn [insert_desc64].
  destruct (B64.ltb (key x) (key y)) eqn:E; [| reflexivity].
  cbn [filter] in *. rewrite IH.
  destruct (B64.eqb (key x) k) eqn:Ex; [| reflexivity].
  destruct (B64.eqb (key y) k) eqn:Ey; [| reflexivity].
  rewrite (equal_keys_not_below _ _ _ Ex Ey) in E. discriminate.
Qed.

Lemma sort_desc64_stable (k : B64.float) (l : list A) :
  filter (fun y => B64.eqb (key y) k) (sort_desc64 key l) =
  filter (fun y => B64.eqb (key y) k) l.
Proof.
  induction l as [| x l IH]; [reflexivity |].
  cbn [sort_desc64 fold_right]. rewrite insert_desc64_filter.
  cbn [filter]. fold (sort_desc64 key l). rewrite IH. reflexivity.
Qed.

End SortDesc64.

(** ** The classifier in binary64 *)

Example binary64_literals :
  B64.of_Q (1 # 10) = SpecFloat.S754_finite false 7205759403792794 (-56) /\
  B64.of_Q (7 # 10) = SpecFloat.S754_finite false 6305039478318694 (-53) /\
  B64.of_Z 10 = SpecFloat.S754_finite false 5629499534213120 (-49) /\
  B64.div (B64.of_Z 7) (B64.of_Z 10) = B64.of_Q (7 # 10) /\
  B64.to_Q (B64.of_Q (1 # 2)) = Some (4503599627370496 # 9007199254740992).
Proof. repeat split; vm_compute; reflexivity. Qed.

(** Both comparisons of the range test are false of nan, which it lets
    through; the infinities are refused like every double below 0 or above
    10. *)
Example range_test_on_special_doubles :
  out_of_range64 B64.nan = false /\
  out_of_range64 (SpecFloat.S754_infinity false) = true /\
  out_of_range64 (SpecFloat.S754_infinity true) = true /\
  out_of_range64 (B64.of_Z 0) = false /\
  out_of_range64 (B64.of_Z 10) = false /\
  out_of_range64 (B64.of_Z 11) = true /\
  out_of_range64 (B64.of_Z (-1)) = true.
Proof. repeat split; vm_compute; reflexivity. Qed.

(** The sum of 10 - 2^-49 and 2^-50 rounds to 10, so that the axis value
    is 0.5 and the letter is T, where the exact quotient is below 1/2. *)
Example rounded_sum_reaches_one_half :
  let s := mkScores ((10 * 2 ^ 49 - 1) # (2 ^ 49)) 0 0 (1 # 2 ^ 50) in
  scores_in_range s /\
  code64 (fst (get_personality_type64 s)) = "ISTJ" /\
  code (fst (get_personality_type s)) = "ISFJ".
Proof.
  cbv zeta. split; [| split; vm_compute; reflexivity].
  repeat split; unfold Qle; simpl; lia.
Qed.

Lemma in_small_ints (x : Z) : (0 <= x <= 10)%Z -> In x small_ints.
Proof.
  intro H.
  assert (E : (x = 0 \/ x = 1 \/ x = 2 \/ x = 3 \/ x = 4 \/ x = 5 \/ x = 6 \/
               x = 7 \/ x = 8 \/ x = 9 \/ x = 10)%Z) by lia.
  unfold small_ints. cbn [In]. intuition auto.
Qed.

Lemma single_axis_agrees (x : Z) :
  (0 <= x <= 10)%Z ->
  B64.leb (B64.of_Q (1 # 2))
          (B64.div (B64.of_Q (inject_Z x)) (B64.of_Z 10))
  = Qle_bool (1 # 2) (inject_Z x / 10).
Proof.
  intro Hx.
  assert (Hall : forallb
            (fun x => Bool.eqb
                        (B64.leb (B64.of_Q (1 # 2))
                                 (B64.div (B64.of_Q (inject_Z x))
                                          (B64.of_Z 10)))
                        (Qle_bool (1 # 2) (inject_Z x / 10)))
            small_ints = true) by (vm_compute; reflexivity).
  rewrite forallb_forall in Hall.
  apply Bool.eqb_prop. apply Hall. apply in_small_ints, Hx.
Qed.

Lemma sum_axis_agrees (x y : Z) :
  (0 <= x <= 10)%Z -> (0 <= y <= 10)%Z ->
  B64.leb (B64.of_Q (1 # 2))
          (B64.div (B64.add (B64.of_Q (inject_Z x)) (B64.of_Q (inject_Z y)))
                   (B64.of_Z 20))
  = Qle_bool (1 # 2) ((inject_Z x + inject_Z y) / 20).
Proof.
  intros Hx Hy.
  assert (Hall : forallb
            (fun x =>
               forallb
                 (fun y => Bool.eqb
                             (B64.leb (B64.of_Q (1 # 2))
                                      (B64.div (B64.add (B64.of_Q (inject_Z x))
                                                        (B64.of_Q (inject_Z y)))
                                               (B64.of_Z 20)))
                             (Qle_bool (1 # 2)
                                       ((inject_Z x + inject_Z y) / 20)))
                 small_ints)
            small_ints = true) by (vm_compute; reflexivity).
  rewrite forallb_forall in Hall.
  specialize (Hall x (in_small_ints x Hx)). cbv beta in Hall.
  rewrite forallb_forall in Hall.
  apply Bool.eqb_prop. apply Hall. apply in_small_ints, Hy.
Qed.

Lemma high_letter64 (x : B64.float) (hi lo : string) (h l : ascii) :
  hi = String h "" -> lo = String l "" -> h <> l ->
  exists ch : ascii,
    (if B64.leb (B64.of_Q (1 # 2)) x then hi else lo) = String ch "" /\
    (ch = h <-> B64.leb (B64.of_Q (1 # 2)) x = true) /\
    (ch = l <-> B64.leb (B64.of_Q (1 # 2)) x = false).
Proof.
  intros -> -> Hne.
  destruct (B64.leb (B64.of_Q (1 # 2)) x).
  - exists h. repeat split; auto; intro; congruence.
  - exists l. repeat split; auto; intro; congruence.
Qed.

(** C3: for scores within [0,10] the four axis values are the doubles
    social/10.0, creative/10.0, (analytical+technical)/20.0 and
    (technical+creative)/20.0, each sum and each quotient rounded as
    binary64 rounds; the code is four letters in the order E/I, N/S, T/F,
    J/P, each the high letter (E, N, T, P) exactly when its axis value
    compares >= 0.5; the scores (8, 3, 9, 6) give "ESTJ"; and for integer
    scores from 0 to 10 the code is the one exact arithmetic gives. *)
Theorem personality_code_binary64 (s : RawScores) :
  scores_in_range s ->
  let p := fst (get_personality_type64 s) in
  let d := scores64 p in
  let half := B64.of_Q (1 # 2) in
  snd (get_personality_type64 s) = d /\
  ei64 d = B64.div (B64.of_Q (social_score s)) (B64.of_Z 10) /\
  sn64 d = B64.div (B64.of_Q (creative_score s)) (B64.of_Z 10) /\
  tf64 d = B64.div (B64.add (B64.of_Q (analytical_score s))
                            (B64.of_Q (technical_score s))) (B64.of_Z 20) /\
  jp64 d = B64.div (B64.add (B64.of_Q (technical_score s))
                            (B64.of_Q (creative_score s))) (B64.of_Z 20) /\
  (exists l1 l2 l3 l4 : ascii,
      code64 p = String l1 (String l2 (String l3 (String l4 ""))) /\
      (l1 = "E"%char <-> B64.leb half (ei64 d) = true) /\
      (l1 = "I"%char <-> B64.leb half (ei64 d) = false) /\
      (l2 = "N"%char <-> B64.leb half (sn64 d) = true) /\
      (l2 = "S"%char <-> B64.leb half (sn64 d) = false) /\
      (l3 = "T"%char <-> B64.leb half (tf64 d) = true) /\
      (l3 = "F"%char <-> B64.leb half (tf64 d) = false) /\
      (l4 = "P"%char <-> B64.leb half (jp64 d) = true) /\
      (l4 = "J"%char <-> B64.leb half (jp64 d) = false)) /\
  code64 (fst (get_personality_type64 (mkScores 8 3 9 6))) = "ESTJ" /\
  (forall a c so t : Z,
     (0 <= a <= 10)%Z -> (0 <= c <= 10)%Z ->
     (0 <= so <= 10)%Z -> (0 <= t <= 10)%Z ->
     code64 (fst (get_personality_type64 (integer_scores a c so t))) =
     code (fst (get_personality_type (integer_scores a c so t)))).
Proof.
  intros _. cbv zeta. unfold get_personality_type64 at 1 2 3 4 5 6 7.
  cbn [fst snd scores64 code64 ei64 sn64 tf64 jp64].
  repeat (split; [reflexivity |]).
  split; [| split; [vm_compute; reflexivity |]].
  - destruct (high_letter64
                (B64.div (B64.of_Q (social_score s)) (B64.of_Z 10))
                "E" "I" "E" "I")
      as (l1 & E1 & H1 & H1'); try reflexivity; try discriminate.
    destruct (high_letter64
                (B64.div (B64.of_Q (creative_score s)) (B64.of_Z 10))
                "N" "S" "N" "S")
      as (l2 & E2 & H2 & H2'); try reflexivity; try discriminate.
    destruct (high_letter64
                (B64.div (B64.add (B64.of_Q (analytical_score s))
                                  (B64.of_Q (technical_score s)))
                         (B64.of_Z 20))
                "T" "F" "T" "F")
      as (l3 & E3 & H3 & H3'); try reflexivity; try discriminate.
    destruct (high_letter64
                (B64.div (B64.add (B64.of_Q (technical_score s))
                                  (B64.of_Q (creative_score s)))
                         (B64.of_Z 20))
                "P" "J" "P" "J")
      as (l4 & E4 & H4 & H4'); try reflexivity; try discriminate.
    exists l1, l2, l3, l4.
    rewrite E1, E2, E3, E4. cbn [append].
    repeat split; tauto.
  - intros a c so t Ha Hc Hso Ht.
    unfold get_personality_type64, get_personality_type, integer_scores.
    cbn [fst code64 code analytical_score creative_score social_score
         technical_score].
    rewrite (single_axis_agrees so Hso), (single_axis_agrees c Hc),
      (sum_axis_agrees a t Ha Ht), (sum_axis_agrees t c Ht Hc).
    reflexivity.
Qed.

(** The scores of the end-to-end example. *)
Lemma personality_code_binary64_witness :
  code64 (fst (get_personality_type64 (mkScores 8 3 9 6))) = "ESTJ".
Proof.
  assert (H : scores_in_range (mkScores 8 3 9 6))
    by (repeat split; unfold Qle; simpl; lia).
  destruct (personality_code_binary64 (mkScores 8 3 9 6) H)
    as (_ & _ & _ & _ & _ & _ & Hcode & _).
  exact Hcode.
Defined.

(** ** Magnitudes of binary64 results

    The operations give nan only from nan, from infinities or from 0/0, and
    an infinity only by overflow.  A result stays zero or finite as long as
    the magnitudes of the operands are bounded; the bound below counts
    binary digits and loses one or two at every operation, which leaves
    room enough for the few operations of a score. *)

Module B64Facts.
Import SpecFloat.
Local Open Scope Z_scope.

Lemma digits2_pos_size (p : positive) : digits2_pos p = Pos.size p.
Proof. induction p; cbn; congruence. Qed.

Lemma Zdigits2_nonneg (z : Z) : 0 <= Zdigits2 z.
Proof. destruct z; cbn; lia. Qed.

Lemma Zdigits2_lt_pow (z : Z) : 0 <= z -> z < 2 ^ Zdigits2 z.
Proof.
  intro H. destruct z as [| p | p]; [reflexivity | | lia].
  cbn [Zdigits2]. rewrite digits2_pos_size.
  pose proof (Pos.size_gt p) as Hp.
  apply Pos2Z.pos_lt_pos in Hp. rewrite Pos2Z.inj_pow in Hp. exact Hp.
Qed.

Lemma Zdigits2_le_bound (z k : Z) :
  0 <= z -> 0 <= k -> z < 2 ^ k -> Zdigits2 z <= k.
Proof.
  intros Hz Hk Hlt. destruct z as [| p | p]; [exact Hk | | lia].
  cbn [Zdigits2]. rewrite digits2_pos_size.
  pose proof (Pos.size_le p) as Hp.
  apply Pos2Z.pos_le_pos in Hp. rewrite Pos2Z.inj_pow in Hp.
  rewrite (Pos2Z.inj_xO p) in Hp.
  assert (Hpow : 2 ^ Z.pos (Pos.size p) < 2 ^ (k + 1)).
  { rewrite Z.pow_add_r by lia. change (2 ^ 1) with 2. lia. }
  apply Z.pow_lt_mono_r_iff in Hpow; lia.
Qed.

Lemma Zdigits2_succ (m m' : Z) :
  0 <= m -> m <= m' <= m + 1 -> Zdigits2 m' <= Zdigits2 m + 1.
Proof.
  intros Hm Hm'. pose proof (Zdigits2_nonneg m) as Hd.
  apply Zdigits2_le_bound; [lia | lia |].
  pose proof (Zdigits2_lt_pow m Hm) as Hlt.
  rewrite Z.pow_add_r by lia. change (2 ^ 1) with 2. lia.
Qed.

Lemma shr_1_digits (mrs : shr_record) :
  0 <= shr_m mrs ->
  0 <= shr_m (shr_1 mrs) /\
  Zdigits2 (shr_m (shr_1 mrs)) = Z.max (Zdigits2 (shr_m mrs) - 1) 0.
Proof.
  destruct mrs as [m r s]. cbn [shr_m]. intro H.
  destruct m as [| p | p]; [cbn; lia | | lia].
  destruct p; cbn [shr_1 shr_m Zdigits2 digits2_pos];
    try rewrite Pos2Z.inj_succ; lia.
Qed.

Lemma iter_shr_digits (p : positive) :
  forall mrs : shr_record,
    0 <= shr_m mrs ->
    0 <= shr_m (iter_pos shr_1 p mrs) /\
    Zdigits2 (shr_m (iter_pos shr_1 p mrs))
    = Z.max (Zdigits2 (shr_m mrs) - Zpos p) 0.
Proof.
  induction p as [p IH | p IH |]; intros mrs H; cbn [iter_pos].
  - destruct (shr_1_digits mrs H) as [A B].
    destruct (IH _ A) as [C D]. destruct (IH _ C) as [E F].
    split; [exact E |]. rewrite F, D, B, Pos2Z.inj_xI. lia.
  - destruct (IH _ H) as [C D]. destruct (IH _ C) as [E F].
    split; [exact E |]. rewrite F, D, Pos2Z.inj_xO. lia.
  - apply shr_1_digits, H.
Qed.

Lemma shr_m_of_loc (m : Z) (l : location) : shr_m (shr_record_of_loc m l) = m.
Proof. destruct l as [| []]; reflexivity. Qed.

(** One shift to the canonical exponent: the mantissa stays non-negative,
    the magnitude does not grow above the least exponent, and the new
    exponent is the old one or the canonical one. *)
Lemma shr_fexp_bound (m e : Z) (l : location) :
  0 <= m ->
  let r := shr_fexp 53 1024 m e l in
  0 <= shr_m (fst r) /\
  Zdigits2 (shr_m (fst r)) + snd r <= Z.max (Zdigits2 m + e) (-1074) /\
  snd r <= Z.max e (Z.max (Zdigits2 m + e - 53) (-1074)).
Proof.
  intros Hm. cbv zeta. unfold shr_fexp, shr, fexp, emin.
  pose proof (Zdigits2_nonneg m) as Hd.
  destruct (Z.max (Zdigits2 m + e - 53) (3 - 1024 - 53) - e) as [| p | p] eqn:E;
    cbn [fst snd]; rewrite ?shr_m_of_loc; try (repeat split; lia).
  destruct (iter_shr_digits p (shr_record_of_loc m l)) as [A B];
    [rewrite shr_m_of_loc; exact Hm |].
  rewrite shr_m_of_loc in B. rewrite B. repeat split; lia.
Qed.

Lemma round_nearest_even_bound (m : Z) (l : location) :
  m <= round_nearest_even m l <= m + 1.
Proof.
  destruct l as [| []]; cbn [round_nearest_even];
    try destruct (Z.even m); lia.
Qed.

Lemma binary_round_aux_below (sx : bool) (mx ex : Z) (lx : location) (k : Z) :
  0 <= mx -> Zdigits2 mx + ex <= k -> -1074 <= k <= 969 ->
  below_pow (k + 1) (binary_round_aux 53 1024 sx mx ex lx).
Proof.
  intros Hm Hk Hrange. unfold binary_round_aux.
  pose proof (shr_fexp_bound mx ex lx Hm) as H1. cbv zeta in H1.
  destruct (shr_fexp 53 1024 mx ex lx) as [mrs' e'] eqn:E1.
  cbn [fst snd] in H1. destruct H1 as (A1 & B1 & C1).
  pose proof (round_nearest_even_bound (shr_m mrs') (loc_of_shr_record mrs'))
    as Hr.
  set (m2 := round_nearest_even (shr_m mrs') (loc_of_shr_record mrs')) in *.
  pose proof (Zdigits2_succ (shr_m mrs') m2 A1 Hr) as Hd2.
  assert (Hm2 : 0 <= m2) by lia.
  pose proof (shr_fexp_bound m2 e' loc_Exact Hm2) as H2. cbv zeta in H2.
  destruct (shr_fexp 53 1024 m2 e' loc_Exact) as [mrs'' e''] eqn:E2.
  cbn [fst snd] in H2. destruct H2 as (A2 & B2 & C2).
  pose proof (Zdigits2_nonneg mx) as Hdx.
  pose proof (Zdigits2_nonneg (shr_m mrs')) as Hd1.
  pose proof (Zdigits2_nonneg m2) as Hdm2.
  destruct (shr_m mrs'') as [| m | m] eqn:E3; [| | lia].
  - split; [lia | exact I].
  - assert (Hm3 : 1 <= Zdigits2 (Z.pos m)) by (cbn; lia).
    assert (He : e'' <= 1024 - 53) by lia.
    apply Z.leb_le in He. rewrite He.
    split; [lia |]. lia.
Qed.


Lemma below_pow_weaken (k k' : Z) (x : B64.float) :
  below_pow k x -> k <= k' <= 970 -> below_pow k' x.
Proof.
  intros [Hr Hx] Hk. split; [lia |].
  destruct x as [s | s | | s m e]; auto. lia.
Qed.

Lemma below_pow_not_nan (k : Z) (x : B64.float) :
  below_pow k x -> B64.is_nan x = false.
Proof. intros [_ Hx]. destruct x; auto. contradiction. Qed.

Lemma below_pow_finite (k : Z) (x : B64.float) :
  below_pow k x -> B64.to_Q x <> None.
Proof. intros [_ Hx]. destruct x; try contradiction; discriminate. Qed.

Lemma iter_xO_value (m d : positive) :
  Zpos (Pos.iter xO m d) = Zpos m * 2 ^ Zpos d.
Proof.
  induction d as [| d IH] using Pos.peano_ind.
  - cbn [Pos.iter]. rewrite Pos2Z.inj_xO. change (2 ^ 1) with 2. lia.
  - rewrite Pos.iter_succ, Pos2Z.inj_xO, IH, Pos2Z.inj_succ.
    rewrite Z.pow_succ_r by lia. lia.
Qed.

Lemma iter_xO_digits (m d : positive) :
  Zdigits2 (Zpos (Pos.iter xO m d)) = Zdigits2 (Zpos m) + Zpos d.
Proof.
  cbn [Zdigits2].
  induction d as [| d IH] using Pos.peano_ind.
  - cbn [Pos.iter digits2_pos]. lia.
  - rewrite Pos.iter_succ. cbn [digits2_pos].
    rewrite !Pos2Z.inj_succ, IH. lia.
Qed.

(** Aligning a mantissa to a smaller exponent keeps the magnitude. *)
Lemma shl_align_digits (mx : positive) (ex ex' : Z) :
  Zdigits2 (Zpos (fst (shl_align mx ex ex'))) + snd (shl_align mx ex ex')
  = Zdigits2 (Zpos mx) + ex /\
  (ex' <= ex -> snd (shl_align mx ex ex') = ex').
Proof.
  unfold shl_align. destruct (ex' - ex) as [| d | d] eqn:E; cbn [fst snd].
  - split; [reflexivity | lia].
  - split; [reflexivity | lia].
  - rewrite iter_xO_digits. split; lia.
Qed.

Lemma binary_round_below (sx : bool) (mx : positive) (ex k : Z) :
  Zdigits2 (Zpos mx) + ex <= k -> -1074 <= k <= 969 ->
  below_pow (k + 1) (binary_round 53 1024 sx mx ex).
Proof.
  intros Hk Hr. unfold binary_round.
  pose proof (shl_align_digits mx ex
                (fexp 53 1024 (Zpos (digits2_pos mx) + ex))) as [Hd _].
  destruct (shl_align mx ex (fexp 53 1024 (Zpos (digits2_pos mx) + ex)))
    as [mz ez].
  cbn [fst snd] in Hd.
  apply binary_round_aux_below; [lia | lia | exact Hr].
Qed.

Lemma Zdigits2_opp (z : Z) : Zdigits2 (- z) = Zdigits2 z.
Proof. destruct z; reflexivity. Qed.

Lemma binary_normalize_below (m e : Z) (szero : bool) (k : Z) :
  Zdigits2 m + e <= k -> -1074 <= k <= 969 ->
  below_pow (k + 1) (binary_normalize 53 1024 m e szero).
Proof.
  intros Hk Hr. destruct m as [| p | p]; cbn [binary_normalize].
  - split; [lia | exact I].
  - apply binary_round_below; assumption.
  - apply binary_round_below; assumption.
Qed.

(** The magnitude of a sum or difference of two aligned mantissas. *)
Lemma aligned_sum_digits (m1 m2 : positive) (e k : Z) (z : Z) :
  Zdigits2 (Zpos m1) + e <= k -> Zdigits2 (Zpos m2) + e <= k ->
  Z.abs z <= Zpos m1 + Zpos m2 ->
  Zdigits2 z + e <= k + 1.
Proof.
  intros H1 H2 Hz.
  pose proof (Zdigits2_lt_pow (Zpos m1) ltac:(lia)) as P1.
  pose proof (Zdigits2_lt_pow (Zpos m2) ltac:(lia)) as P2.
  assert (D1 : 1 <= Zdigits2 (Zpos m1)) by (cbn; lia).
  assert (D2 : 1 <= Zdigits2 (Zpos m2)) by (cbn; lia).
  assert (Q1 : 2 ^ Zdigits2 (Zpos m1) <= 2 ^ (k - e))
    by (apply Z.pow_le_mono_r; lia).
  assert (Q2 : 2 ^ Zdigits2 (Zpos m2) <= 2 ^ (k - e))
    by (apply Z.pow_le_mono_r; lia).
  assert (Hd : Zdigits2 (Z.abs z) <= k - e + 1).
  { apply Zdigits2_le_bound; [lia | lia |].
    rewrite Z.pow_add_r by lia. change (2 ^ 1) with 2. lia. }
  assert (Habs : Zdigits2 (Z.abs z) = Zdigits2 z)
    by (destruct z; reflexivity).
  lia.
Qed.

Lemma cond_Zopp_abs (s : bool) (z : Z) : Z.abs (cond_Zopp s z) = Z.abs z.
Proof. destruct s; cbn [cond_Zopp]; lia. Qed.

Lemma add_below (k : Z) (x y : B64.float) :
  below_pow k x -> below_pow k y -> k <= 968 ->
  below_pow (k + 2) (B64.add x y).
Proof.
  intros [Hr Hx] [_ Hy] Hk.
  destruct x as [sx | sx | | sx mx ex]; try contradiction;
    destruct y as [sy | sy | | sy my ey]; try contradiction;
    unfold B64.add; cbn [SFadd].
  - destruct sx, sy; split; try lia; exact I.
  - split; [lia | cbn in *; lia].
  - split; [lia | cbn in *; lia].
  - set (ez := Z.min ex ey).
    destruct (shl_align_digits mx ex ez) as [Dx Ex].
    destruct (shl_align_digits my ey ez) as [Dy Ey].
    rewrite Ex in Dx by (unfold ez; lia).
    rewrite Ey in Dy by (unfold ez; lia).
    replace (k + 2) with (k + 1 + 1) by lia.
    apply binary_normalize_below; [| lia].
    apply (aligned_sum_digits (fst (shl_align mx ex ez))
                              (fst (shl_align my ey ez))); try lia.
    pose proof (cond_Zopp_abs sx (Zpos (fst (shl_align mx ex ez)))).
    pose proof (cond_Zopp_abs sy (Zpos (fst (shl_align my ey ez)))).
    lia.
Qed.

Lemma sub_below (k : Z) (x y : B64.float) :
  below_pow k x -> below_pow k y -> k <= 968 ->
  below_pow (k + 2) (B64.sub x y).
Proof.
  intros [Hr Hx] [_ Hy] Hk.
  destruct x as [sx | sx | | sx mx ex]; try contradiction;
    destruct y as [sy | sy | | sy my ey]; try contradiction;
    unfold B64.sub; cbn [SFsub].
  - destruct sx, sy; split; try lia; exact I.
  - split; [lia | cbn in *; lia].
  - split; [lia | cbn in *; lia].
  - set (ez := Z.min ex ey).
    destruct (shl_align_digits mx ex ez) as [Dx Ex].
    destruct (shl_align_digits my ey ez) as [Dy Ey].
    rewrite Ex in Dx by (unfold ez; lia).
    rewrite Ey in Dy by (unfold ez; lia).
    replace (k + 2) with (k + 1 + 1) by lia.
    apply binary_normalize_below; [| lia].
    apply (aligned_sum_digits (fst (shl_align mx ex ez))
                              (fst (shl_align my ey ez))); try lia.
    pose proof (cond_Zopp_abs sx (Zpos (fst (shl_align mx ex ez)))).
    pose proof (cond_Zopp_abs sy (Zpos (fst (shl_align my ey ez)))).
    lia.
Qed.

Lemma abs_below (k : Z) (x : B64.float) :
  below_pow k x -> below_pow k (B64.abs x).
Proof.
  intros [Hr Hx]. split; [exact Hr |].
  destruct x; try contradiction; exact Hx.
Qed.

Lemma mul_digits (m1 m2 : positive) :
  Zdigits2 (Zpos (m1 * m2)) <= Zdigits2 (Zpos m1) + Zdigits2 (Zpos m2).
Proof.
  pose proof (Zdigits2_lt_pow (Zpos m1) ltac:(lia)) as P1.
  pose proof (Zdigits2_lt_pow (Zpos m2) ltac:(lia)) as P2.
  pose proof (Zdigits2_nonneg (Zpos m1)) as D1.
  pose proof (Zdigits2_nonneg (Zpos m2)) as D2.
  apply Zdigits2_le_bound; [lia | lia |].
  rewrite Z.pow_add_r by lia. rewrite Pos2Z.inj_mul.
  apply Z.mul_lt_mono_nonneg; lia.
Qed.

Lemma mul_below (k1 k2 : Z) (x y : B64.float) :
  below_pow k1 x -> below_pow k2 y ->
  -1074 <= k1 + k2 <= 969 ->
  below_pow (k1 + k2 + 1) (B64.mul x y).
Proof.
  intros [Hr1 Hx] [Hr2 Hy] Hk.
  destruct x as [sx | sx | | sx mx ex]; try contradiction;
    destruct y as [sy | sy | | sy my ey]; try contradiction;
    unfold B64.mul; cbn [SFmul]; try (split; [lia | exact I]).
  apply binary_round_aux_below; [lia | | lia].
  pose proof (mul_digits mx my). lia.
Qed.


Lemma Zdigits2_ge_pow (p : positive) : 2 ^ (Zdigits2 (Zpos p) - 1) <= Zpos p.
Proof.
  cbn [Zdigits2]. rewrite digits2_pos_size.
  pose proof (Pos.size_le p) as Hp.
  apply Pos2Z.pos_le_pos in Hp. rewrite Pos2Z.inj_pow in Hp.
  rewrite (Pos2Z.inj_xO p) in Hp.
  replace (Z.pos (Pos.size p)) with (Z.pos (Pos.size p) - 1 + 1) in Hp by lia.
  rewrite Z.pow_add_r in Hp by lia. change (2 ^ 1) with 2 in Hp. lia.
Qed.

(** The quotient mantissa of a division is non-negative, and its magnitude
    is at most one above the difference of the magnitudes. *)
Lemma div_core_below (m1 m2 : positive) (e1 e2 : Z) :
  let r := SFdiv_core_binary 53 1024 (Zpos m1) e1 (Zpos m2) e2 in
  0 <= fst (fst r) /\
  Zdigits2 (fst (fst r)) + snd (fst r)
  <= Z.max (Zdigits2 (Zpos m1) + e1 - (Zdigits2 (Zpos m2) + e2) + 1) (-1074).
Proof.
  cbv zeta. unfold SFdiv_core_binary.
  set (d1 := Zdigits2 (Zpos m1)). set (d2 := Zdigits2 (Zpos m2)).
  set (e' := Z.min (fexp 53 1024 (d1 + e1 - (d2 + e2))) (e1 - e2)).
  set (s := e1 - e2 - e').
  assert (Hs : 0 <= s) by (unfold s, e'; lia).
  assert (He' : e' <= Z.max (d1 + e1 - (d2 + e2) - 53) (-1074))
    by (unfold e', fexp, emin; lia).
  set (m' := match s with
             | Z0 => Zpos m1
             | Zpos _ => Z.shiftl (Zpos m1) s
             | Zneg _ => 0
             end).
  assert (Hm' : m' = Zpos m1 * 2 ^ s).
  { unfold m'. destruct s as [| p | p] eqn:Es.
    - cbn. lia.
    - rewrite Z.shiftl_mul_pow2 by lia. reflexivity.
    - lia. }
  pose proof (Z_div_mod m' (Zpos m2) ltac:(lia)) as Hdiv.
  destruct (Z.div_eucl m' (Zpos m2)) as [q r]. cbn [fst snd].
  destruct Hdiv as [Heq Hr].
  assert (P1 : Zpos m1 < 2 ^ d1) by (apply Zdigits2_lt_pow; lia).
  assert (P2 : 2 ^ (d2 - 1) <= Zpos m2) by apply Zdigits2_ge_pow.
  assert (D1 : 1 <= d1) by (unfold d1; cbn; lia).
  assert (D2 : 1 <= d2) by (unfold d2; cbn; lia).
  assert (Hpow : 0 < 2 ^ s) by (apply Z.pow_pos_nonneg; lia).
  assert (Hq : 0 <= q) by nia.
  split; [exact Hq |].
  assert (Hm'lt : m' < 2 ^ (d1 + s)).
  { rewrite Hm', Z.pow_add_r by lia. nia. }
  destruct (Z_lt_le_dec (d1 + s - d2 + 1) 0) as [Hneg | Hpos].
  - assert (Hle : 2 ^ (d1 + s) <= 2 ^ (d2 - 1))
      by (apply Z.pow_le_mono_r; lia).
    assert (q = 0) by nia. subst q. cbn [Zdigits2]. lia.
  - assert (Hd : Zdigits2 q <= d1 + s - d2 + 1).
    { apply Zdigits2_le_bound; [exact Hq | exact Hpos |].
      assert (Hsplit : 2 ^ (d1 + s) = 2 ^ (d2 - 1) * 2 ^ (d1 + s - d2 + 1)).
      { rewrite <- Z.pow_add_r by lia. f_equal. lia. }
      assert (Hp2 : 0 < 2 ^ (d2 - 1)) by (apply Z.pow_pos_nonneg; lia).
      assert (Hp3 : 0 < 2 ^ (d1 + s - d2 + 1))
        by (apply Z.pow_pos_nonneg; lia).
      nia. }
    unfold s in Hd. lia.
Qed.

Lemma div_below (k k' : Z) (x : B64.float) (sy : bool) (my : positive)
      (ey : Z) :
  below_pow k x ->
  k - (Zdigits2 (Zpos my) + ey) + 1 <= k' -> -1074 <= k' <= 969 ->
  below_pow (k' + 1) (B64.div x (S754_finite sy my ey)).
Proof.
  intros [Hr Hx] Hk Hk'.
  destruct x as [sx | sx | | sx mx ex]; try contradiction;
    unfold B64.div, B64.prec, B64.emax; cbn [SFdiv].
  - split; [lia | exact I].
  - pose proof (div_core_below mx my ex ey) as H. cbv zeta in H.
    destruct (SFdiv_core_binary 53 1024 (Zpos mx) ex (Zpos my) ey)
      as [[mz ez] lz].
    cbn [fst snd] in H. destruct H as [H0 H1].
    apply binary_round_aux_below; [exact H0 | lia | exact Hk'].
Qed.

Lemma of_Q_below (q : Q) (j : Z) :
  0 <= j <= 967 ->
  Z.abs (Qnum q) <= 2 ^ j * Zpos (Qden q) ->
  below_pow (j + 2) (B64.of_Q q).
Proof.
  intros Hj Hq. unfold B64.of_Q.
  destruct (Qnum q) as [| n | n] eqn:En.
  - split; [lia | exact I].
  - pose proof (div_core_below n (Qden q) 0 0) as H. cbv zeta in H.
    destruct (SFdiv_core_binary B64.prec B64.emax (Zpos n) 0
                                (Zpos (Qden q)) 0) as [[mz ez] lz] eqn:E.
    unfold B64.prec, B64.emax in E. rewrite E in H.
    cbn [fst snd] in H. destruct H as [H0 H1].
    replace (j + 2) with (j + 1 + 1) by lia.
    apply binary_round_aux_below; [exact H0 | | lia].
    assert (Hd : Zdigits2 (Zpos n) <= j + Zdigits2 (Zpos (Qden q))).
    { pose proof (Zdigits2_lt_pow (Zpos (Qden q)) ltac:(lia)) as P.
      pose proof (Zdigits2_nonneg (Zpos (Qden q))) as D.
      apply Zdigits2_le_bound; [lia | lia |].
      rewrite Z.pow_add_r by lia.
      assert (0 < 2 ^ j) by (apply Z.pow_pos_nonneg; lia).
      nia. }
    lia.
  - pose proof (div_core_below n (Qden q) 0 0) as H. cbv zeta in H.
    destruct (SFdiv_core_binary B64.prec B64.emax (Zpos n) 0
                                (Zpos (Qden q)) 0) as [[mz ez] lz] eqn:E.
    unfold B64.prec, B64.emax in E. rewrite E in H.
    cbn [fst snd] in H. destruct H as [H0 H1].
    replace (j + 2) with (j + 1 + 1) by lia.
    apply binary_round_aux_below; [exact H0 | | lia].
    assert (Hd : Zdigits2 (Zpos n) <= j + Zdigits2 (Zpos (Qden q))).
    { pose proof (Zdigits2_lt_pow (Zpos (Qden q)) ltac:(lia)) as P.
      pose proof (Zdigits2_nonneg (Zpos (Qden q))) as D.
      apply Zdigits2_le_bound; [lia | lia |].
      rewrite Z.pow_add_r by lia.
      assert (0 < 2 ^ j) by (apply Z.pow_pos_nonneg; lia).
      nia. }
    lia.
Qed.

Lemma of_Z_below (z : Z) (j : Z) :
  0 <= j <= 968 -> Z.abs z < 2 ^ j -> below_pow (j + 1) (B64.of_Z z).
Proof.
  intros Hj Hz. unfold B64.of_Z.
  apply binary_normalize_below; [| lia].
  assert (Zdigits2 (Z.abs z) <= j) by (apply Zdigits2_le_bound; lia).
  assert (Zdigits2 (Z.abs z) = Zdigits2 z) by (destruct z; reflexivity).
  lia.
Qed.


Lemma of_Q_unit (w : Q) : unit_interval w -> below_pow 2 (B64.of_Q w).
Proof.
  intros [H0 H1]. apply (of_Q_below w 0); [lia |].
  unfold Qle in H0, H1. cbn [Qnum Qden] in H0, H1.
  change (2 ^ 0) with 1. lia.
Qed.

Lemma of_Q_in_range (q : Q) : in_range q -> below_pow 6 (B64.of_Q q).
Proof.
  intros [H0 H1]. apply (of_Q_below q 4); [lia |].
  unfold Qle in H0, H1. cbn [Qnum Qden] in H0, H1.
  change (2 ^ 4) with 16. lia.
Qed.

Lemma zero_below (k : Z) (s : bool) :
  -1074 <= k <= 970 -> below_pow k (S754_zero s).
Proof. intro H. split; [exact H | exact I]. Qed.

Lemma sub_self (k : Z) (x : B64.float) :
  below_pow k x -> B64.sub x x = S754_zero false.
Proof.
  intros [_ H].
  destruct x as [s | s | | s m e]; try contradiction;
    unfold B64.sub; cbn [SFsub].
  - destruct s; reflexivity.
  - rewrite Z.sub_diag. reflexivity.
Qed.

Lemma add_neg_self (k : Z) (y : B64.float) :
  below_pow k y -> B64.add y (B64.sub (S754_zero false) y) = S754_zero false.
Proof.
  intros [_ H].
  destruct y as [s | s | | s m e]; try contradiction;
    unfold B64.add, B64.sub; cbn [SFsub SFadd].
  - destruct s; reflexivity.
  - rewrite Z.min_id. unfold shl_align. rewrite Z.sub_diag. cbn [fst].
    destruct s; cbn [cond_Zopp negb];
      rewrite ?Z.add_opp_diag_l, ?Z.add_opp_diag_r; reflexivity.
Qed.

(** The scaler fitted on one sample maps every finite feature to 0. *)
Lemma scale_feature64_zero (k : Z) (x : B64.float) :
  below_pow k x -> k <= 900 -> scale_feature64 x = B64.zero.
Proof.
  intros Hx Hk. unfold scale_feature64.
  rewrite (sub_self k x Hx).
  change (B64.eqb (S754_zero false) B64.zero) with true. cbv iota.
  assert (Hone : B64.div (B64.sub (B64.of_Z 1) (B64.of_Z 0)) (B64.of_Z 1)
                 = S754_finite false 4503599627370496 (-52))
    by (vm_compute; reflexivity).
  rewrite Hone.
  assert (H1 : below_pow 1 (S754_finite false 4503599627370496 (-52)))
    by (split; [lia | vm_compute; discriminate]).
  pose proof (mul_below k 1 x _ Hx H1 ltac:(destruct Hx; lia)) as Hy.
  change (B64.of_Z 0) with (S754_zero false).
  apply (add_neg_self _ _ Hy).
Qed.

Lemma normalized_scores64_zero (s : RawScores) :
  scores_in_range s ->
  normalized_scores64 s = [B64.zero; B64.zero; B64.zero; B64.zero].
Proof.
  intros (Ha & Hc & Hs & Ht). unfold normalized_scores64. cbn [map].
  rewrite (scale_feature64_zero 6 _ (of_Q_in_range _ Ha)) by lia.
  rewrite (scale_feature64_zero 6 _ (of_Q_in_range _ Hc)) by lia.
  rewrite (scale_feature64_zero 6 _ (of_Q_in_range _ Hs)) by lia.
  rewrite (scale_feature64_zero 6 _ (of_Q_in_range _ Ht)) by lia.
  reflexivity.
Qed.

Lemma dimension_match64_below (w : Q) :
  unit_interval w -> below_pow 6 (dimension_match64 B64.zero w).
Proof.
  intro Hw. unfold dimension_match64.
  change 6 with (4 + 2). apply sub_below; [| | lia].
  - apply (below_pow_weaken 2); [| lia]. apply (of_Z_below 1 1); lia.
  - apply abs_below. change 4 with (2 + 2). apply sub_below; [| | lia].
    + apply zero_below. lia.
    + apply of_Q_unit, Hw.
Qed.

Lemma four_below (k : Z) (x : B64.float) :
  below_pow k x -> -1074 <= k - 2 <= 969 ->
  below_pow (k - 1) (B64.div x (B64.of_Z 4)).
Proof.
  intros Hx Hk.
  assert (H4 : B64.of_Z 4 = S754_finite false 4503599627370496 (-50))
    by (vm_compute; reflexivity).
  rewrite H4. replace (k - 1) with (k - 2 + 1) by lia.
  destruct Hx as [Hr Hx'].
  apply (div_below k); [split; assumption | cbn; lia | lia].
Qed.


(** With scores within [0,10], weights within [0,1] and affinity strengths
    within [0,1], the overall score of a major is a finite double. *)
Lemma match_score_below (d : database) (s : RawScores) (tid : option Z)
      (major : Major.t) :
  scores_in_range s ->
  weights_in_unit major ->
  Forall (fun r => unit_interval (match_strength r))
         (major_personality_matches d) ->
  below_pow 16 (Match64.match_score
                  (major_match64 d (normalized_scores64 s) tid major)).
Proof.
  intros Hs (Ha & Hc & Hso & Ht) Hstr.
  rewrite (normalized_scores64_zero s Hs).
  unfold major_match64. cbn [Match64.match_score at_index64 nth].
  change 16 with (14 + 2). apply add_below; [| | lia].
  - change 14 with (11 + 2 + 1). apply mul_below; [| | lia].
    + change 11 with (12 - 1). apply four_below; [| lia].
      change 12 with (10 + 2). apply add_below; [| | lia].
      * change 10 with (8 + 2). apply add_below; [| | lia].
        -- change 8 with (6 + 2).
           apply add_below; [| | lia]; apply dimension_match64_below;
             assumption.
        -- apply (below_pow_weaken 6); [| lia].
           apply dimension_match64_below, Hso.
      * apply (below_pow_weaken 6); [| lia].
        apply dimension_match64_below, Ht.
    + apply of_Q_unit. split; unfold Qle; cbn; lia.
  - apply (below_pow_weaken 5); [| lia].
    change 5 with (2 + 2 + 1). apply mul_below; [| | lia].
    + destruct (type_id_given tid) as [t |];
        [| apply of_Q_unit; split; unfold Qle; cbn; lia].
      destruct (select_match_strength d (Major.id major) t) as [row |] eqn:E;
        [| apply of_Q_unit; split; unfold Qle; cbn; lia].
      apply of_Q_unit. unfold select_match_strength in E.
      apply find_some in E. destruct E as [Hin _].
      rewrite Forall_forall in Hstr. apply Hstr, Hin.
    + apply of_Q_unit. split; unfold Qle; cbn; lia.
Qed.

Lemma catalogue_scores_are_numbers (d : database) (s : RawScores)
      (tid : option Z) :
  scores_in_range s -> reference_data_in_unit d ->
  Forall (has_number Match64.match_score)
         (map (major_match64 d (normalized_scores64 s) tid) (majors d)).
Proof.
  intros Hs [Hw Hstr]. apply Forall_map.
  eapply Forall_impl; [| exact Hw].
  intros major Hmajor. unfold has_number.
  apply (below_pow_not_nan 16). apply match_score_below; assumption.
Qed.

Lemma dimension_percentage64_below (u : B64.float) (w : Q) :
  below_pow 8 u -> unit_interval w ->
  below_pow 12 (dimension_percentage64 u w).
Proof.
  intros Hu Hw. unfold dimension_percentage64.
  change 12 with (10 + 2). apply sub_below; [| | lia].
  - apply (below_pow_weaken 8); [| lia]. apply (of_Z_below 100 7); lia.
  - apply abs_below. change 10 with (8 + 2). apply sub_below; [exact Hu | | lia].
    change 8 with (2 + 5 + 1). apply mul_below; [| | lia].
    + apply of_Q_unit, Hw.
    + apply (of_Z_below 10 4); lia.
Qed.

(** With answers of magnitude below 256 and weights within [0,1] the
    average of a major is a finite double. *)
Lemma match_percentage64_finite (a c s t : B64.float) (major : Major.t) :
  below_pow 8 a -> below_pow 8 c -> below_pow 8 s -> below_pow 8 t ->
  weights_in_unit major ->
  finite_average a c s t major.
Proof.
  intros Ha Hc Hs Ht (Hwa & Hwc & Hws & Hwt).
  unfold finite_average. apply (below_pow_finite 17).
  unfold match_percentage64.
  change 17 with (18 - 1). apply four_below; [| lia].
  change 18 with (16 + 2). apply add_below; [| | lia].
  - change 16 with (14 + 2). apply add_below; [| | lia].
    + change 14 with (12 + 2).
      apply add_below; [| | lia]; apply dimension_percentage64_below;
        assumption.
    + apply (below_pow_weaken 12); [| lia].
      apply dimension_percentage64_below; assumption.
  - apply (below_pow_weaken 12); [| lia].
    apply dimension_percentage64_below; assumption.
Qed.

Lemma py_float64_in_range (float_of_str64 : string -> option B64.float)
      (v : pyval) :
  answer_in_range v ->
  exists x, py_float64 float_of_str64 v = ok x /\ below_pow 8 x.
Proof.
  intros (q & Hq & H0 & H10).
  destruct v as [| b | z | q' | | |]; try discriminate;
    cbn [num_value] in Hq; injection Hq as <-; cbn [py_float64].
  - eexists. split; [reflexivity |].
    apply (below_pow_weaken 2); [| lia].
    destruct b; [apply (of_Z_below 1 1) | apply (of_Z_below 0 1)]; lia.
  - eexists. split; [reflexivity |].
    apply (below_pow_weaken 5); [| lia].
    unfold Qle in H0, H10. cbn [Qnum Qden inject_Z] in H0, H10.
    apply (of_Z_below z 4); [lia |]. change (2 ^ 4) with 16. lia.
  - eexists. split; [reflexivity |].
    apply (below_pow_weaken 6); [| lia].
    apply of_Q_in_range. split; assumption.
Qed.

End B64Facts.

(** ** The ranked list in binary64 *)

(** The two majors of [near_tie_db] both score 39/50 in exact arithmetic.
    In binary64 the first scores 0.7799999999999999 and the second 0.78, so
    the second is listed first. *)
Example near_tie_order :
  let res := calculate_major_matches64 near_tie_db (mkScores 8 3 9 6) None in
  map Match64.major_id res = [2; 1]%Z /\
  map Match64.match_score res =
    [SpecFloat.S754_finite false 7025615418697974 (-53);
     SpecFloat.S754_finite false 7025615418697973 (-53)] /\
  B64.of_Q (78 # 100) = SpecFloat.S754_finite false 7025615418697974 (-53) /\
  map Match.major_id
      (calculate_major_matches near_tie_db (mkScores 8 3 9 6) None)
  = [1; 2]%Z.
Proof. cbv zeta. repeat split; vm_compute; reflexivity. Qed.

(** C4: the list [calculate_major_matches] returns holds one result per
    catalogue entry (it is a permutation of the per-major results, and the
    major ids are those of the catalogue); it is sorted non-increasing by
    [match_score] as doubles compare, with the results of equal score in
    catalogue order, whenever every overall score is a number, and so for
    all scores within [0,10] and reference data within [0,1]; and the
    empty catalogue gives the empty list. *)
Theorem matches64_cover_catalogue_sorted (d : database) (s : RawScores)
        (personality_type_id : option Z) :
  let per_major :=
    map (major_match64 d (normalized_scores64 s) personality_type_id)
        (majors d) in
  let res := calculate_major_matches64 d s personality_type_id in
  let sorted_and_stable :=
    StronglySorted (desc64 Match64.match_score) res /\
    (forall k : B64.float,
       filter (fun r => B64.eqb (Match64.match_score r) k) res =
       filter (fun r => B64.eqb (Match64.match_score r) k) per_major) in
  Permutation res per_major /\
  List.length res = List.length (majors d) /\
  Permutation (map Match64.major_id res) (map Major.id (majors d)) /\
  (Forall (has_number Match64.match_score) per_major -> sorted_and_stable) /\
  (scores_in_range s -> reference_data_in_unit d -> sorted_and_stable) /\
  (majors d = [] -> res = []).
Proof.
  cbv zeta. unfold calculate_major_matches64.
  set (per_major :=
         map (major_match64 d (normalized_scores64 s) personality_type_id)
             (majors d)) in *.
  assert (Hperm : Permutation (sort_desc64 Match64.match_score per_major)
                              per_major) by apply sort_desc64_perm.
  assert (Hsorted : Forall (has_number Match64.match_score) per_major ->
            StronglySorted (desc64 Match64.match_score)
                           (sort_desc64 Match64.match_score per_major) /\
            (forall k : B64.float,
               filter (fun r => B64.eqb (Match64.match_score r) k)
                      (sort_desc64 Match64.match_score per_major) =
               filter (fun r => B64.eqb (Match64.match_score r) k)
                      per_major)).
  { intro Hnum. split; [apply sort_desc64_sorted, Hnum |].
    intro k. apply sort_desc64_stable. }
  split; [exact Hperm |].
  split.
  { rewrite (Permutation_length Hperm). unfold per_major.
    apply length_map. }
  split.
  { eapply perm_trans; [apply Permutation_map, Hperm |].
    unfold per_major. rewrite map_map. cbn [major_match64 Match64.major_id].
    apply Permutation_refl. }
  split; [exact Hsorted |].
  split.
  { intros Hs Hd. apply Hsorted.
    apply B64Facts.catalogue_scores_are_numbers; assumption. }
  intro Hempty. unfold per_major. rewrite Hempty. reflexivity.
Qed.

Lemma matches64_cover_catalogue_sorted_witness :
  StronglySorted (desc64 Match64.match_score)
                 (calculate_major_matches64 near_tie_db (mkScores 8 3 9 6)
                                            None).
Proof.
  destruct (matches64_cover_catalogue_sorted near_tie_db (mkScores 8 3 9 6)
                                             None)
    as (_ & _ & _ & _ & H & _).
  apply H.
  - repeat split; unfold Qle; simpl; lia.
  - split; cbn [near_tie_db majors major_personality_matches];
      repeat constructor; unfold Qle; simpl; lia.
Defined.

(** C7: a user vector equal to a major's weights under a consistent
    scaling.  The scores (10, 0, 5, 10) are ten times the weights
    (1, 0, 1/2, 1) of [scaled_major], and min-max normalisation across the
    four values gives the weights themselves; the four dimension matches
    [calculate_major_matches] computes for that major are 0, 1, 0.5 and 0,
    in binary64 and in exact arithmetic alike, because the vector it
    compares with the weights is (0, 0, 0, 0). *)
Theorem scaled_vector_not_full_match :
  let s := mkScores 10 0 5 10 in
  let weights := [Major.analytical_weight scaled_major;
                  Major.creative_weight scaled_major;
                  Major.social_weight scaled_major;
                  Major.technical_weight scaled_major] in
  Forall2 Qeq (map (fun w => w * 10) weights)
          [analytical_score s; creative_score s; social_score s;
           technical_score s] /\
  Forall2 Qeq (spec_normalize s) weights /\
  normalized_scores64 s = [B64.zero; B64.zero; B64.zero; B64.zero] /\
  map (fun r => (Match64.analytical_match r, Match64.creative_match r,
                 Match64.social_match r, Match64.technical_match r))
      (calculate_major_matches64 scaled_db s None)
  = [(B64.of_Z 0, B64.of_Z 1, B64.of_Q (1 # 2), B64.of_Z 0)] /\
  Forall2 (fun r expected =>
             Match.analytical_match r == fst (fst (fst expected)) /\
             Match.creative_match r == snd (fst (fst expected)) /\
             Match.social_match r == snd (fst expected) /\
             Match.technical_match r == snd expected)
          (calculate_major_matches scaled_db s None)
          [(0, 1, 1 # 2, 0)] /\
  B64.eqb (B64.of_Z 0) (B64.of_Z 1) = false.
Proof.
  cbv zeta.
  split; [repeat constructor; vm_compute; reflexivity |].
  split; [repeat constructor; vm_compute; reflexivity |].
  split; [vm_compute; reflexivity |].
  split; [vm_compute; reflexivity |].
  split; [| vm_compute; reflexivity].
  repeat constructor; vm_compute; reflexivity.
Qed.

(** ** The recommendations page in binary64 *)

(** [round] is applied to the double the average rounds to: with four
    answers of 5 the exact average for [half_way_major] is 98.5, shown as
    98 by rounding to even, but the float average lies above 98.5 and 99 is
    shown.  For [near_half_major] the float average is 96.5 and 96 is
    shown. *)
Example rounded_percentage_binary64 :
  let five := B64.of_Z 5 in
  match_percentage_of 5 5 5 5 half_way_major == 985 # 10 /\
  Rendered.match_percentage (rendered_entry 5 5 5 5 half_way_major) = 98%Z /\
  match_percentage64 five five five five half_way_major =
    SpecFloat.S754_finite false 6931321301499905 (-46) /\
  B64.ltb (B64.of_Q (985 # 10))
          (match_percentage64 five five five five half_way_major) = true /\
  (exists r, rendered_entry64 five five five five half_way_major = ok r /\
             Rendered.match_percentage r = 99%Z) /\
  B64.to_Q (match_percentage64 (B64.of_Z 10) (B64.of_Z 2) (B64.of_Z 5)
                               (B64.of_Z 8) near_half_major)
    = Some (6790583813144576 # 70368744177664) /\
  (exists r, rendered_entry64 (B64.of_Z 10) (B64.of_Z 2) (B64.of_Z 5)
                              (B64.of_Z 8) near_half_major = ok r /\
             Rendered.match_percentage r = 96%Z).
Proof.
  cbv zeta. repeat split; try (vm_compute; reflexivity);
    eexists; split; vm_compute; reflexivity.
Qed.

(** C8 as stated fails: the majors are not ordered by the percentage the
    formula gives but by its rounded value.  With four answers of 5 the
    float averages of [tie_db] are 99.6, 99.7, 99.8 and 100, which all
    round to 100: the page shows M1, M2, M3, where the order by the average
    is M4, M3, M2. *)
Lemma recommendations64_sorted_by_rounded_value :
  let five := B64.of_Z 5 in
  rendered_names (fst (recommendations64 no_str_float64 tie_db all_fives))
  = ["M1"; "M2"; "M3"] /\
  map Major.name
      (spec_recommendation_order64 five five five five (majors tie_db))
  = ["M4"; "M3"; "M2"] /\
  rendered_names (fst (recommendations64 no_str_float64 tie_db all_fives))
  <> map Major.name
         (spec_recommendation_order64 five five five five (majors tie_db)).
Proof.
  cbv zeta.
  assert (H1 : rendered_names
                 (fst (recommendations64 no_str_float64 tie_db all_fives))
               = ["M1"; "M2"; "M3"]) by (vm_compute; reflexivity).
  assert (H2 : map Major.name
                   (spec_recommendation_order64
                      (B64.of_Z 5) (B64.of_Z 5) (B64.of_Z 5) (B64.of_Z 5)
                      (majors tie_db))
               = ["M4"; "M3"; "M2"]) by (vm_compute; reflexivity).
  split; [exact H1 |]. split; [exact H2 |].
  rewrite H1, H2. discriminate.
Qed.

Section Recommendations64Facts.

Variable float_of_str64 : string -> option B64.float.

Lemma rendered_entry64_finite (a c s t : B64.float) (major : Major.t) :
  finite_average a c s t major ->
  exists q,
    B64.to_Q (match_percentage64 a c s t major) = Some q /\
    rendered_entry64 a c s t major =
    ok (Rendered.mk (Major.name major) (Major.description major)
                    (split_comma (Major.careers major))
                    (split_comma (Major.skills major))
                    (py_round q)
                    (Major.analytical_weight major,
                     Major.creative_weight major,
                     Major.social_weight major,
                     Major.technical_weight major)).
Proof.
  unfold finite_average, rendered_entry64, py_round64. intro Hfin.
  destruct (B64.to_Q (match_percentage64 a c s t major)) as [q |];
    [| congruence].
  exists q. split; reflexivity.
Qed.

Lemma render_majors64_ok (us : dict pyval) (a c s t : B64.float)
      (l : list Major.t) :
  user_score64 float_of_str64 us "analytical" = ok a ->
  user_score64 float_of_str64 us "creative" = ok c ->
  user_score64 float_of_str64 us "social" = ok s ->
  user_score64 float_of_str64 us "technical" = ok t ->
  Forall (finite_average a c s t) l ->
  exists entries,
    render_majors64 float_of_str64 us l = ok entries /\
    Forall2 (fun major r => rendered_entry64 a c s t major = ok r) l entries.
Proof.
  intros Ha Hc Hs Ht Hfin.
  induction Hfin as [| m l Hm Hl (entries & IH & IH2)].
  - exists []. split; [reflexivity | constructor].
  - destruct (rendered_entry64_finite a c s t m Hm) as (q & _ & Hr).
    eexists (_ :: entries). split.
    + cbn [render_majors64]. unfold render_major64.
      rewrite Ha, Hc, Hs, Ht. cbn [bind ok]. rewrite Hr. cbn [bind ok].
      rewrite IH. reflexivity.
    + constructor; [exact Hr | exact IH2].
Qed.

Lemma recommendations64_render (d : database) (sess : Session.t)
      (us : dict pyval) (entries : list Rendered.t) :
  user_id_truthy sess = true ->
  Session.questionnaire_responses sess = Some us -> us <> [] ->
  render_majors64 float_of_str64 us (majors d) = ok entries ->
  recommendations64 float_of_str64 d sess =
  (RenderRecommendations (firstn 3 (sort_desc percentage_key entries)) us,
   sess).
Proof.
  intros Hu Hq Hne Hr. unfold recommendations64.
  unfold user_id_truthy in Hu.
  destruct (Session.user_id sess) as [uid |] eqn:Euid; [| discriminate].
  unfold user_id_truthy, responses_truthy. rewrite Euid, Hu, Hq.
  destruct us as [| b us]; [congruence |]. cbn [negb].
  rewrite Hr. reflexivity.
Qed.

End Recommendations64Facts.


(** The averages are finite whenever the four answers held by the session
    are numbers within [0,10] and the weights lie within [0,1]. *)
Lemma answers_in_range_finite_averages
      (float_of_str64 : string -> option B64.float)
      (us : dict pyval) (d : database) :
  (forall key, In key ["analytical"; "creative"; "social"; "technical"] ->
               exists v, dget key us = Some v /\ answer_in_range v) ->
  Forall weights_in_unit (majors d) ->
  exists a c s t : B64.float,
    user_score64 float_of_str64 us "analytical" = ok a /\
    user_score64 float_of_str64 us "creative" = ok c /\
    user_score64 float_of_str64 us "social" = ok s /\
    user_score64 float_of_str64 us "technical" = ok t /\
    Forall (finite_average a c s t) (majors d).
Proof.
  intros Hus Hw.
  assert (Hkey : forall key,
            In key ["analytical"; "creative"; "social"; "technical"] ->
            exists x, user_score64 float_of_str64 us key = ok x /\
                      below_pow 8 x).
  { intros key Hin. destruct (Hus key Hin) as (v & Hv & Hr).
    destruct (B64Facts.py_float64_in_range float_of_str64 v Hr)
      as (x & Hx & Hb).
    exists x. split; [| exact Hb].
    unfold user_score64, py_getitem. rewrite Hv. exact Hx. }
  destruct (Hkey "analytical") as (a & Ha & Ba); [cbn; auto |].
  destruct (Hkey "creative") as (c & Hc & Bc); [cbn; auto |].
  destruct (Hkey "social") as (s & Hs & Bs); [cbn; auto |].
  destruct (Hkey "technical") as (t & Ht & Bt); [cbn; auto 6 |].
  exists a, c, s, t. repeat (split; [assumption |]).
  eapply Forall_impl; [| exact Hw].
  intros major Hm. apply B64Facts.match_percentage64_finite; assumption.
Qed.

(** C8, amended: for a logged-in session holding four numeric answers,
    the handler computes for every major the double
    ((100 - |a - w_a * 10|) + (100 - |c - w_c * 10|) + (100 - |s - w_s * 10|)
     + (100 - |t - w_t * 10|)) / 4
    from the raw answers, every operation rounded as binary64 rounds and
    with no personality term (only the catalogue is read); where these
    averages are finite, as they are for answers within [0,10] and weights
    within [0,1], it shows for each major the integer nearest to the double
    (ties to even), sorts the majors by this integer, descending and
    stable, and renders the first three. *)
Theorem recommendations64_top_three
        (float_of_str64 : string -> option B64.float)
        (d : database) (sess : Session.t) (us : dict pyval)
        (a c s t : B64.float) :
  user_id_truthy sess = true ->
  Session.questionnaire_responses sess = Some us -> us <> [] ->
  user_score64 float_of_str64 us "analytical" = ok a ->
  user_score64 float_of_str64 us "creative" = ok c ->
  user_score64 float_of_str64 us "social" = ok s ->
  user_score64 float_of_str64 us "technical" = ok t ->
  Forall (finite_average a c s t) (majors d) ->
  exists entries : list Rendered.t,
    let sorted := sort_desc percentage_key entries in
    let top := firstn 3 sorted in
    recommendations64 float_of_str64 d sess
    = (RenderRecommendations top us, sess) /\
    Forall2
      (fun major r =>
         let dim u w :=
           B64.sub (B64.of_Z 100)
                   (B64.abs (B64.sub u (B64.mul (B64.of_Q w) (B64.of_Z 10)))) in
         let average :=
           B64.div
             (B64.add
                (B64.add
                   (B64.add (dim a (Major.analytical_weight major))
                            (dim c (Major.creative_weight major)))
                   (dim s (Major.social_weight major)))
                (dim t (Major.technical_weight major)))
             (B64.of_Z 4) in
         exists q : Q,
           B64.to_Q average = Some q /\
           Rendered.match_percentage r = py_round q /\
           Rendered.name r = Major.name major /\
           Rendered.description r = Major.description major /\
           Rendered.careers r = split_comma (Major.careers major) /\
           Rendered.skills r = split_comma (Major.skills major))
      (majors d) entries /\
    Permutation sorted entries /\
    StronglySorted
      (fun x y =>
         (Rendered.match_percentage y <= Rendered.match_percentage x)%Z)
      sorted /\
    (forall k, filter (fun r => Qeq_bool (percentage_key r) k) sorted =
               filter (fun r => Qeq_bool (percentage_key r) k) entries) /\
    List.length top = Nat.min 3 (List.length (majors d)) /\
    (forall d', majors d' = majors d ->
                recommendations64 float_of_str64 d' sess =
                recommendations64 float_of_str64 d sess).
Proof.
  intros Hu Hq Hne Ha Hc Hs Ht Hfin.
  destruct (render_majors64_ok float_of_str64 us a c s t (majors d)
                               Ha Hc Hs Ht Hfin) as (entries & Hr & Hall).
  exists entries. cbv zeta.
  split; [apply recommendations64_render; assumption |].
  split.
  { clear Hr. induction Hall as [| m r l l' Hm Hall IH]; [constructor |].
    inversion Hfin as [| ? ? Hfm Hfl]; subst.
    constructor; [| apply IH, Hfl].
    destruct (rendered_entry64_finite a c s t m Hfm) as (q & Hq' & Hr').
    rewrite Hr' in Hm. injection Hm as <-.
    exists q. split; [exact Hq' |]. repeat split. }
  split; [apply sort_desc_perm |].
  split; [eapply StronglySorted_impl_Q; apply sort_desc_sorted |].
  split; [intro k; apply sort_desc_stable |].
  split.
  { rewrite length_firstn, sort_desc_length.
    rewrite <- (Forall2_length Hall). reflexivity. }
  intros d' Hd'.
  rewrite (recommendations64_render float_of_str64 d' sess us entries)
    by (try assumption; rewrite Hd'; assumption).
  rewrite (recommendations64_render float_of_str64 d sess us entries)
    by assumption.
  reflexivity.
Qed.

(** Four answers of 5 against the catalogue of four majors. *)
Lemma recommendations64_top_three_witness :
  exists entries : list Rendered.t,
    recommendations64 no_str_float64 tie_db all_fives
    = (RenderRecommendations (firstn 3 (sort_desc percentage_key entries))
                             [("analytical", PInt 5); ("creative", PInt 5);
                              ("social", PInt 5); ("technical", PInt 5)],
       all_fives) /\
    List.length entries = 4%nat.
Proof.
  assert (Hfin : Forall (finite_average (B64.of_Z 5) (B64.of_Z 5)
                                        (B64.of_Z 5) (B64.of_Z 5))
                        (majors tie_db)).
  { repeat (constructor; [vm_compute; discriminate |]). constructor. }
  destruct (recommendations64_top_three
              no_str_float64 tie_db all_fives
              [("analytical", PInt 5); ("creative", PInt 5);
               ("social", PInt 5); ("technical", PInt 5)]
              (B64.of_Z 5) (B64.of_Z 5) (B64.of_Z 5) (B64.of_Z 5)
              eq_refl eq_refl ltac:(discriminate)
              eq_refl eq_refl eq_refl eq_refl Hfin)
    as (entries & H & Hall & _).
  exists entries. split; [exact H |].
  rewrite <- (Forall2_length Hall). reflexivity.
Defined.

(** ** Which answers the next request sees *)

(** With an empty accumulator the handler assigns the key, so the session
    is written back together with the answer stored in it. *)
Lemma first_answer_is_saved (sess : Session.t) (d : dict pyval)
      (st : flow_state) (n : Z) (fld : string) :
  user_id_truthy sess = true ->
  responses_truthy sess = false ->
  step_number st = Some n -> field_of st = Some fld ->
  dget "step" d = Some (PInt n) ->
  questionnaire_next_request sess (PDict d) = questionnaire_next sess (PDict d) /\
  dget fld (accumulator (snd (questionnaire_next_request sess (PDict d)))) =
  Some (match dget fld d with Some v => v | None => PNone end).
Proof.
  intros Hu Hr Hn Hf Hstep.
  unfold questionnaire_next_request, questionnaire_next_modified.
  rewrite (questionnaire_next_step sess d st n fld Hu Hn Hf Hstep).
  pose proof Hu as Hu'. unfold user_id_truthy in Hu'.
  destruct (Session.user_id sess) as [uid |] eqn:Euid; [| discriminate].
  rewrite Hu, Hr. cbn [negb py_get]. rewrite Hstep.
  cbn [ok saved_session snd accumulator Session.questionnaire_responses].
  split; [reflexivity | apply dget_dset_same].
Qed.

(** C9: with an answer already in the accumulator, a POST for step N
    (1 to 4) answers with the redirect to the next step and stores the
    value in the session object of the request, but the session the next
    request reads is the one before the POST: an answer for a field not
    yet held is absent from it. *)
Theorem later_answers_are_not_saved (sess : Session.t) (d : dict pyval)
        (st : flow_state) (n : Z) (fld : string) :
  user_id_truthy sess = true ->
  responses_truthy sess = true ->
  step_number st = Some n -> field_of st = Some fld ->
  dget "step" d = Some (PInt n) ->
  let answer := match dget fld d with Some v => v | None => PNone end in
  fst (questionnaire_next_request sess (PDict d)) =
  JsonifyRedirect (if Z.eqb n 4 then UrlRecommendations
                   else UrlQuestionnaire (Some (n + 1)%Z)) /\
  dget fld (accumulator (snd (questionnaire_next sess (PDict d))))
  = Some answer /\
  snd (questionnaire_next_request sess (PDict d)) = sess /\
  (dget fld (accumulator sess) = None ->
   dget fld (accumulator (snd (questionnaire_next_request sess (PDict d))))
   = None).
Proof.
  intros Hu Hr Hn Hf Hstep. cbv zeta.
  assert (Hsaved : snd (questionnaire_next_request sess (PDict d)) = sess).
  { unfold questionnaire_next_request, questionnaire_next_modified.
    rewrite (questionnaire_next_step sess d st n fld Hu Hn Hf Hstep).
    pose proof Hu as Hu'. unfold user_id_truthy in Hu'.
    destruct (Session.user_id sess) as [uid |] eqn:Euid; [| discriminate].
    rewrite Hu, Hr. cbn [negb py_get]. rewrite Hstep. reflexivity. }
  split.
  { unfold questionnaire_next_request.
    rewrite (questionnaire_next_step sess d st n fld Hu Hn Hf Hstep).
    reflexivity. }
  split.
  { rewrite (questionnaire_next_step sess d st n fld Hu Hn Hf Hstep).
    cbn [snd accumulator Session.questionnaire_responses].
    apply dget_dset_same. }
  split; [exact Hsaved |].
  rewrite Hsaved. auto.
Qed.

(** The session holds the first answer; the answer of step 2 is posted. *)
Lemma later_answers_are_not_saved_witness :
  fst (questionnaire_next_request one_answer
                                  (step_body 2 "creative" (PInt 5)))
  = JsonifyRedirect (UrlQuestionnaire (Some 3%Z)) /\
  dget "creative"
       (accumulator (snd (questionnaire_next one_answer
                                             (step_body 2 "creative" (PInt 5)))))
  = Some (PInt 5) /\
  snd (questionnaire_next_request one_answer
                                  (step_body 2 "creative" (PInt 5)))
  = one_answer /\
  dget "creative"
       (accumulator (snd (questionnaire_next_request
                            one_answer (step_body 2 "creative" (PInt 5)))))
  = None.
Proof.
  destruct (later_answers_are_not_saved
              one_answer [("step", PInt 2); ("creative", PInt 5)]
              Step2 2%Z "creative"
              eq_refl eq_refl eq_refl eq_refl eq_refl)
    as (H1 & H2 & H3 & H4).
  split; [exact H1 |]. split; [exact H2 |]. split; [exact H3 |].
  apply H4. reflexivity.
Defined.

(** A whole run: after the four POSTs the session of the next request
    holds the first answer only, and the recommendations page fails on a
    non-empty catalogue ([user_scores['creative']] raises); it would render
    three majors if each request handed its session object on. *)
Example four_posts_then_recommendations :
  accumulator (after_requests logged_in four_answers)
  = [("analytical", PInt 7)] /\
  accumulator (after_views logged_in four_answers)
  = [("analytical", PInt 7); ("creative", PInt 5); ("social", PInt 6);
     ("technical", PInt 8)] /\
  fst (recommendations64 no_str_float64 tie_db
                         (after_requests logged_in four_answers))
  = ServerError /\
  rendered_names (fst (recommendations64 no_str_float64 tie_db
                                         (after_views logged_in four_answers)))
  = ["M1"; "M2"; "M3"].
Proof. repeat split; vm_compute; reflexivity. Qed.
